(** * GitHub Repository Metadata Generator: a shallow embedding of [index.js]

    The program is a linear pipeline: inspect the selected repository,
    ask which fields to generate, gather a context record, call the
    text-generation service once per field, preview, and write the
    results back.  This development embeds the string post-processing
    of the generators, the context builder and the part of [main] that
    runs after a repository has been selected, and proves the properties
    the specification states about them.

    Strings are sequences of UTF-16 code units.  The embedding works on
    the code units below 256 (the Latin-1 block), carried by [ascii]: on
    that block [trim], [toLowerCase], [split] and the [\s] class act one
    code unit at a time, which is what the definitions below spell out. *)

From Stdlib Require Import String Ascii List Bool Arith ZArith Lia Setoid.
Import ListNotations.
Open Scope string_scope.
Open Scope list_scope.

(* ================================================================= *)
(** ** Strings *)

Module JsString.

(** White space as [String.prototype.trim] and the [\s] class see it,
    restricted to code units below 256: TAB, LF, VT, FF, CR, SPACE and
    NO-BREAK SPACE (U+00A0). *)
Definition is_space (c : ascii) : bool :=
  let n := nat_of_ascii c in
  (((9 <=? n) && (n <=? 13)) || (n =? 32) || (n =? 160))%nat.

(** Lower-casing of one code unit: A-Z, and the Latin-1 capitals
    U+00C0..U+00DE except the multiplication sign U+00D7. *)
Definition toLowerChar (c : ascii) : ascii :=
  let n := nat_of_ascii c in
  if (((65 <=? n) && (n <=? 90))
      || ((192 <=? n) && (n <=? 222) && negb (n =? 215)))%nat
  then ascii_of_nat (n + 32)
  else c.

Fixpoint toLowerCase (s : string) : string :=
  match s with
  | EmptyString => EmptyString
  | String c r => String (toLowerChar c) (toLowerCase r)
  end.

Fixpoint trimStart (s : string) : string :=
  match s with
  | EmptyString => EmptyString
  | String c r => if is_space c then trimStart r else s
  end.

Fixpoint trimEnd (s : string) : string :=
  match s with
  | EmptyString => EmptyString
  | String c r =>
      match trimEnd r with
      | EmptyString => if is_space c then EmptyString else String c EmptyString
      | String _ _ as t => String c t
      end
  end.

(** [s.trim()] *)
Definition trim (s : string) : string := trimEnd (trimStart s).

(** [s.split(sep)] for a one-character separator; the result is never
    empty: [("").split(",")] is [[""]]. *)
Fixpoint split (sep : ascii) (s : string) : list string :=
  match s with
  | EmptyString => [EmptyString]
  | String c r =>
      if Ascii.eqb c sep then EmptyString :: split sep r
      else match split sep r with
           | [] => [String c EmptyString]
           | p :: ps => String c p :: ps
           end
  end.

(** [s.replace(/\s+/g, "-")]: every maximal run of white space becomes
    one hyphen.  [in_run] tells that the previous code unit was white
    space, so that the hyphen of the current run is already written. *)
Fixpoint replaceSpaceRuns (in_run : bool) (s : string) : string :=
  match s with
  | EmptyString => EmptyString
  | String c r =>
      if is_space c
      then if in_run then replaceSpaceRuns true r
           else String "-" (replaceSpaceRuns true r)
      else String c (replaceSpaceRuns false r)
  end.

(** [s.substring(0, n)] *)
Definition substringTo (n : nat) (s : string) : string := substring 0 n s.

(** [sep]-joined concatenation, [xs.join(sep)] *)
Definition join (sep : string) (xs : list string) : string := String.concat sep xs.

(** JavaScript truthiness of a string: only the empty string is falsy. *)
Definition truthy (s : string) : bool :=
  match s with EmptyString => false | String _ _ => true end.

(** Every code unit of [s] satisfies [p]. *)
Fixpoint all (p : ascii -> bool) (s : string) : bool :=
  match s with
  | EmptyString => true
  | String c r => p c && all p r
  end.

(** [s] has no white space at all. *)
Definition no_space (s : string) : bool := all (fun c => negb (is_space c)) s.

(** [s] is its own lower-casing. *)
Definition is_lowercase (s : string) : bool :=
  all (fun c => Ascii.eqb (toLowerChar c) c) s.

End JsString.

Import JsString.

(* ================================================================= *)
(** ** Post-processing of the generated text *)

(** The arrow function given to [map] in [generateTopics]:
    [t.trim().toLowerCase().replace(/\s+/g, "-")]. *)
Definition normalizeTopic (t : string) : string :=
  replaceSpaceRuns false (toLowerCase (trim t)).

(** The arrow function given to [filter]:
    [t.length > 0 && t.length <= 50]. *)
Definition keepTopic (t : string) : bool :=
  ((0 <? String.length t) && (String.length t <=? 50))%nat.

(** What [generateTopics] returns for the completion text [content]. *)
Definition topicsOfText (content : string) : list string :=
  let topicsText := trim content in
  firstn 10 (filter keepTopic (map normalizeTopic (split "," topicsText))).

(** The same pipeline as the specification words it: split the returned
    text itself, with no trimming of the whole text first. *)
Definition topicsOfText_spec (content : string) : list string :=
  firstn 10 (filter keepTopic (map normalizeTopic (split "," content))).

(** What [generateDescription] returns for the completion text. *)
Definition descriptionOfText (content : string) : string :=
  substringTo 350 (trim content).

(** [generateWebsite] and [generateReadme] only trim. *)
Definition websiteOfText (content : string) : string := trim content.
Definition readmeOfText (content : string) : string := trim content.


(* ================================================================= *)
(** ** Base64 of the UTF-8 bytes of a string *)

Module Base64.

(** [Buffer.from(s)]: the UTF-8 bytes of a string of code units below
    256; a code unit from 128 on takes two bytes. *)
Fixpoint utf8 (s : string) : list nat :=
  match s with
  | EmptyString => []
  | String c r =>
      let n := nat_of_ascii c in
      if (n <? 128)%nat then n :: utf8 r
      else (192 + n / 64)%nat :: (128 + n mod 64)%nat :: utf8 r
  end.

Definition digit (n : nat) : ascii :=
  if (n <? 26)%nat then ascii_of_nat (65 + n)
  else if (n <? 52)%nat then ascii_of_nat (97 + (n - 26))
  else if (n <? 62)%nat then ascii_of_nat (48 + (n - 52))
  else if (n =? 62)%nat then "+"%char
  else "/"%char.

Fixpoint encode (bs : list nat) : string :=
  match bs with
  | [] => EmptyString
  | [a] =>
      String (digit (a / 4)) (String (digit ((a mod 4) * 16)) "==")
  | [a; b] =>
      String (digit (a / 4))
        (String (digit ((a mod 4) * 16 + b / 16))
           (String (digit ((b mod 16) * 4)) "="))
  | a :: b :: c :: r =>
      String (digit (a / 4))
        (String (digit ((a mod 4) * 16 + b / 16))
           (String (digit ((b mod 16) * 4 + c / 64))
              (String (digit (c mod 64)) (encode r))))
  end.

(** [Buffer.from(s).toString("base64")] *)
Definition ofString (s : string) : string := encode (utf8 s).

End Base64.

(* ================================================================= *)
(** ** Data model *)

(** An error object as the program reads it: [error.status] (absent on
    errors that are not HTTP responses) and [error.message]. *)
Record JsError := { status : option nat; message : string }.

(** The settlement of an awaited promise. *)
Inductive response (A : Type) : Type :=
| Resolved (a : A)
| Rejected (e : JsError).
Arguments Resolved {A} a.
Arguments Rejected {A} e.

(** A parsed JSON value ([JSON.parse]). *)
#[local] Unset Elimination Schemes.
Inductive Json : Type :=
| JNull
| JBool (b : bool)
| JNumber (n : nat)
| JString (s : string)
| JArray (xs : list Json)
| JObject (fields : list (string * Json)).
#[local] Set Elimination Schemes.

(** The fields of a listed repository that the program reads once a
    repository is selected. *)
Module Repo.
Record t := {
  name : string;
  full_name : string;
  owner_login : string;
  description : option string;
  homepage : option string;
  language : option string;
  topics : option (list string);
  private : bool;
  default_branch : string
}.
End Repo.

Module ConfigFile.
Record t := { name : string; content : string }.
End ConfigFile.

(** The [context] object of [getRepositoryContext].  [packageJson] is
    [null] ([JNull]) until a manifest is parsed; [configFile] is absent
    until a config file is attached. *)
Module Context.
Record t := {
  name : string;
  fullName : string;
  description : string;
  language : string;
  topics : list string;
  isPrivate : bool;
  defaultBranch : string;
  files : list string;
  packageJson : Json;
  configFile : option ConfigFile.t
}.

Definition with_files (fs : list string) (c : t) : t :=
  {| name := name c; fullName := fullName c; description := description c;
     language := language c; topics := topics c; isPrivate := isPrivate c;
     defaultBranch := defaultBranch c; files := fs;
     packageJson := packageJson c; configFile := configFile c |}.

Definition with_packageJson (j : Json) (c : t) : t :=
  {| name := name c; fullName := fullName c; description := description c;
     language := language c; topics := topics c; isPrivate := isPrivate c;
     defaultBranch := defaultBranch c; files := files c;
     packageJson := j; configFile := configFile c |}.

Definition with_configFile (f : ConfigFile.t) (c : t) : t :=
  {| name := name c; fullName := fullName c; description := description c;
     language := language c; topics := topics c; isPrivate := isPrivate c;
     defaultBranch := defaultBranch c; files := files c;
     packageJson := packageJson c; configFile := Some f |}.
End Context.

(** One entry of the recursive tree listing. *)
Module TreeItem.
Record t := { path : string; type : string }.
End TreeItem.

(** The [data] of a [repos.getContent] answer: [content] is absent when
    the path is a directory, and may be the empty string. *)
Module ContentData.
Record t := { content : option string }.
End ContentData.

(** The [data] of a [repos.getReadme] answer. *)
Module ReadmeData.
Record t := { sha : string }.
End ReadmeData.

(** The values of the field-selection checkbox. *)
Inductive Field : Type := FDescription | FWebsite | FTopics | FReadme.

Definition Field_eqb (a b : Field) : bool :=
  match a, b with
  | FDescription, FDescription | FWebsite, FWebsite
  | FTopics, FTopics | FReadme, FReadme => true
  | _, _ => false
  end.

(** One line of the checkbox: its value and whether it is pre-checked. *)
Record Choice := { value : Field; checked : bool }.

(** The [generatedData] object: every field starts absent. *)
Module Generated.
Record t := {
  description : option string;
  website : option string;
  topics : option (list string);
  readme : option string
}.
Definition empty : t :=
  {| description := None; website := None; topics := None; readme := None |}.
End Generated.

(** The request of one chat completion.  The prompt is a fixed template
    filled from the context for the field asked for; it is carried here
    as that pair. *)
Record CompletionRequest := {
  model : string;
  max_tokens : nat;
  purpose : Field;
  prompt_context : Context.t
}.

(** The argument of [repos.update]. *)
Record UpdateRequest := {
  upd_owner : string;
  upd_repo : string;
  upd_description : option string;
  upd_homepage : option string
}.

(** The argument of [repos.createOrUpdateFileContents]. *)
Record PutRequest := {
  put_owner : string;
  put_repo : string;
  put_path : string;
  put_message : string;
  put_content : string;
  put_sha : option string
}.

(** The two yes/no questions. *)
Inductive Question : Type := AskRegenerate | AskApply.

(** What the program prints, one constructor per message. *)
Inductive Message : Type :=
| MsgAllPopulated
| MsgMissingFields (joined : string)
| MsgNoFieldsSelected
| MsgAnalyzing
| MsgContextWarning
| MsgGenerating (f : Field)
| MsgGeneratedDescription (d : string)
| MsgGeneratedWebsite (u : string)
| MsgGeneratedTopics (joined : string)
| MsgGeneratedReadme
| MsgSummaryHeader
| MsgSummaryDescription (d : string)
| MsgSummaryWebsite (u : string)
| MsgSummaryTopics (tags : string)
| MsgSummaryReadme (len : nat) (preview : list string)
| MsgCancelled
| MsgApplying
| MsgUpdatedMetadata
| MsgUpdatedTopics
| MsgReadmeWritten
| MsgReadmeError (m : string)
| MsgAllApplied
| MsgApplyError (m : string)
| MsgFatal (m : string).

(** Everything the program does that the outside can observe, in the
    order it does it. *)
Inductive Event : Type :=
| ConsoleLog (m : Message)
| ConsoleError (m : Message)
| GetReadme (owner repo : string)
| GetTree (owner repo tree_sha : string)
| GetContent (owner repo path : string)
| ReposUpdate (r : UpdateRequest)
| ReplaceAllTopics (owner repo : string) (names : list string)
| CreateOrUpdateFileContents (r : PutRequest)
| ChatCompletion (r : CompletionRequest)
| Confirm (q : Question)
| Checkbox (choices : list Choice).

(** The collaborators of one run: how the hosting platform, the
    text-generation service and the user answer each request, and the
    two platform functions used to decode fetched files. *)
Record World := {
  getReadme_inspect : response ReadmeData.t;
  getReadme_apply : response ReadmeData.t;
  getTree : response (list TreeItem.t);
  getContent : string -> response ContentData.t;
  repos_update : UpdateRequest -> response unit;
  replaceAllTopics : list string -> response unit;
  createOrUpdateFileContents : PutRequest -> response unit;
  completion : CompletionRequest -> response string;
  confirm : Question -> response bool;
  checkbox : list Choice -> response (list Field);
  fromBase64 : string -> string;
  JSON_parse : string -> response Json
}.

(* ================================================================= *)
(** ** Effects: a trace of events, exceptions and process exit *)

Inductive outcome (A : Type) : Type :=
| Returned (a : A)
| Thrown (e : JsError)
| Exited (code : nat).
Arguments Returned {A} a.
Arguments Thrown {A} e.
Arguments Exited {A} code.

Definition M (A : Type) : Type := (list Event * outcome A)%type.

Definition ret {A} (a : A) : M A := ([], Returned a).

Definition bind {A B} (m : M A) (k : A -> M B) : M B :=
  match m with
  | (t, Returned a) => let (t', r) := k a in (t ++ t', r)
  | (t, Thrown e) => (t, Thrown e)
  | (t, Exited c) => (t, Exited c)
  end.

Notation "x <- m ;; k" := (bind m (fun x => k))
  (at level 61, m at next level, right associativity).
Notation "m ;; k" := (bind m (fun _ => k))
  (at level 61, right associativity).

(** [console.log] and [console.error] *)
Definition log (m : Message) : M unit := ([ConsoleLog m], Returned tt).
Definition logError (m : Message) : M unit := ([ConsoleError m], Returned tt).

(** [await] of a request: the request is recorded, and a rejection is
    thrown. *)
Definition await {A} (e : Event) (r : response A) : M A :=
  ([e], match r with Resolved a => Returned a | Rejected err => Thrown err end).

Definition throw {A} (e : JsError) : M A := ([], Thrown e).

(** [process.exit(code)]: nothing after it runs, and no [catch] sees it. *)
Definition process_exit {A} (code : nat) : M A := ([], Exited code).

(** [try { m } catch (e) { h e }] *)
Definition try_catch {A} (m : M A) (h : JsError -> M A) : M A :=
  match m with
  | (t, Thrown e) => let (t', r) := h e in (t ++ t', r)
  | _ => m
  end.

Definition trace {A} (m : M A) : list Event := fst m.
Definition result {A} (m : M A) : outcome A := snd m.

(* ================================================================= *)
(** ** The program *)

Section Program.

Variable w : World.

(** [xs.includes(x)] on arrays of strings and of checkbox values *)
Definition includes (x : string) (xs : list string) : bool :=
  existsb (String.eqb x) xs.

Definition selected (f : Field) (fs : list Field) : bool :=
  existsb (Field_eqb f) fs.

(** [a || b] on an optional string: [a] when it is present and not the
    empty string, [b] otherwise. *)
Definition orElse (a : option string) (b : string) : string :=
  match a with
  | Some s => if truthy s then s else b
  | None => b
  end.

(** The truthiness test on an optional string, [if (x)]. *)
Definition present (a : option string) : bool :=
  match a with
  | Some s => truthy s
  | None => false
  end.

(** [if (x) { k x }] on an optional string. *)
Definition whenPresent (x : option string) (k : string -> M unit) : M unit :=
  match x with
  | Some s => if truthy s then k s else ret tt
  | None => ret tt
  end.

(** [error.status === n] *)
Definition hasStatus (n : nat) (error : JsError) : bool :=
  match status error with
  | Some m => (m =? n)%nat
  | None => false
  end.

(* ----------------------------------------------------------------- *)
(** *** getRepositoryContext *)

(** The object literal that [getRepositoryContext] starts from. *)
Definition seedContext (repo : Repo.t) : Context.t :=
  {| Context.name := Repo.name repo;
     Context.fullName := Repo.full_name repo;
     Context.description := orElse (Repo.description repo) "";
     Context.language := orElse (Repo.language repo) "Unknown";
     Context.topics := match Repo.topics repo with Some ts => ts | None => [] end;
     Context.isPrivate := Repo.private repo;
     Context.defaultBranch := Repo.default_branch repo;
     Context.files := [];
     Context.packageJson := JNull;
     Context.configFile := None |}.

Definition configFiles : list string :=
  ["Cargo.toml"; "pyproject.toml"; "setup.py"; "go.mod"; "pom.xml";
   "build.gradle"].

(** One turn of the [for] loop over [configFiles]: the [try] block gives
    the file to attach when the fetch resolves with a non-empty
    [content], and nothing otherwise; a rejected fetch is caught and
    gives nothing. *)
Definition probeConfigFile (repo : Repo.t) (configFile : string)
  : M (option ConfigFile.t) :=
  try_catch
    (config <- await (GetContent (Repo.owner_login repo) (Repo.name repo) configFile)
                     (getContent w configFile) ;;
     match ContentData.content config with
     | Some content =>
         if truthy content
         then ret (Some {| ConfigFile.name := configFile;
                           ConfigFile.content := fromBase64 w content |})
         else ret None
     | None => ret None
     end)
    (fun _ => ret None).

(** The [for] loop: [break] at the first file attached. *)
Fixpoint probeConfigFiles (repo : Repo.t) (names : list string)
  (context : Context.t) : M Context.t :=
  match names with
  | [] => ret context
  | configFile :: rest =>
      found <- probeConfigFile repo configFile ;;
      match found with
      | Some f => ret (Context.with_configFile f context)
      | None => probeConfigFiles repo rest context
      end
  end.

(** The inner [try] around the manifest: a rejected fetch and a failing
    [JSON.parse] are both caught and leave the context as it was. *)
Definition probePackageJson (repo : Repo.t) (context : Context.t)
  : M Context.t :=
  try_catch
    (packageJson <- await (GetContent (Repo.owner_login repo) (Repo.name repo)
                             "package.json")
                          (getContent w "package.json") ;;
     match ContentData.content packageJson with
     | Some content =>
         if truthy content
         then match JSON_parse w (fromBase64 w content) with
              | Resolved j => ret (Context.with_packageJson j context)
              | Rejected e => throw e
              end
         else ret context
     | None => ret context
     end)
    (fun _ => ret context).

Definition isBlob (item : TreeItem.t) : bool :=
  String.eqb (TreeItem.type item) "blob".

(** [getRepositoryContext(octokit, repo)].  The only statement of the
    outer [try] that can throw outside the inner [try] blocks is the
    tree fetch, which comes before the first assignment to [context]; so
    the handler sees the context as it was seeded. *)
Definition getRepositoryContext (repo : Repo.t) : M Context.t :=
  let context := seedContext repo in
  try_catch
    (tree <- await (GetTree (Repo.owner_login repo) (Repo.name repo)
                      (Repo.default_branch repo))
                   (getTree w) ;;
     let context :=
       Context.with_files
         (firstn 100 (map TreeItem.path (filter isBlob tree))) context in
     context <- probePackageJson repo context ;;
     probeConfigFiles repo configFiles context)
    (fun _ => log MsgContextWarning ;; ret context).

(* ----------------------------------------------------------------- *)
(** *** The four generators *)

Definition chat (f : Field) (tokens : nat) (context : Context.t) : M string :=
  let request := {| model := "gpt-4o-mini"; max_tokens := tokens;
                    purpose := f; prompt_context := context |} in
  await (ChatCompletion request) (completion w request).

Definition generateDescription (context : Context.t) : M string :=
  content <- chat FDescription 100 context ;;
  ret (descriptionOfText content).

Definition generateWebsite (context : Context.t) : M string :=
  content <- chat FWebsite 100 context ;;
  ret (websiteOfText content).

Definition generateTopics (context : Context.t) : M (list string) :=
  content <- chat FTopics 150 context ;;
  ret (topicsOfText content).

Definition generateReadme (context : Context.t) : M string :=
  content <- chat FReadme 2000 context ;;
  ret (readmeOfText content).

(* ----------------------------------------------------------------- *)
(** *** main, from the selected repository on *)

(** [!x || x.trim() === ""] *)
Definition blank (x : option string) : bool :=
  match x with
  | None => true
  | Some s => negb (truthy s) || String.eqb (trim s) ""
  end.

(** The three synchronous tests that fill [missing]. *)
Definition missingMetadata (selectedRepo : Repo.t) : list string :=
  let missing := [] in
  let missing :=
    if blank (Repo.description selectedRepo)
    then missing ++ ["description"] else missing in
  let missing :=
    if blank (Repo.homepage selectedRepo)
    then missing ++ ["website"] else missing in
  let missing :=
    match Repo.topics selectedRepo with
    | None => missing ++ ["topics"]
    | Some ts => if (List.length ts =? 0)%nat
                 then missing ++ ["topics"] else missing
    end in
  missing.

(** "Check what's missing": the value of [missing] and of [hasReadme]
    after the README existence check. *)
Definition checkMissing (selectedRepo : Repo.t) : M (list string * bool) :=
  let missing := missingMetadata selectedRepo in
  try_catch
    (await (GetReadme (Repo.owner_login selectedRepo) (Repo.name selectedRepo))
           (getReadme_inspect w) ;;
     ret (missing, true))
    (fun error =>
       if hasStatus 404 error
       then ret (missing ++ ["README.md"], false)
       else ret (missing, false)).

(** The [choices] of the checkbox. *)
Definition fieldChoices (missing : list string) : list Choice :=
  [ {| value := FDescription; checked := includes "description" missing |};
    {| value := FWebsite; checked := includes "website" missing |};
    {| value := FTopics; checked := includes "topics" missing |};
    {| value := FReadme; checked := includes "README.md" missing |} ].

(** The branch on [missing.length === 0], then the checkbox and the test
    for an empty selection.  Returns [fieldsToGenerate]. *)
Definition chooseFields (missing : list string) : M (list Field) :=
  (if (List.length missing =? 0)%nat
   then
     log MsgAllPopulated ;;
     continueAnyway <- await (Confirm AskRegenerate) (confirm w AskRegenerate) ;;
     if negb continueAnyway then process_exit 0 else ret tt
   else log (MsgMissingFields (join ", " missing))) ;;
  fieldsToGenerate <- await (Checkbox (fieldChoices missing))
                            (checkbox w (fieldChoices missing)) ;;
  if (List.length fieldsToGenerate =? 0)%nat
  then log MsgNoFieldsSelected ;; process_exit 0
  else ret fieldsToGenerate.

(** The four [if (fieldsToGenerate.includes(...))] blocks. *)
Definition generateFields (fieldsToGenerate : list Field)
  (repoContext : Context.t) : M Generated.t :=
  d <- (if selected FDescription fieldsToGenerate
        then log (MsgGenerating FDescription) ;;
             d <- generateDescription repoContext ;;
             log (MsgGeneratedDescription d) ;;
             ret (Some d)
        else ret None) ;;
  u <- (if selected FWebsite fieldsToGenerate
        then log (MsgGenerating FWebsite) ;;
             u <- generateWebsite repoContext ;;
             log (MsgGeneratedWebsite u) ;;
             ret (Some u)
        else ret None) ;;
  ts <- (if selected FTopics fieldsToGenerate
         then log (MsgGenerating FTopics) ;;
              ts <- generateTopics repoContext ;;
              log (MsgGeneratedTopics (join ", " ts)) ;;
              ret (Some ts)
         else ret None) ;;
  r <- (if selected FReadme fieldsToGenerate
        then log (MsgGenerating FReadme) ;;
             r <- generateReadme repoContext ;;
             log MsgGeneratedReadme ;;
             ret (Some r)
        else ret None) ;;
  ret {| Generated.description := d; Generated.website := u;
         Generated.topics := ts; Generated.readme := r |}.

(** The "Generated Metadata Summary". *)
Definition printSummary (generatedData : Generated.t) : M unit :=
  log MsgSummaryHeader ;;
  whenPresent (Generated.description generatedData)
    (fun d => log (MsgSummaryDescription d)) ;;
  whenPresent (Generated.website generatedData)
    (fun u => log (MsgSummaryWebsite u)) ;;
  (match Generated.topics generatedData with
   | Some ts =>
       log (MsgSummaryTopics (join "  " (map (fun t => "#" ++ t)%string ts)))
   | None => ret tt
   end) ;;
  whenPresent (Generated.readme generatedData)
    (fun readme =>
       log (MsgSummaryReadme (String.length readme)
              (firstn 8 (split "010"%char (substringTo 400 readme))))).

(** The README sub-step of the apply step, with its own [try]. *)
Definition applyReadme (selectedRepo : Repo.t) (readme : string) : M unit :=
  try_catch
    (existingReadme <-
       try_catch
         (data <- await (GetReadme (Repo.owner_login selectedRepo)
                           (Repo.name selectedRepo))
                        (getReadme_apply w) ;;
          ret (Some data))
         (fun _ => ret None) ;;
     (match existingReadme with
      | Some existing =>
          let request :=
            {| put_owner := Repo.owner_login selectedRepo;
               put_repo := Repo.name selectedRepo;
               put_path := "README.md";
               put_message := "Update README.md via metadata generator";
               put_content := Base64.ofString readme;
               put_sha := Some (ReadmeData.sha existing) |} in
          await (CreateOrUpdateFileContents request)
                (createOrUpdateFileContents w request)
      | None =>
          let request :=
            {| put_owner := Repo.owner_login selectedRepo;
               put_repo := Repo.name selectedRepo;
               put_path := "README.md";
               put_message := "Add README.md via metadata generator";
               put_content := Base64.ofString readme;
               put_sha := None |} in
          await (CreateOrUpdateFileContents request)
                (createOrUpdateFileContents w request)
      end) ;;
     log MsgReadmeWritten)
    (fun error => logError (MsgReadmeError (message error))).

(** [updateData]: a generated field enters it only when it is truthy. *)
Definition updateData (selectedRepo : Repo.t) (generatedData : Generated.t)
  : UpdateRequest :=
  {| upd_owner := Repo.owner_login selectedRepo;
     upd_repo := Repo.name selectedRepo;
     upd_description :=
       if present (Generated.description generatedData)
       then Generated.description generatedData else None;
     upd_homepage :=
       if present (Generated.website generatedData)
       then Generated.website generatedData else None |}.

(** "Update repository metadata (description, website)" *)
Definition applyMetadata (selectedRepo : Repo.t) (generatedData : Generated.t)
  : M unit :=
  if present (Generated.description generatedData)
     || present (Generated.website generatedData)
  then
    await (ReposUpdate (updateData selectedRepo generatedData))
          (repos_update w (updateData selectedRepo generatedData)) ;;
    log MsgUpdatedMetadata
  else ret tt.

(** "Update topics": an array is truthy even when it is empty. *)
Definition applyTopics (selectedRepo : Repo.t) (generatedData : Generated.t)
  : M unit :=
  match Generated.topics generatedData with
  | Some names =>
      await (ReplaceAllTopics (Repo.owner_login selectedRepo)
               (Repo.name selectedRepo) names)
            (replaceAllTopics w names) ;;
      log MsgUpdatedTopics
  | None => ret tt
  end.

(** The body of the outer [try] of the apply step. *)
Definition applyBody (selectedRepo : Repo.t) (generatedData : Generated.t)
  : M unit :=
  applyMetadata selectedRepo generatedData ;;
  applyTopics selectedRepo generatedData ;;
  whenPresent (Generated.readme generatedData) (applyReadme selectedRepo) ;;
  log MsgAllApplied.

(** The apply step: the outer [try] and its handler. *)
Definition applyStep (selectedRepo : Repo.t) (generatedData : Generated.t)
  : M unit :=
  try_catch
    (applyBody selectedRepo generatedData)
    (fun error =>
       logError (MsgApplyError (message error)) ;;
       process_exit 1).

(** Everything [main] does before the apply step; returns
    [generatedData] once the user has confirmed. *)
Definition prepare (selectedRepo : Repo.t) : M Generated.t :=
  checked <- checkMissing selectedRepo ;;
  let missing := fst checked in
  fieldsToGenerate <- chooseFields missing ;;
  log MsgAnalyzing ;;
  repoContext <- getRepositoryContext selectedRepo ;;
  generatedData <- generateFields fieldsToGenerate repoContext ;;
  printSummary generatedData ;;
  applyChanges <- await (Confirm AskApply) (confirm w AskApply) ;;
  if negb applyChanges
  then log MsgCancelled ;; process_exit 0
  else log MsgApplying ;; ret generatedData.

(** [main], from the line where [selectedRepo] is known. *)
Definition main (selectedRepo : Repo.t) : M unit :=
  generatedData <- prepare selectedRepo ;;
  applyStep selectedRepo generatedData.

(** [main().catch(...)]: an error that escapes [main] is printed and the
    process exits with status 1. *)
Definition run (selectedRepo : Repo.t) : M unit :=
  try_catch
    (main selectedRepo)
    (fun error => logError (MsgFatal (message error)) ;; process_exit 1).

End Program.

(** The exit status of the process: 0 when the program runs to its end,
    the argument of [process.exit] otherwise.  An uncaught error gives 1;
    [run] leaves none. *)
Definition exitStatus {A} (m : M A) : nat :=
  match result m with
  | Returned _ => 0
  | Exited code => code
  | Thrown _ => 1
  end.

(* ================================================================= *)
(** ** Observations on a trace *)

(** The fields for which a completion was requested, in order. *)
Fixpoint completions (t : list Event) : list Field :=
  match t with
  | [] => []
  | ChatCompletion r :: t' => purpose r :: completions t'
  | _ :: t' => completions t'
  end.

(** The paths fetched with [repos.getContent], in order. *)
Fixpoint contentPaths (t : list Event) : list string :=
  match t with
  | [] => []
  | GetContent _ _ path :: t' => path :: contentPaths t'
  | _ :: t' => contentPaths t'
  end.

(** The checkboxes shown, in order. *)
Fixpoint checkboxes (t : list Event) : list (list Choice) :=
  match t with
  | [] => []
  | Checkbox choices :: t' => choices :: checkboxes t'
  | _ :: t' => checkboxes t'
  end.

(** Requests that read the repository content, call the text-generation
    service or write to the hosting platform. *)
Definition isWork (e : Event) : bool :=
  match e with
  | GetTree _ _ _ | GetContent _ _ _ | ChatCompletion _
  | ReposUpdate _ | ReplaceAllTopics _ _ _ | CreateOrUpdateFileContents _ => true
  | _ => false
  end.

(** Requests that write to the hosting platform. *)
Definition isWrite (e : Event) : bool :=
  match e with
  | ReposUpdate _ | ReplaceAllTopics _ _ _ | CreateOrUpdateFileContents _ => true
  | _ => false
  end.

(** A config file is taken when its fetch resolves with a non-empty
    [content]. *)
Definition usable (w : World) (path : string) : bool :=
  match getContent w path with
  | Resolved d => present (ContentData.content d)
  | Rejected _ => false
  end.

(** The fetch of [path] resolves: the repository has the file. *)
Definition exposes (w : World) (path : string) : bool :=
  match getContent w path with
  | Resolved _ => true
  | Rejected _ => false
  end.

(** The names the scan fetches: up to and including the first usable. *)
Fixpoint probed (w : World) (names : list string) : list string :=
  match names with
  | [] => []
  | n :: rest => if usable w n then [n] else n :: probed w rest
  end.

(** The config file made from the answer for [path]. *)
Definition configFileOf (w : World) (path : string) : ConfigFile.t :=
  {| ConfigFile.name := path;
     ConfigFile.content :=
       fromBase64 w
         match getContent w path with
         | Resolved d => orElse (ContentData.content d) ""
         | Rejected _ => ""
         end |}.

(** The manifest kept from the answer for [package.json]. *)
Definition manifestOf (w : World) : Json :=
  match getContent w "package.json" with
  | Resolved d =>
      match ContentData.content d with
      | Some content =>
          if truthy content
          then match JSON_parse w (fromBase64 w content) with
               | Resolved j => j
               | Rejected _ => JNull
               end
          else JNull
      | None => JNull
      end
  | Rejected _ => JNull
  end.

(** The context after the manifest step: the parsed manifest is stored
    when the fetch resolves with a non-empty [content] that parses. *)
Definition withManifest (w : World) (context : Context.t) : Context.t :=
  match getContent w "package.json" with
  | Resolved d =>
      match ContentData.content d with
      | Some content =>
          if truthy content
          then match JSON_parse w (fromBase64 w content) with
               | Resolved j => Context.with_packageJson j context
               | Rejected _ => context
               end
          else context
      | None => context
      end
  | Rejected _ => context
  end.

(** What the builder returns when the tree fetch resolves with [tree]. *)
Definition gathered (w : World) (repo : Repo.t) (tree : list TreeItem.t)
  : Context.t :=
  {| Context.name := Repo.name repo;
     Context.fullName := Repo.full_name repo;
     Context.description := orElse (Repo.description repo) "";
     Context.language := orElse (Repo.language repo) "Unknown";
     Context.topics := match Repo.topics repo with Some ts => ts | None => [] end;
     Context.isPrivate := Repo.private repo;
     Context.defaultBranch := Repo.default_branch repo;
     Context.files := firstn 100 (map TreeItem.path (filter isBlob tree));
     Context.packageJson := manifestOf w;
     Context.configFile :=
       option_map (configFileOf w) (find (usable w) configFiles) |}.

(** [!selectedRepo.topics || selectedRepo.topics.length === 0] *)
Definition noTopics (repo : Repo.t) : bool :=
  match Repo.topics repo with
  | None => true
  | Some ts => (List.length ts =? 0)%nat
  end.

(** The README lookup of the gap detector fails with status 404. *)
Definition readmeNotFound (w : World) : bool :=
  match getReadme_inspect w with
  | Resolved _ => false
  | Rejected e => hasStatus 404 e
  end.

(** The request the README sub-step sends: an update carrying the hash
    of the README found by the fresh lookup, or a creation without hash
    when that lookup fails. *)
Definition readmeRequest (w : World) (repo : Repo.t) (readme : string)
  : PutRequest :=
  {| put_owner := Repo.owner_login repo;
     put_repo := Repo.name repo;
     put_path := "README.md";
     put_message :=
       match getReadme_apply w with
       | Resolved _ => "Update README.md via metadata generator"
       | Rejected _ => "Add README.md via metadata generator"
       end;
     put_content := Base64.ofString readme;
     put_sha :=
       match getReadme_apply w with
       | Resolved existing => Some (ReadmeData.sha existing)
       | Rejected _ => None
       end |}.

(** What is printed, and asked, between the gap detector and the
    checkbox. *)
Definition gateEvents (missing : list string) : list Event :=
  if (List.length missing =? 0)%nat
  then [ConsoleLog MsgAllPopulated; Confirm AskRegenerate]
  else [ConsoleLog (MsgMissingFields (join ", " missing))].

(** No completion is requested in the run of [m]. *)
Definition silent {A} (m : M A) : Prop := completions (trace m) = [].

(** The name under which a checkbox value is listed in [missing]. *)
Definition missingName (f : Field) : string :=
  match f with
  | FDescription => "description"
  | FWebsite => "website"
  | FTopics => "topics"
  | FReadme => "README.md"
  end.

Definition allFields : list Field := [FDescription; FWebsite; FTopics; FReadme].

(** The world [w] with another answer to the first README lookup. *)
Definition with_getReadme_inspect (r : response ReadmeData.t) (w : World)
  : World :=
  {| getReadme_inspect := r;
     getReadme_apply := getReadme_apply w;
     getTree := getTree w;
     getContent := getContent w;
     repos_update := repos_update w;
     replaceAllTopics := replaceAllTopics w;
     createOrUpdateFileContents := createOrUpdateFileContents w;
     completion := completion w;
     confirm := confirm w;
     checkbox := checkbox w;
     fromBase64 := fromBase64 w;
     JSON_parse := JSON_parse w |}.

(* ================================================================= *)
(** ** Example repositories and worlds *)

Module Examples.

Definition notFound : JsError :=
  {| status := Some 404; message := "Not Found" |}.
Definition unavailable : JsError :=
  {| status := Some 503; message := "Service Unavailable" |}.
Definition syntaxError : JsError :=
  {| status := None; message := "Unexpected token" |}.

(** Scenario A: nothing is set. *)
Definition bareRepo : Repo.t :=
  {| Repo.name := "demo"; Repo.full_name := "octo/demo";
     Repo.owner_login := "octo";
     Repo.description := None; Repo.homepage := None;
     Repo.language := None; Repo.topics := None;
     Repo.private := false; Repo.default_branch := "main" |}.

(** Scenario B: everything is set. *)
Definition fullRepo : Repo.t :=
  {| Repo.name := "demo"; Repo.full_name := "octo/demo";
     Repo.owner_login := "octo";
     Repo.description := Some "X"; Repo.homepage := Some "https://x.com";
     Repo.language := Some "Go"; Repo.topics := Some ["a"];
     Repo.private := false; Repo.default_branch := "main" |}.

Definition demoTree : list TreeItem.t :=
  [ {| TreeItem.path := "src"; TreeItem.type := "tree" |};
    {| TreeItem.path := "Cargo.toml"; TreeItem.type := "blob" |};
    {| TreeItem.path := "go.mod"; TreeItem.type := "blob" |};
    {| TreeItem.path := "pom.xml"; TreeItem.type := "blob" |} ].

(** A repository with an empty [Cargo.toml], a [go.mod] and a [pom.xml]
    with content, and no other recognized file. *)
Definition demoContent (path : string) : response ContentData.t :=
  if String.eqb path "Cargo.toml"
  then Resolved {| ContentData.content := Some "" |}
  else if String.eqb path "go.mod"
  then Resolved {| ContentData.content := Some "bW9kdWxlIGRlbW8=" |}
  else if String.eqb path "pom.xml"
  then Resolved {| ContentData.content := Some "PHByb2plY3QvPg==" |}
  else Rejected notFound.

Definition demoCompletion (r : CompletionRequest) : response string :=
  match purpose r with
  | FDescription => Resolved "  A demo repository.  "
  | FWebsite => Resolved "https://octo.github.io/demo"
  | FTopics => Resolved "Web App, react , Node.js!!, "
  | FReadme => Resolved "# demo"
  end.

(** A user who keeps the pre-checked boxes. *)
Definition keepChecked (choices : list Choice) : response (list Field) :=
  Resolved (map value (filter checked choices)).

(** A world in which every request succeeds, but for the two README
    lookups, the tree fetch and the three writes, which are given. *)
Definition world
  (inspect apply : response ReadmeData.t)
  (tree : response (list TreeItem.t))
  (update topics put : response unit)
  (selection : list Choice -> response (list Field)) : World :=
  {| getReadme_inspect := inspect;
     getReadme_apply := apply;
     getTree := tree;
     getContent := demoContent;
     repos_update := fun _ => update;
     replaceAllTopics := fun _ => topics;
     createOrUpdateFileContents := fun _ => put;
     completion := demoCompletion;
     confirm := fun _ => Resolved true;
     checkbox := selection;
     fromBase64 := fun s => s;
     JSON_parse := fun _ => Rejected syntaxError |}.

Definition ok : response unit := Resolved tt.
Definition existing : response ReadmeData.t :=
  Resolved {| ReadmeData.sha := "3f2a" |}.

(** No README yet, every request succeeds. *)
Definition fresh : World :=
  world (Rejected notFound) (Rejected notFound) (Resolved demoTree)
    ok ok ok keepChecked.

(** The tree fetch fails. *)
Definition noTree : World :=
  world (Rejected notFound) (Rejected notFound) (Rejected unavailable)
    ok ok ok keepChecked.

(** The README exists at apply time. *)
Definition withReadme : World :=
  world existing existing (Resolved demoTree) ok ok ok
    (fun _ => Resolved [FReadme]).

(** The metadata update fails. *)
Definition updateFails : World :=
  world (Rejected notFound) (Rejected notFound) (Resolved demoTree)
    (Rejected unavailable) ok ok keepChecked.

(** The topics replacement fails. *)
Definition topicsFail : World :=
  world (Rejected notFound) (Rejected notFound) (Resolved demoTree)
    ok (Rejected unavailable) ok keepChecked.

(** The README write fails. *)
Definition putFails : World :=
  world (Rejected notFound) (Rejected notFound) (Resolved demoTree)
    ok ok (Rejected unavailable) keepChecked.

(** The user unchecks everything. *)
Definition nothingSelected : World :=
  world (Rejected notFound) (Rejected notFound) (Resolved demoTree)
    ok ok ok (fun _ => Resolved []).

(** The user asks for topics only, on a repository that has them. *)
Definition topicsOnly : World :=
  world existing existing (Resolved demoTree) ok ok ok
    (fun _ => Resolved [FTopics]).

Definition generated : Generated.t :=
  {| Generated.description := Some "A demo repository.";
     Generated.website := Some "https://octo.github.io/demo";
     Generated.topics := Some ["web-app"; "react"; "node.js!!"];
     Generated.readme := Some "# demo" |}.

Definition readmeOnly : Generated.t :=
  {| Generated.description := None; Generated.website := None;
     Generated.topics := None; Generated.readme := Some "# demo" |}.

End Examples.

(* ================================================================= *)
(** ** Further observations on a run *)

(** No event of the run of [m] satisfies [p]. *)
Definition quiet {A} (p : Event -> bool) (m : M A) : Prop :=
  existsb p (trace m) = false.

(** The writes to the hosting platform in a trace, in order. *)
Definition writes (t : list Event) : list Event := filter isWrite t.

(** The run of [m] ends the process, if it does, with status 0 or 1. *)
Definition exitsCleanly {A} (m : M A) : Prop :=
  match result m with
  | Exited code => code <= 1
  | _ => True
  end.

(** What [prepare] does once the context is built: the generators, the
    summary and the apply question. *)
Definition afterContext (w : World) (fields : list Field)
  (context : Context.t) : M Generated.t :=
  generatedData <- generateFields w fields context ;;
  printSummary generatedData ;;
  applyChanges <- await (Confirm AskApply) (confirm w AskApply) ;;
  if negb applyChanges
  then log MsgCancelled ;; process_exit 0
  else log MsgApplying ;; ret generatedData.

(** The [max_tokens] of each generator. *)
Definition tokenBudget (f : Field) : nat :=
  match f with
  | FDescription => 100
  | FWebsite => 100
  | FTopics => 150
  | FReadme => 2000
  end.

(** The generated data when the service answers every request with
    white space only. *)
Definition blankData (fields : list Field) : Generated.t :=
  {| Generated.description :=
       if selected FDescription fields then Some "" else None;
     Generated.website := if selected FWebsite fields then Some "" else None;
     Generated.topics := if selected FTopics fields then Some [] else None;
     Generated.readme := if selected FReadme fields then Some "" else None |}.

(** The first and the last code unit of a string. *)
Definition firstChar (s : string) : option ascii :=
  match s with
  | EmptyString => None
  | String c _ => Some c
  end.

Fixpoint lastChar (s : string) : option ascii :=
  match s with
  | EmptyString => None
  | String c EmptyString => Some c
  | String _ r => lastChar r
  end.

(** [s] does not contain the code unit [x]. *)
Definition lacks (x : ascii) (s : string) : bool :=
  all (fun c => negb (Ascii.eqb c x)) s.

(** The number of code units of a list of strings. *)
Fixpoint totalLength (xs : list string) : nat :=
  match xs with
  | [] => 0
  | x :: rest => String.length x + totalLength rest
  end.

(** Worlds for the scenarios below: as [Examples.world], with the
    service and the answers to the two questions given as well. *)
Module Scenarios.

Definition world
  (inspect : response ReadmeData.t)
  (service : CompletionRequest -> response string)
  (answers : Question -> response bool)
  (selection : list Choice -> response (list Field)) : World :=
  {| getReadme_inspect := inspect;
     getReadme_apply := inspect;
     getTree := Resolved Examples.demoTree;
     getContent := Examples.demoContent;
     repos_update := fun _ => Resolved tt;
     replaceAllTopics := fun _ => Resolved tt;
     createOrUpdateFileContents := fun _ => Resolved tt;
     completion := service;
     confirm := answers;
     checkbox := selection;
     fromBase64 := fun s => s;
     JSON_parse := fun _ => Rejected Examples.syntaxError |}.

Definition yes : Question -> response bool := fun _ => Resolved true.

(** The user agrees to regenerate and refuses to apply. *)
Definition refuseApply (q : Question) : response bool :=
  match q with
  | AskRegenerate => Resolved true
  | AskApply => Resolved false
  end.

(** A repository whose description and homepage are white space only,
    with an empty list of topics. *)
Definition blankRepo : Repo.t :=
  {| Repo.name := "demo"; Repo.full_name := "octo/demo";
     Repo.owner_login := "octo";
     Repo.description := Some "   ";
     Repo.homepage := Some (String "009" " ");
     Repo.language := Some "Go"; Repo.topics := Some [];
     Repo.private := false; Repo.default_branch := "main" |}.

(** The service is down. *)
Definition serviceDown : World :=
  world (Rejected Examples.notFound) (fun _ => Rejected Examples.unavailable)
    yes Examples.keepChecked.

(** The service answers with white space only. *)
Definition blankService (fields : list Field) : World :=
  world (Rejected Examples.notFound) (fun _ => Resolved "  ")
    yes (fun _ => Resolved fields).

(** Everything works and the user refuses to apply. *)
Definition cancelled : World :=
  world (Rejected Examples.notFound) Examples.demoCompletion
    refuseApply Examples.keepChecked.

End Scenarios.

(* ================================================================= *)
(** ** The listing: numbers, dates, search *)

(** One repository of the listing, with the fields the table shows
    beside those of [Repo.t]; [pushed_at] is the push date in
    milliseconds since the epoch. *)
Module Listing.
Record t := {
  repo : Repo.t;
  stargazers_count : Z;
  forks_count : Z;
  pushed_at : Z
}.
End Listing.

Module Number.

Definition digitChar (d : Z) : ascii := ascii_of_nat (48 + Z.to_nat d).

(** The decimal digits of [n >= 0], most significant first; [fuel]
    bounds the number of digits. *)
Fixpoint digits (fuel : nat) (n : Z) : string :=
  match fuel with
  | O => EmptyString
  | S fuel' =>
      if (n <? 10)%Z then String (digitChar n) EmptyString
      else (digits fuel' (n / 10) ++ String (digitChar (n mod 10)) EmptyString)%string
  end.

(** A number has no more decimal digits than binary ones. *)
Definition enough (n : Z) : nat := S (Z.to_nat (Z.log2 n)).

(** [String(n)] and [`${n}`] for an integer [n]. *)
Definition toString (n : Z) : string :=
  if (n <? 0)%Z then String "-" (digits (enough (- n)) (- n))
  else digits (enough n) n.

(** The number a string of decimal digits stands for. *)
Fixpoint valueFrom (acc : Z) (s : string) : Z :=
  match s with
  | EmptyString => acc
  | String c r => valueFrom (10 * acc + (Z.of_nat (nat_of_ascii c) - 48)) r
  end.

End Number.

(** [formatRelativeTime(dateString)], for a date [date] read at time
    [now], both in milliseconds since the epoch. *)
Definition formatRelativeTime (now date : Z) : string :=
  let diffMs := (now - date)%Z in
  let diffDays := (diffMs / (1000 * 60 * 60 * 24))%Z in
  if (diffDays =? 0)%Z then "today"
  else if (diffDays =? 1)%Z then "yesterday"
  else if (diffDays <? 7)%Z then (Number.toString diffDays ++ "d ago")%string
  else if (diffDays <? 30)%Z
  then (Number.toString (diffDays / 7) ++ "w ago")%string
  else if (diffDays <? 365)%Z
  then (Number.toString (diffDays / 30) ++ "mo ago")%string
  else (Number.toString (diffDays / 365) ++ "y ago")%string.

(** [haystack.startsWith(needle)] *)
Fixpoint startsWith (needle haystack : string) : bool :=
  match needle, haystack with
  | EmptyString, _ => true
  | String _ _, EmptyString => false
  | String a n, String b h => Ascii.eqb a b && startsWith n h
  end.

(** [haystack.includes(needle)] *)
Fixpoint includesText (needle haystack : string) : bool :=
  match haystack with
  | EmptyString => startsWith needle EmptyString
  | String _ h => startsWith needle haystack || includesText needle h
  end.

(** The [source] of the search prompt: the repositories offered for what
    the user has typed so far ([input] is absent before the first key).
    Each is offered under the label [formatRepoChoice] makes for it. *)
Definition searchSource (allRepos : list Repo.t) (input : option string)
  : list Repo.t :=
  let searchTerm := toLowerCase (orElse input "") in
  let filtered :=
    filter
      (fun repo =>
         if negb (truthy searchTerm) then true
         else includesText searchTerm (toLowerCase (Repo.name repo))
              || includesText searchTerm
                   (toLowerCase (orElse (Repo.language repo) ""))
              || includesText searchTerm
                   (toLowerCase (orElse (Repo.description repo) "")))
      allRepos in
  filtered.

(* ================================================================= *)
(** ** The start of [main]: secrets, identity, listing *)

Module Startup.

Inductive Secret : Type := GitHubToken | OpenAIKey.

Inductive Notice : Type :=
| Banner
| SecretLoaded (s : Secret)
| Fetching
| InvalidToken
| NoRepositories
| Found (n : nat).

Inductive Event : Type :=
| Print (n : Notice)
| PrintError (n : Notice)
| Password (s : Secret)
| GetAuthenticated (token : string)
| ListForAuthenticatedUser (token : string) (per_page page : nat).

(** The environment and the collaborators of the start of a run. *)
Record Session := {
  GITHUB_TOKEN : option string;
  OPENAI_API_KEY : option string;
  password : Secret -> response string;
  getAuthenticated : string -> response unit;
  listForAuthenticatedUser : string -> nat -> response (list Listing.t)
}.

Definition Run (A : Type) : Type := (list Event * outcome A)%type.

Definition andThen {A B} (m : Run A) (k : A -> Run B) : Run B :=
  match m with
  | (t, Returned a) => let (t', r) := k a in (t ++ t', r)
  | (t, Thrown e) => (t, Thrown e)
  | (t, Exited c) => (t, Exited c)
  end.

(** A secret is taken from the environment when it is set and not empty,
    and asked for otherwise. *)
Definition secret (s : Session) (which : Secret) (env : option string)
  : Run string :=
  if present env
  then ([Print (SecretLoaded which)], Returned (orElse env ""))
  else ([Password which],
        match password s which with
        | Resolved v => Returned v
        | Rejected e => Thrown e
        end).

(** The two secrets, in the order the program obtains them. *)
Definition secrets (s : Session) : Run (string * string) :=
  andThen (secret s GitHubToken (GITHUB_TOKEN s)) (fun githubToken =>
  andThen (secret s OpenAIKey (OPENAI_API_KEY s)) (fun openaiApiKey =>
  ([], Returned (githubToken, openaiApiKey)))).

(** The [while (true)] loop over the pages.  [fuel] bounds the number of
    turns; [None] stands for a loop that has not ended within it. *)
Fixpoint fetchPages (s : Session) (token : string) (fuel : nat)
  (page : nat) (allRepos : list Listing.t)
  : option (Run (list Listing.t)) :=
  match fuel with
  | O => None
  | S fuel' =>
      let request := ListForAuthenticatedUser token 100 page in
      match listForAuthenticatedUser s token page with
      | Rejected e => Some ([request], Thrown e)
      | Resolved repos =>
          if (List.length repos =? 0)%nat
          then Some ([request], Returned allRepos)
          else match fetchPages s token fuel' (S page) (allRepos ++ repos) with
               | Some (t, r) => Some (request :: t, r)
               | None => None
               end
      end
  end.

(** An answer that ends the loop: a rejected request, which is thrown out
    of it, or an empty page. *)
Definition ends (r : response (list Listing.t)) : bool :=
  match r with
  | Resolved (_ :: _) => false
  | _ => true
  end.

(** [main] up to "Found n repositories": returns the OpenAI key and the
    listing. *)
Definition start (s : Session) (fuel : nat)
  : option (Run (string * list Listing.t)) :=
  match secret s GitHubToken (GITHUB_TOKEN s) with
  | (t1, Returned githubToken) =>
      match secret s OpenAIKey (OPENAI_API_KEY s) with
      | (t2, Returned openaiApiKey) =>
          let head := Print Banner :: t1 ++ t2
                      ++ [Print Fetching; GetAuthenticated githubToken] in
          match getAuthenticated s githubToken with
          | Rejected _ => Some (head ++ [PrintError InvalidToken], Exited 1)
          | Resolved _ =>
              match fetchPages s githubToken fuel 1 [] with
              | None => None
              | Some (t3, Returned allRepos) =>
                  if (List.length allRepos =? 0)%nat
                  then Some (head ++ t3 ++ [Print NoRepositories], Exited 0)
                  else Some (head ++ t3 ++ [Print (Found (List.length allRepos))],
                             Returned (openaiApiKey, allRepos))
              | Some (t3, Thrown e) => Some (head ++ t3, Thrown e)
              | Some (t3, Exited c) => Some (head ++ t3, Exited c)
              end
          end
      | (t2, Thrown e) => Some (Print Banner :: t1 ++ t2, Thrown e)
      | (t2, Exited c) => Some (Print Banner :: t1 ++ t2, Exited c)
      end
  | (t1, Thrown e) => Some (Print Banner :: t1, Thrown e)
  | (t1, Exited c) => Some (Print Banner :: t1, Exited c)
  end.

(** The pages requested by a run, in order. *)
Fixpoint pagesRequested (t : list Event) : list nat :=
  match t with
  | [] => []
  | ListForAuthenticatedUser _ _ page :: t' => page :: pagesRequested t'
  | _ :: t' => pagesRequested t'
  end.

(** The secrets asked of the user, in order. *)
Fixpoint asked (t : list Event) : list Secret :=
  match t with
  | [] => []
  | Password which :: t' => which :: asked t'
  | _ :: t' => asked t'
  end.

(** Example sessions. *)
Definition someListing (name : string) : Listing.t :=
  {| Listing.repo :=
       {| Repo.name := name; Repo.full_name := "octo/" ++ name;
          Repo.owner_login := "octo";
          Repo.description := None; Repo.homepage := None;
          Repo.language := None; Repo.topics := None;
          Repo.private := false; Repo.default_branch := "main" |};
     Listing.stargazers_count := 3;
     Listing.forks_count := 0;
     Listing.pushed_at := 0 |}.

(** Two pages of repositories, then empty pages. *)
Definition twoPages (page : nat) : response (list Listing.t) :=
  match page with
  | 1 => Resolved [someListing "a"; someListing "b"]
  | 2 => Resolved [someListing "c"]
  | _ => Resolved []
  end.

Definition session (env : option string) (identity : response unit)
  (pages : nat -> response (list Listing.t)) : Session :=
  {| GITHUB_TOKEN := env;
     OPENAI_API_KEY := Some "sk-demo";
     password := fun _ => Resolved "typed";
     getAuthenticated := fun _ => identity;
     listForAuthenticatedUser := fun _ => pages |}.

End Startup.

(* ================================================================= *)
(** ** The table of repositories *)

Module Table.

Fixpoint spaces (n : nat) : string :=
  match n with
  | O => EmptyString
  | S n' => String " " (spaces n')
  end.

(** [s.padEnd(n)] *)
Definition padEnd (n : nat) (s : string) : string :=
  (s ++ spaces (n - String.length s))%string.

(** [Math.min(30, Math.max(...allRepos.map(r => r.name.length)))]; the
    listing is not empty where the program computes it. *)
Definition maxNameLen (allRepos : list Listing.t) : nat :=
  Nat.min 30
    (list_max (map (fun r => String.length (Repo.name (Listing.repo r)))
                 allRepos)).

Definition maxLangLen (allRepos : list Listing.t) : nat :=
  Nat.min 15
    (list_max
       (map (fun r =>
               String.length (orElse (Repo.language (Listing.repo r)) "--"))
          allRepos)).

(** The [cols] object. *)
Record Columns := {
  name : nat;
  lang : nat;
  stars : nat;
  forks : nat;
  updated : nat;
  visibility : nat;
  desc : nat
}.

Definition cols (allRepos : list Listing.t) : Columns :=
  {| name := maxNameLen allRepos + 2;
     lang := maxLangLen allRepos + 2;
     stars := 7;
     forks := 7;
     updated := 12;
     visibility := 10;
     desc := 30 |}.

(** [Object.values(cols)] *)
Definition widths (c : Columns) : list nat :=
  [name c; lang c; stars c; forks c; updated c; visibility c; desc c].

Definition totalWidth (c : Columns) : nat :=
  list_sum (widths c) + List.length (widths c) + 1.

(** The seven cells of the row of one repository, uncoloured, as they
    stand between the vertical bars of the line printed. *)
Definition nameCell (c : Columns) (r : Listing.t) : string :=
  padEnd (name c) (substringTo (name c - 1) (Repo.name (Listing.repo r))).

Definition languageCell (c : Columns) (r : Listing.t) : string :=
  if present (Repo.language (Listing.repo r))
  then padEnd (lang c) (orElse (Repo.language (Listing.repo r)) "")
  else padEnd (lang c) "--".

Definition starsCell (c : Columns) (r : Listing.t) : string :=
  padEnd (stars c) (Number.toString (Listing.stargazers_count r)).

Definition forksCell (c : Columns) (r : Listing.t) : string :=
  padEnd (forks c) (Number.toString (Listing.forks_count r)).

Definition updatedCell (now : Z) (c : Columns) (r : Listing.t) : string :=
  padEnd (updated c) (formatRelativeTime now (Listing.pushed_at r)).

Definition visibilityCell (c : Columns) (r : Listing.t) : string :=
  if Repo.private (Listing.repo r)
  then padEnd (visibility c) "private"
  else padEnd (visibility c) "public".

Definition descText (c : Columns) (r : Listing.t) : string :=
  match Repo.description (Listing.repo r) with
  | Some description =>
      if truthy description
      then (substringTo (desc c - 3) description
            ++ (if (desc c - 3 <? String.length description)%nat
                then "..." else ""))%string
      else "No description"
  | None => "No description"
  end.

Definition descCell (c : Columns) (r : Listing.t) : string :=
  padEnd (desc c) (descText c r).

Definition rowCells (now : Z) (c : Columns) (r : Listing.t) : list string :=
  [nameCell c r; languageCell c r; starsCell c r; forksCell c r;
   updatedCell now c r; visibilityCell c r; descCell c r].

(** The width of a border line: a corner, the columns drawn with
    horizontal bars and joined by tees, a corner. *)
Definition borderWidth (c : Columns) : nat :=
  1 + (list_sum (widths c) + (List.length (widths c) - 1)) + 1.

(** The width of a printed row: its cells and the eight vertical bars. *)
Definition rowWidth (cells : list string) : nat :=
  totalLength cells + List.length cells + 1.

(** The rows of the table: [repos.slice(0, 15)]. *)
Definition rows (now : Z) (allRepos : list Listing.t) : list (list string) :=
  map (rowCells now (cols allRepos)) (firstn 15 allRepos).

End Table.

(* ================================================================= *)
(** ** Facts about strings *)

Section StringFacts.

Lemma is_space_hyphen : is_space "-" = false.
Proof. reflexivity. Qed.

Lemma toLowerChar_idempotent (c : ascii) :
  toLowerChar (toLowerChar c) = toLowerChar c.
Proof. destruct c as [[] [] [] [] [] [] [] []]; reflexivity. Qed.

Lemma trimEnd_cons (c : ascii) (r : string) :
  is_space c = false \/ trimEnd r <> "" ->
  trimEnd (String c r) = String c (trimEnd r).
Proof.
  intros H. simpl. destruct (trimEnd r) eqn:E.
  - destruct H as [H | H]; [now rewrite H | congruence].
  - reflexivity.
Qed.

Lemma trimEnd_cons_blank (c : ascii) (r : string) :
  is_space c = true -> trimEnd r = "" -> trimEnd (String c r) = "".
Proof. intros Hc Hr. simpl. now rewrite Hr, Hc. Qed.

(** [trimEnd (String c r)] is decided by [c] and [trimEnd r] alone. *)
Lemma trimEnd_cons_ext (c : ascii) (r r' : string) :
  trimEnd r = trimEnd r' -> trimEnd (String c r) = trimEnd (String c r').
Proof. intros H. simpl. now rewrite H. Qed.

Lemma trimStart_head (c : ascii) (r : string) :
  is_space c = false -> trimStart (String c r) = String c r.
Proof. intros H. simpl. now rewrite H. Qed.

(** Leading and trailing white space can be removed in either order. *)
Lemma trim_commutes (s : string) : trimEnd (trimStart s) = trimStart (trimEnd s).
Proof.
  induction s as [| c r IH]; [reflexivity |].
  destruct (is_space c) eqn:Hc.
  - change (trimStart (String c r)) with
      (if is_space c then trimStart r else String c r).
    rewrite Hc, IH. destruct (trimEnd r) eqn:Hr.
    + now rewrite (trimEnd_cons_blank c r Hc Hr).
    + rewrite trimEnd_cons by (right; congruence).
      rewrite Hr. simpl. now rewrite Hc.
  - rewrite (trimStart_head c r Hc).
    rewrite trimEnd_cons by now left.
    now rewrite trimStart_head.
Qed.

Lemma split_not_nil (sep : ascii) (s : string) : split sep s <> [].
Proof.
  destruct s as [| c r]; simpl; [discriminate |].
  destruct (Ascii.eqb c sep); [discriminate |].
  destruct (split sep r); discriminate.
Qed.

Lemma space_is_not_separator (sep c : ascii) :
  is_space sep = false -> is_space c = true -> Ascii.eqb c sep = false.
Proof.
  intros Hs Hc. destruct (Ascii.eqb c sep) eqn:E; [| reflexivity].
  apply Ascii.eqb_eq in E. congruence.
Qed.

(** Trimming the start of the whole text changes the first piece only,
    and only by white space that trimming the piece removes anyway. *)
Lemma split_trimStart (sep : ascii) (s : string) :
  is_space sep = false ->
  map trimStart (split sep (trimStart s)) = map trimStart (split sep s).
Proof.
  intros Hsep. induction s as [| c r IH]; [reflexivity |].
  simpl trimStart. destruct (is_space c) eqn:Hc; [| reflexivity].
  rewrite IH. simpl split. rewrite (space_is_not_separator sep c Hsep Hc).
  destruct (split sep r) as [| p ps] eqn:E.
  - now apply split_not_nil in E.
  - simpl. now rewrite Hc.
Qed.

Lemma split_cons (sep c : ascii) (r : string) :
  split sep (String c r) =
  if Ascii.eqb c sep then EmptyString :: split sep r
  else match split sep r with
       | [] => [String c EmptyString]
       | p :: ps => String c p :: ps
       end.
Proof. reflexivity. Qed.

Lemma trimEnd_cases (c : ascii) (r : string) :
  (is_space c = true /\ trimEnd r = "")
  \/ trimEnd (String c r) = String c (trimEnd r).
Proof.
  destruct (is_space c) eqn:Hc.
  - destruct (trimEnd r) eqn:Hr; [now left | right].
    rewrite trimEnd_cons by (right; congruence). now rewrite Hr.
  - right. apply trimEnd_cons. now left.
Qed.

(** The same at the end of the text. *)
Lemma split_trimEnd (sep : ascii) (s : string) :
  is_space sep = false ->
  map trimEnd (split sep (trimEnd s)) = map trimEnd (split sep s).
Proof.
  intros Hsep. induction s as [| c r IH]; [reflexivity |].
  destruct (trimEnd_cases c r) as [[Hc Hr] | Hcons].
  - (* the rest of the text is blank: it is one blank piece *)
    rewrite (trimEnd_cons_blank c r Hc Hr), Hr in *.
    rewrite split_cons, (space_is_not_separator sep c Hsep Hc).
    destruct (split sep r) as [| p ps] eqn:E; [now apply split_not_nil in E |].
    cbn [split map] in IH. injection IH as Hp Hps.
    destruct ps; [| discriminate].
    cbn [split map]. f_equal. symmetry. now apply trimEnd_cons_blank.
  - rewrite Hcons, (split_cons sep c (trimEnd r)), (split_cons sep c r).
    destruct (Ascii.eqb c sep).
    + cbn [map]. f_equal. exact IH.
    + destruct (split sep (trimEnd r)) as [| p' ps'] eqn:E';
        [now apply split_not_nil in E' |].
      destruct (split sep r) as [| p ps] eqn:E; [now apply split_not_nil in E |].
      cbn [map] in IH. injection IH as Hp Hps.
      cbn [map]. rewrite Hps. f_equal. now apply trimEnd_cons_ext.
Qed.

(** Trimming the text before splitting it does not change the trimmed
    pieces. *)
Lemma split_trim (sep : ascii) (s : string) :
  is_space sep = false ->
  map trim (split sep (trim s)) = map trim (split sep s).
Proof.
  intros Hsep.
  assert (Hse : forall l, map trim l = map trimStart (map trimEnd l)).
  { intros l. rewrite map_map. apply map_ext. intros x. apply trim_commutes. }
  assert (Hes : forall l, map trim l = map trimEnd (map trimStart l)).
  { intros l. rewrite map_map. reflexivity. }
  rewrite Hse. unfold trim at 1. rewrite split_trimEnd by assumption.
  rewrite <- Hse, Hes. rewrite split_trimStart by assumption.
  now rewrite <- Hes.
Qed.

Lemma all_toLowerCase (s : string) : is_lowercase (toLowerCase s) = true.
Proof.
  induction s as [| c r IH]; [reflexivity |].
  unfold is_lowercase in *. cbn [toLowerCase all].
  now rewrite IH, toLowerChar_idempotent, Ascii.eqb_refl.
Qed.

Lemma replaceSpaceRuns_no_space (b : bool) (s : string) :
  no_space (replaceSpaceRuns b s) = true.
Proof.
  unfold no_space. revert b.
  induction s as [| c r IH]; intros b; [reflexivity |].
  cbn [replaceSpaceRuns]. destruct (is_space c) eqn:Hc.
  - destruct b; [apply IH |]. cbn [all]. rewrite is_space_hyphen. apply IH.
  - cbn [all]. rewrite Hc. apply IH.
Qed.

Lemma replaceSpaceRuns_lowercase (b : bool) (s : string) :
  is_lowercase s = true -> is_lowercase (replaceSpaceRuns b s) = true.
Proof.
  unfold is_lowercase. revert b.
  induction s as [| c r IH]; intros b H; [reflexivity |].
  cbn [all] in H. apply andb_true_iff in H as [Hc Hr].
  cbn [replaceSpaceRuns]. destruct (is_space c).
  - destruct b; [now apply IH |]. cbn [all]. now rewrite IH.
  - cbn [all]. rewrite Hc. now apply IH.
Qed.

(** A string without white space is left alone by [trim] and by the
    replacement of white-space runs. *)
Lemma trimStart_no_space (s : string) : no_space s = true -> trimStart s = s.
Proof.
  unfold no_space. destruct s as [| c r]; [reflexivity |].
  cbn [all trimStart]. intros H. apply andb_true_iff in H as [Hc _].
  now apply negb_true_iff in Hc as ->.
Qed.

Lemma trimEnd_no_space (s : string) : no_space s = true -> trimEnd s = s.
Proof.
  unfold no_space. induction s as [| c r IH]; [reflexivity |].
  intros H. cbn [all] in H. apply andb_true_iff in H as [Hc Hr].
  apply negb_true_iff in Hc.
  rewrite trimEnd_cons by now left. now rewrite IH.
Qed.

Lemma replaceSpaceRuns_no_space_id (s : string) :
  no_space s = true -> replaceSpaceRuns false s = s.
Proof.
  unfold no_space. induction s as [| c r IH]; [reflexivity |].
  intros H. cbn [all] in H. apply andb_true_iff in H as [Hc Hr].
  apply negb_true_iff in Hc. cbn [replaceSpaceRuns]. rewrite Hc.
  now rewrite IH.
Qed.

Lemma toLowerCase_lowercase_id (s : string) :
  is_lowercase s = true -> toLowerCase s = s.
Proof.
  unfold is_lowercase. induction s as [| c r IH]; [reflexivity |].
  intros H. cbn [all] in H. apply andb_true_iff in H as [Hc Hr].
  apply Ascii.eqb_eq in Hc. cbn [toLowerCase]. now rewrite Hc, IH.
Qed.

Lemma normalizeTopic_no_space (t : string) : no_space (normalizeTopic t) = true.
Proof. apply replaceSpaceRuns_no_space. Qed.

Lemma normalizeTopic_lowercase (t : string) :
  is_lowercase (normalizeTopic t) = true.
Proof. apply replaceSpaceRuns_lowercase, all_toLowerCase. Qed.

Lemma normalizeTopic_fixes (t : string) :
  no_space t = true -> is_lowercase t = true -> normalizeTopic t = t.
Proof.
  intros Hs Hl. unfold normalizeTopic, trim.
  rewrite (trimStart_no_space t Hs), (trimEnd_no_space t Hs).
  rewrite (toLowerCase_lowercase_id t Hl).
  now apply replaceSpaceRuns_no_space_id.
Qed.

Lemma substring_0_length (n : nat) (s : string) :
  String.length (substring 0 n s) = Nat.min n (String.length s).
Proof.
  revert s. induction n as [| n IH]; intros s.
  - now destruct s.
  - destruct s as [| c r]; [reflexivity |]. simpl. now rewrite IH.
Qed.

Lemma substring_0_prefix (n : nat) (s : string) :
  String.prefix (substring 0 n s) s = true.
Proof.
  revert s. induction n as [| n IH]; intros s.
  - now destruct s.
  - destruct s as [| c r]; [reflexivity |]. simpl.
    destruct (ascii_dec c c); [apply IH | congruence].
Qed.


End StringFacts.

(* ================================================================= *)
(** ** The generators *)

Section Generators.

Lemma In_firstn {A} (n : nat) (l : list A) (x : A) :
  In x (firstn n l) -> In x l.
Proof.
  revert l. induction n as [| n IH]; intros [| y l]; simpl; try tauto.
  intros [-> | H]; [now left | right; now apply IH].
Qed.

Lemma topicsOfText_refines (content : string) :
  topicsOfText content = topicsOfText_spec content.
Proof.
  unfold topicsOfText, topicsOfText_spec.
  assert (H : forall l,
             map normalizeTopic l =
             map (fun u => replaceSpaceRuns false (toLowerCase u)) (map trim l)).
  { intros l. now rewrite map_map. }
  now rewrite !H, split_trim.
Qed.



End Generators.


(* ================================================================= *)
(** ** Laws of the effects *)

Section Effects.

Context {A B : Type}.

Lemma bind_returned (m : M A) (k : A -> M B) (t : list Event) (a : A) :
  m = (t, Returned a) -> bind m k = (t ++ trace (k a), result (k a)).
Proof. intros ->. unfold bind, trace, result. now destruct (k a). Qed.

Lemma bind_thrown (m : M A) (k : A -> M B) (t : list Event) (e : JsError) :
  m = (t, Thrown e) -> bind m k = (t, Thrown e).
Proof. now intros ->. Qed.

Lemma bind_exited (m : M A) (k : A -> M B) (t : list Event) (c : nat) :
  m = (t, Exited c) -> bind m k = (t, Exited c).
Proof. now intros ->. Qed.

Lemma try_catch_returned (m : M A) (h : JsError -> M A) t a :
  m = (t, Returned a) -> try_catch m h = (t, Returned a).
Proof. now intros ->. Qed.

Lemma try_catch_exited (m : M A) (h : JsError -> M A) t c :
  m = (t, Exited c) -> try_catch m h = (t, Exited c).
Proof. now intros ->. Qed.

Lemma try_catch_thrown (m : M A) (h : JsError -> M A) t e :
  m = (t, Thrown e) -> try_catch m h = (t ++ trace (h e), result (h e)).
Proof. intros ->. unfold try_catch, trace, result. now destruct (h e). Qed.

Lemma surjective_run (m : M A) : m = (trace m, result m).
Proof. now destruct m. Qed.

End Effects.

(* ================================================================= *)
(** ** The context builder *)

Section ContextBuilder.

Variable w : World.
Variable repo : Repo.t.

Let fetch (path : string) : Event :=
  GetContent (Repo.owner_login repo) (Repo.name repo) path.

Lemma probeConfigFile_eq (path : string) :
  probeConfigFile w repo path =
    ([fetch path],
     Returned (if usable w path then Some (configFileOf w path) else None)).
Proof.
  unfold probeConfigFile, usable, configFileOf, await, bind, try_catch, ret, fetch.
  destruct (getContent w path) as [[[content |]] | e]; cbn; try reflexivity.
  now destruct content.
Qed.

Lemma probeConfigFiles_eq (names : list string) (context : Context.t) :
  probeConfigFiles w repo names context =
    (map fetch (probed w names),
     Returned match find (usable w) names with
              | Some path => Context.with_configFile (configFileOf w path) context
              | None => context
              end).
Proof.
  induction names as [| path rest IH]; [reflexivity |].
  cbn [probeConfigFiles probed find].
  rewrite (bind_returned _ _ _ _ (probeConfigFile_eq path)).
  destruct (usable w path); [reflexivity |].
  rewrite IH. reflexivity.
Qed.

Lemma probePackageJson_eq (context : Context.t) :
  probePackageJson w repo context =
    ([fetch "package.json"], Returned (withManifest w context)).
Proof.
  unfold probePackageJson, withManifest, await, bind, try_catch, throw, ret, fetch.
  destruct (getContent w "package.json") as [[[content |]] | e]; cbn;
    try reflexivity.
  destruct (truthy content); [| reflexivity].
  now destruct (JSON_parse w (fromBase64 w content)).
Qed.

Lemma gathered_eq (tree : list TreeItem.t) :
  match find (usable w) configFiles with
  | Some path =>
      Context.with_configFile (configFileOf w path)
        (withManifest w
           (Context.with_files
              (firstn 100 (map TreeItem.path (filter isBlob tree)))
              (seedContext repo)))
  | None =>
      withManifest w
        (Context.with_files
           (firstn 100 (map TreeItem.path (filter isBlob tree)))
           (seedContext repo))
  end = gathered w repo tree.
Proof.
  unfold gathered, withManifest, manifestOf.
  destruct (find (usable w) configFiles);
    destruct (getContent w "package.json") as [[[content |]] | e]; cbn;
    try reflexivity;
    (destruct (truthy content); [| reflexivity]);
    now destruct (JSON_parse w (fromBase64 w content)).
Qed.

Lemma getRepositoryContext_resolved (tree : list TreeItem.t) :
  getTree w = Resolved tree ->
  getRepositoryContext w repo =
    (GetTree (Repo.owner_login repo) (Repo.name repo) (Repo.default_branch repo)
       :: fetch "package.json" :: map fetch (probed w configFiles),
     Returned (gathered w repo tree)).
Proof.
  intros Htree. unfold getRepositoryContext. rewrite Htree.
  rewrite <- gathered_eq.
  erewrite try_catch_returned; [reflexivity |].
  erewrite bind_returned by reflexivity.
  erewrite bind_returned by apply probePackageJson_eq.
  rewrite probeConfigFiles_eq. reflexivity.
Qed.

Lemma getRepositoryContext_rejected (e : JsError) :
  getTree w = Rejected e ->
  getRepositoryContext w repo =
    ([GetTree (Repo.owner_login repo) (Repo.name repo) (Repo.default_branch repo);
      ConsoleLog MsgContextWarning],
     Returned (seedContext repo)).
Proof.
  intros Htree. unfold getRepositoryContext. rewrite Htree. reflexivity.
Qed.

Lemma getRepositoryContext_returns :
  exists t context, getRepositoryContext w repo = (t, Returned context).
Proof.
  destruct (getTree w) as [tree | e] eqn:Htree.
  - rewrite (getRepositoryContext_resolved tree Htree). eauto.
  - rewrite (getRepositoryContext_rejected e Htree). eauto.
Qed.

End ContextBuilder.

Lemma contentPaths_fetches (owner name : string) (paths : list string) :
  contentPaths (map (GetContent owner name) paths) = paths.
Proof. induction paths as [| p ps IH]; [reflexivity |]. simpl. now rewrite IH. Qed.

(** The scan of a list of names: either nothing is usable and every name
    is fetched, or the names fetched are those before the first usable
    one, and that one. *)
Lemma probed_split (w : World) (names : list string) :
  match find (usable w) names with
  | Some path =>
      exists before after,
        names = before ++ path :: after
        /\ (forall p, In p before -> usable w p = false)
        /\ usable w path = true
        /\ probed w names = before ++ [path]
  | None =>
      (forall p, In p names -> usable w p = false) /\ probed w names = names
  end.
Proof.
  induction names as [| n rest IH]; [now split |].
  cbn [find probed]. destruct (usable w n) eqn:Hn.
  - exists [], rest. repeat split; [intros p [] | assumption].
  - destruct (find (usable w) rest) as [path |].
    + destruct IH as (before & after & -> & Hbefore & Hpath & Hprobed).
      exists (n :: before), after. repeat split.
      * intros p [<- | Hp]; [assumption | now apply Hbefore].
      * assumption.
      * cbn [app]. now rewrite Hprobed.
    + destruct IH as [Hnone Hprobed]. split.
      * intros p [<- | Hp]; [assumption | now apply Hnone].
      * now rewrite Hprobed.
Qed.

(** C3.  [getRepositoryContext] never throws and never ends the process:
    it always returns a context, whose summary fields are those of the
    repository, with the empty string for a missing description and
    ["Unknown"] for a missing language.  When the tree fetch throws, the
    only things done are that fetch and the warning, and the context
    returned has the summary fields, no file, no manifest and no config
    file. *)
Theorem getRepositoryContext_never_raises (w : World) (repo : Repo.t) :
  (exists t context,
     getRepositoryContext w repo = (t, Returned context)
     /\ Context.name context = Repo.name repo
     /\ Context.fullName context = Repo.full_name repo
     /\ Context.description context
        = match Repo.description repo with Some d => d | None => "" end
     /\ Context.language context
        = match Repo.language repo with
          | Some (String c l) => String c l
          | Some EmptyString | None => "Unknown"
          end
     /\ Context.topics context
        = match Repo.topics repo with Some ts => ts | None => [] end
     /\ Context.isPrivate context = Repo.private repo
     /\ Context.defaultBranch context = Repo.default_branch repo)
  /\ (forall e : JsError,
        getTree w = Rejected e ->
        getRepositoryContext w repo =
          ([GetTree (Repo.owner_login repo) (Repo.name repo)
              (Repo.default_branch repo);
            ConsoleLog MsgContextWarning],
           Returned
             {| Context.name := Repo.name repo;
                Context.fullName := Repo.full_name repo;
                Context.description :=
                  match Repo.description repo with Some d => d | None => "" end;
                Context.language :=
                  match Repo.language repo with
                  | Some (String c l) => String c l
                  | Some EmptyString | None => "Unknown"
                  end;
                Context.topics :=
                  match Repo.topics repo with Some ts => ts | None => [] end;
                Context.isPrivate := Repo.private repo;
                Context.defaultBranch := Repo.default_branch repo;
                Context.files := [];
                Context.packageJson := JNull;
                Context.configFile := None |})).
Proof.
  assert (Hd : orElse (Repo.description repo) ""
               = match Repo.description repo with Some d => d | None => "" end).
  { destruct (Repo.description repo) as [[| c d] |]; reflexivity. }
  assert (Hl : orElse (Repo.language repo) "Unknown"
               = match Repo.language repo with
                 | Some (String c l) => String c l
                 | Some EmptyString | None => "Unknown"
                 end).
  { destruct (Repo.language repo) as [[| c l] |]; reflexivity. }
  split.
  - destruct (getTree w) as [tree | e] eqn:Htree.
    + rewrite (getRepositoryContext_resolved w repo tree Htree).
      eexists _, _. split; [reflexivity |]. cbn. now rewrite Hd, Hl.
    + rewrite (getRepositoryContext_rejected w repo e Htree).
      eexists _, _. split; [reflexivity |]. cbn. now rewrite Hd, Hl.
  - intros e Htree.
    rewrite (getRepositoryContext_rejected w repo e Htree).
    unfold seedContext. now rewrite Hd, Hl.
Qed.

Lemma getRepositoryContext_never_raises_witness :
  getTree Examples.noTree = Rejected Examples.unavailable
  /\ getRepositoryContext Examples.noTree Examples.bareRepo =
       ([GetTree "octo" "demo" "main"; ConsoleLog MsgContextWarning],
        Returned
          {| Context.name := "demo"; Context.fullName := "octo/demo";
             Context.description := ""; Context.language := "Unknown";
             Context.topics := []; Context.isPrivate := false;
             Context.defaultBranch := "main"; Context.files := [];
             Context.packageJson := JNull; Context.configFile := None |}).
Proof.
  split; [reflexivity |].
  apply (proj2 (getRepositoryContext_never_raises Examples.noTree
                  Examples.bareRepo) Examples.unavailable).
  reflexivity.
Defined.

(** C4, as stated, fails: a repository can have both [Cargo.toml] and
    [go.mod], [Cargo.toml] being the earlier in the priority list, and
    get [go.mod] attached.  Here [Cargo.toml] is an empty file: its fetch
    succeeds, the scan does not stop there, and goes on to [go.mod]. *)
Lemma config_priority_counterexample :
  exposes Examples.fresh "Cargo.toml" = true
  /\ exposes Examples.fresh "go.mod" = true
  /\ find (exposes Examples.fresh) configFiles = Some "Cargo.toml"
  /\ exists t context,
       getRepositoryContext Examples.fresh Examples.bareRepo
         = (t, Returned context)
       /\ option_map ConfigFile.name (Context.configFile context)
          = Some "go.mod"
       /\ option_map ConfigFile.name (Context.configFile context)
          <> Some "Cargo.toml"
       /\ contentPaths t
          = ["package.json"; "Cargo.toml"; "pyproject.toml"; "setup.py";
             "go.mod"].
Proof.
  repeat split; try reflexivity.
  eexists _, _. repeat split; try reflexivity. discriminate.
Qed.

(** C4, amended.  When the tree fetch succeeds, the config file attached,
    if any, is the earliest name of the priority list whose fetch
    succeeds with a non-empty content: every name before it was fetched
    and failed or came back without content, it is the last name
    fetched, and its content is the decoded answer.  If no name is
    usable, all six are fetched and none is attached.  The manifest kept
    is decided by the answer for [package.json] alone. *)
Theorem config_file_priority (w : World) (repo : Repo.t)
  (tree : list TreeItem.t) :
  getTree w = Resolved tree ->
  exists t context,
    getRepositoryContext w repo = (t, Returned context)
    /\ Context.packageJson context = manifestOf w
    /\ match Context.configFile context with
       | Some f =>
           exists before after,
             configFiles = before ++ ConfigFile.name f :: after
             /\ (forall p, In p before -> usable w p = false)
             /\ usable w (ConfigFile.name f) = true
             /\ f = configFileOf w (ConfigFile.name f)
             /\ contentPaths t = "package.json" :: before ++ [ConfigFile.name f]
       | None =>
           (forall p, In p configFiles -> usable w p = false)
           /\ contentPaths t = "package.json" :: configFiles
       end.
Proof.
  intros Htree. rewrite (getRepositoryContext_resolved w repo tree Htree).
  eexists _, _. split; [reflexivity |]. split; [reflexivity |].
  cbn [contentPaths Context.configFile gathered].
  rewrite contentPaths_fetches.
  pose proof (probed_split w configFiles) as H.
  destruct (find (usable w) configFiles) as [path |]; cbn [option_map].
  - destruct H as (before & after & Hsplit & Hbefore & Hpath & Hprobed).
    exists before, after. cbn [configFileOf ConfigFile.name].
    rewrite Hprobed. now repeat split.
  - destruct H as [Hnone Hprobed]. now rewrite Hprobed.
Qed.

Lemma config_file_priority_witness :
  getTree Examples.fresh = Resolved Examples.demoTree
  /\ exists t context,
       getRepositoryContext Examples.fresh Examples.bareRepo
         = (t, Returned context)
       /\ Context.packageJson context = manifestOf Examples.fresh
       /\ match Context.configFile context with
          | Some f =>
              exists before after,
                configFiles = before ++ ConfigFile.name f :: after
                /\ (forall p, In p before -> usable Examples.fresh p = false)
                /\ usable Examples.fresh (ConfigFile.name f) = true
                /\ f = configFileOf Examples.fresh (ConfigFile.name f)
                /\ contentPaths t
                   = "package.json" :: before ++ [ConfigFile.name f]
          | None =>
              (forall p, In p configFiles -> usable Examples.fresh p = false)
              /\ contentPaths t = "package.json" :: configFiles
          end.
Proof.
  split; [reflexivity |].
  apply (config_file_priority Examples.fresh Examples.bareRepo
           Examples.demoTree).
  reflexivity.
Defined.

(* ================================================================= *)
(** ** The gap detector *)

Section GapDetector.

Lemma blank_iff (x : option string) :
  blank x = true <-> match x with None => True | Some s => trim s = "" end.
Proof.
  destruct x as [[| c s] |]; cbn [blank truthy negb orb]; try tauto.
  apply String.eqb_eq.
Qed.

Lemma hasStatus_iff (n : nat) (e : JsError) :
  hasStatus n e = true <-> status e = Some n.
Proof.
  unfold hasStatus. destruct (status e) as [m |].
  - rewrite Nat.eqb_eq. split; congruence.
  - split; discriminate.
Qed.

Lemma noTopics_iff (repo : Repo.t) :
  noTopics repo = true
  <-> Repo.topics repo = None \/ Repo.topics repo = Some [].
Proof.
  unfold noTopics. destruct (Repo.topics repo) as [[| t ts] |]; cbn.
  - split; auto.
  - split; [discriminate | intros [H | H]; discriminate].
  - split; auto.
Qed.

Lemma readmeNotFound_iff (w : World) :
  readmeNotFound w = true
  <-> exists e, getReadme_inspect w = Rejected e /\ status e = Some 404.
Proof.
  unfold readmeNotFound. destruct (getReadme_inspect w) as [d | e].
  - split; [discriminate | intros (e & H & _); discriminate].
  - split.
    + intros H. apply hasStatus_iff in H. now exists e.
    + intros (e' & H & Hs). injection H as ->. now apply hasStatus_iff.
Qed.

Lemma missingMetadata_eq (repo : Repo.t) :
  missingMetadata repo =
    (if blank (Repo.description repo) then ["description"] else [])
    ++ (if blank (Repo.homepage repo) then ["website"] else [])
    ++ (if noTopics repo then ["topics"] else []).
Proof.
  unfold missingMetadata, noTopics.
  destruct (blank (Repo.description repo)), (blank (Repo.homepage repo)),
    (Repo.topics repo) as [[| t ts] |]; reflexivity.
Qed.

Lemma checkMissing_eq (w : World) (repo : Repo.t) :
  checkMissing w repo =
    ([GetReadme (Repo.owner_login repo) (Repo.name repo)],
     Returned
       (missingMetadata repo
          ++ (if readmeNotFound w then ["README.md"] else []),
        match getReadme_inspect w with
        | Resolved _ => true
        | Rejected _ => false
        end)).
Proof.
  unfold checkMissing, readmeNotFound, await, bind, try_catch, ret.
  destruct (getReadme_inspect w) as [d | e]; cbn; [now rewrite app_nil_r |].
  destruct (hasStatus 404 e); cbn; now rewrite ?app_nil_r.
Qed.

Lemma In_flag (b : bool) (n x : string) :
  In x (if b then [n] else []) <-> b = true /\ n = x.
Proof. destruct b; simpl; intuition congruence. Qed.

End GapDetector.

(* ================================================================= *)
(** ** The apply step *)

Section ApplyStep.

Variable w : World.
Variable repo : Repo.t.

Let lookup : Event := GetReadme (Repo.owner_login repo) (Repo.name repo).

Lemma applyReadme_eq (readme : string) :
  applyReadme w repo readme =
    ([lookup;
      CreateOrUpdateFileContents (readmeRequest w repo readme);
      match createOrUpdateFileContents w (readmeRequest w repo readme) with
      | Resolved _ => ConsoleLog MsgReadmeWritten
      | Rejected e => ConsoleError (MsgReadmeError (message e))
      end],
     Returned tt).
Proof.
  unfold applyReadme, readmeRequest, await, bind, try_catch, ret, log,
    logError, lookup.
  destruct (getReadme_apply w) as [existing | e]; cbn;
    match goal with
    | |- context [createOrUpdateFileContents w ?r] =>
        now destruct (createOrUpdateFileContents w r)
    end.
Qed.

Lemma applyBody_eq (generatedData : Generated.t) (t1 t2 : list Event) :
  applyMetadata w repo generatedData = (t1, Returned tt) ->
  applyTopics w repo generatedData = (t2, Returned tt) ->
  applyBody w repo generatedData =
    (t1 ++ t2
       ++ trace (whenPresent (Generated.readme generatedData)
                   (applyReadme w repo))
       ++ [ConsoleLog MsgAllApplied],
     result (whenPresent (Generated.readme generatedData) (applyReadme w repo) ;;
             log MsgAllApplied)).
Proof.
  intros H1 H2. unfold applyBody.
  rewrite (bind_returned _ _ _ _ H1). cbn [trace result fst snd].
  rewrite (bind_returned _ _ _ _ H2). cbn [trace result fst snd].
  f_equal. f_equal. f_equal.
  destruct (Generated.readme generatedData) as [readme |]; [| reflexivity].
  cbn [whenPresent]. destruct (truthy readme); [| reflexivity].
  now rewrite applyReadme_eq.
Qed.

(** The apply step when the README sub-step is reached and runs. *)
Lemma applyStep_readme (generatedData : Generated.t) (readme : string)
  (t1 t2 : list Event) :
  Generated.readme generatedData = Some readme ->
  truthy readme = true ->
  applyMetadata w repo generatedData = (t1, Returned tt) ->
  applyTopics w repo generatedData = (t2, Returned tt) ->
  applyStep w repo generatedData =
    (t1 ++ t2
       ++ [lookup;
           CreateOrUpdateFileContents (readmeRequest w repo readme);
           match createOrUpdateFileContents w (readmeRequest w repo readme) with
           | Resolved _ => ConsoleLog MsgReadmeWritten
           | Rejected e => ConsoleError (MsgReadmeError (message e))
           end;
           ConsoleLog MsgAllApplied],
     Returned tt).
Proof.
  intros Hr Ht H1 H2. unfold applyStep.
  rewrite (applyBody_eq _ _ _ H1 H2), Hr. cbn [whenPresent]. rewrite Ht.
  rewrite applyReadme_eq. reflexivity.
Qed.

(** The metadata update is rejected. *)
Lemma applyStep_update_rejected (generatedData : Generated.t) (e : JsError) :
  present (Generated.description generatedData)
  || present (Generated.website generatedData) = true ->
  repos_update w (updateData repo generatedData) = Rejected e ->
  applyStep w repo generatedData =
    ([ReposUpdate (updateData repo generatedData);
      ConsoleError (MsgApplyError (message e))],
     Exited 1).
Proof.
  intros Hp Hu. unfold applyStep, applyBody, applyMetadata.
  rewrite Hp, Hu. reflexivity.
Qed.

(** The topics replacement is rejected. *)
Lemma applyStep_topics_rejected (generatedData : Generated.t)
  (t1 : list Event) (names : list string) (e : JsError) :
  applyMetadata w repo generatedData = (t1, Returned tt) ->
  Generated.topics generatedData = Some names ->
  replaceAllTopics w names = Rejected e ->
  applyStep w repo generatedData =
    (t1 ++ [ReplaceAllTopics (Repo.owner_login repo) (Repo.name repo) names;
            ConsoleError (MsgApplyError (message e))],
     Exited 1).
Proof.
  intros H1 Hn Ht. unfold applyStep, applyBody.
  rewrite (bind_returned _ _ _ _ H1). unfold applyTopics.
  rewrite Hn, Ht. cbn. now rewrite <- app_assoc.
Qed.

End ApplyStep.

Lemma run_after_prepare (w : World) (repo : Repo.t) (t : list Event)
  (generatedData : Generated.t) :
  prepare w repo = (t, Returned generatedData) ->
  main w repo = (t ++ trace (applyStep w repo generatedData),
                 result (applyStep w repo generatedData)).
Proof. intros H. unfold main. now rewrite (bind_returned _ _ _ _ H). Qed.

(** C6.  In the apply step, when a non-empty README was generated and the
    earlier calls went through, the program looks the README up again and
    then writes it: with the hash of the README found when the lookup
    succeeds (an update), with no hash whenever the lookup fails, for
    whatever reason (a creation).  Either way the content sent is the
    base64 of the generated text.  The answer the gap detector got to its
    own lookup plays no part. *)
Theorem apply_readme_create_or_update (w : World) (repo : Repo.t)
  (generatedData : Generated.t) (readme : string) (t1 t2 : list Event) :
  Generated.readme generatedData = Some readme ->
  truthy readme = true ->
  applyMetadata w repo generatedData = (t1, Returned tt) ->
  applyTopics w repo generatedData = (t2, Returned tt) ->
  (exists report : Event,
     applyStep w repo generatedData =
       (t1 ++ t2
          ++ [GetReadme (Repo.owner_login repo) (Repo.name repo);
              CreateOrUpdateFileContents
                {| put_owner := Repo.owner_login repo;
                   put_repo := Repo.name repo;
                   put_path := "README.md";
                   put_message :=
                     match getReadme_apply w with
                     | Resolved _ => "Update README.md via metadata generator"
                     | Rejected _ => "Add README.md via metadata generator"
                     end;
                   put_content := Base64.ofString readme;
                   put_sha :=
                     match getReadme_apply w with
                     | Resolved existing => Some (ReadmeData.sha existing)
                     | Rejected _ => None
                     end |};
              report;
              ConsoleLog MsgAllApplied],
        Returned tt))
  /\ (forall first : response ReadmeData.t,
        applyStep (with_getReadme_inspect first w) repo generatedData
        = applyStep w repo generatedData).
Proof.
  intros Hr Ht H1 H2. split; [| reflexivity].
  rewrite (applyStep_readme w repo generatedData readme t1 t2 Hr Ht H1 H2).
  eexists. reflexivity.
Qed.

Lemma apply_readme_create_or_update_witness :
  (exists report : Event,
     applyStep Examples.fresh Examples.bareRepo Examples.readmeOnly =
       ([GetReadme "octo" "demo";
         CreateOrUpdateFileContents
           {| put_owner := "octo"; put_repo := "demo";
              put_path := "README.md";
              put_message := "Add README.md via metadata generator";
              put_content := "IyBkZW1v";
              put_sha := None |};
         report;
         ConsoleLog MsgAllApplied],
        Returned tt))
  /\ (exists report : Event,
        applyStep Examples.withReadme Examples.fullRepo Examples.readmeOnly =
          ([GetReadme "octo" "demo";
            CreateOrUpdateFileContents
              {| put_owner := "octo"; put_repo := "demo";
                 put_path := "README.md";
                 put_message := "Update README.md via metadata generator";
                 put_content := "IyBkZW1v";
                 put_sha := Some "3f2a" |};
            report;
            ConsoleLog MsgAllApplied],
           Returned tt)).
Proof.
  split.
  - exact (proj1 (apply_readme_create_or_update Examples.fresh
                    Examples.bareRepo Examples.readmeOnly "# demo" [] []
                    eq_refl eq_refl eq_refl eq_refl)).
  - exact (proj1 (apply_readme_create_or_update Examples.withReadme
                    Examples.fullRepo Examples.readmeOnly "# demo" [] []
                    eq_refl eq_refl eq_refl eq_refl)).
Defined.

(** C7.  In the apply step:
    - when the metadata update is rejected, the step stops there: the
      error is reported, the process exits with status 1, and neither the
      topics nor the README call is made;
    - when the metadata part went through and the topics replacement is
      rejected, what was done stays done, the error is reported, the
      process exits with status 1, and no README call is made;
    - when both went through and the README write is rejected, the error
      is reported for the README alone, the closing banner is printed and
      the step returns.
    In no case is a call made after the one that failed. *)
Theorem apply_step_failures (w : World) (repo : Repo.t)
  (generatedData : Generated.t) :
  (forall e : JsError,
     present (Generated.description generatedData)
     || present (Generated.website generatedData) = true ->
     repos_update w (updateData repo generatedData) = Rejected e ->
     applyStep w repo generatedData =
       ([ReposUpdate (updateData repo generatedData);
         ConsoleError (MsgApplyError (message e))],
        Exited 1))
  /\ (forall (t1 : list Event) (names : list string) (e : JsError),
        applyMetadata w repo generatedData = (t1, Returned tt) ->
        Generated.topics generatedData = Some names ->
        replaceAllTopics w names = Rejected e ->
        applyStep w repo generatedData =
          (t1 ++ [ReplaceAllTopics (Repo.owner_login repo) (Repo.name repo)
                    names;
                  ConsoleError (MsgApplyError (message e))],
           Exited 1))
  /\ (forall (t1 t2 : list Event) (readme : string) (e : JsError),
        applyMetadata w repo generatedData = (t1, Returned tt) ->
        applyTopics w repo generatedData = (t2, Returned tt) ->
        Generated.readme generatedData = Some readme ->
        truthy readme = true ->
        createOrUpdateFileContents w (readmeRequest w repo readme)
        = Rejected e ->
        applyStep w repo generatedData =
          (t1 ++ t2
             ++ [GetReadme (Repo.owner_login repo) (Repo.name repo);
                 CreateOrUpdateFileContents (readmeRequest w repo readme);
                 ConsoleError (MsgReadmeError (message e));
                 ConsoleLog MsgAllApplied],
           Returned tt)).
Proof.
  split; [| split].
  - intros e. apply applyStep_update_rejected.
  - intros t1 names e. apply applyStep_topics_rejected.
  - intros t1 t2 readme e H1 H2 Hr Ht Hput.
    rewrite (applyStep_readme w repo generatedData readme t1 t2 Hr Ht H1 H2).
    now rewrite Hput.
Qed.

Lemma apply_step_failures_witness :
  applyStep Examples.updateFails Examples.bareRepo Examples.generated =
    ([ReposUpdate
        {| upd_owner := "octo"; upd_repo := "demo";
           upd_description := Some "A demo repository.";
           upd_homepage := Some "https://octo.github.io/demo" |};
      ConsoleError (MsgApplyError "Service Unavailable")],
     Exited 1)
  /\ applyStep Examples.topicsFail Examples.bareRepo Examples.generated =
       ([ReposUpdate
           {| upd_owner := "octo"; upd_repo := "demo";
              upd_description := Some "A demo repository.";
              upd_homepage := Some "https://octo.github.io/demo" |};
         ConsoleLog MsgUpdatedMetadata;
         ReplaceAllTopics "octo" "demo" ["web-app"; "react"; "node.js!!"];
         ConsoleError (MsgApplyError "Service Unavailable")],
        Exited 1)
  /\ applyStep Examples.putFails Examples.bareRepo Examples.generated =
       ([ReposUpdate
           {| upd_owner := "octo"; upd_repo := "demo";
              upd_description := Some "A demo repository.";
              upd_homepage := Some "https://octo.github.io/demo" |};
         ConsoleLog MsgUpdatedMetadata;
         ReplaceAllTopics "octo" "demo" ["web-app"; "react"; "node.js!!"];
         ConsoleLog MsgUpdatedTopics;
         GetReadme "octo" "demo";
         CreateOrUpdateFileContents
           {| put_owner := "octo"; put_repo := "demo";
              put_path := "README.md";
              put_message := "Add README.md via metadata generator";
              put_content := "IyBkZW1v";
              put_sha := None |};
         ConsoleError (MsgReadmeError "Service Unavailable");
         ConsoleLog MsgAllApplied],
        Returned tt).
Proof.
  split; [| split].
  - exact (proj1 (apply_step_failures Examples.updateFails Examples.bareRepo
                    Examples.generated)
             Examples.unavailable eq_refl eq_refl).
  - exact (proj1 (proj2 (apply_step_failures Examples.topicsFail
                           Examples.bareRepo Examples.generated))
             _ _ Examples.unavailable eq_refl eq_refl eq_refl).
  - exact (proj2 (proj2 (apply_step_failures Examples.putFails
                           Examples.bareRepo Examples.generated))
             _ _ _ Examples.unavailable eq_refl eq_refl eq_refl eq_refl
             eq_refl).
Defined.

(** C10.  When the run reaches the apply step with a non-empty README and
    the earlier calls go through, the process ends with status 0 whether
    the README write succeeds or not; when the write is rejected, the
    run is everything done so far, the lookup, the write, the README
    error and then the closing banner, and [main] returns. *)
Theorem readme_failure_exits_zero (w : World) (repo : Repo.t)
  (t t1 t2 : list Event) (generatedData : Generated.t) (readme : string) :
  prepare w repo = (t, Returned generatedData) ->
  applyMetadata w repo generatedData = (t1, Returned tt) ->
  applyTopics w repo generatedData = (t2, Returned tt) ->
  Generated.readme generatedData = Some readme ->
  truthy readme = true ->
  exitStatus (run w repo) = 0
  /\ (forall e : JsError,
        createOrUpdateFileContents w (readmeRequest w repo readme)
        = Rejected e ->
        run w repo =
          (t ++ t1 ++ t2
             ++ [GetReadme (Repo.owner_login repo) (Repo.name repo);
                 CreateOrUpdateFileContents (readmeRequest w repo readme);
                 ConsoleError (MsgReadmeError (message e));
                 ConsoleLog MsgAllApplied],
           Returned tt))
  /\ (forall u : unit,
        createOrUpdateFileContents w (readmeRequest w repo readme)
        = Resolved u ->
        run w repo =
          (t ++ t1 ++ t2
             ++ [GetReadme (Repo.owner_login repo) (Repo.name repo);
                 CreateOrUpdateFileContents (readmeRequest w repo readme);
                 ConsoleLog MsgReadmeWritten;
                 ConsoleLog MsgAllApplied],
           Returned tt)).
Proof.
  intros Hp H1 H2 Hr Ht.
  assert (Hrun : run w repo =
                 (t ++ trace (applyStep w repo generatedData), Returned tt)).
  { unfold run. rewrite (run_after_prepare w repo t generatedData Hp).
    now rewrite (applyStep_readme w repo generatedData readme t1 t2 Hr Ht H1 H2). }
  rewrite Hrun.
  rewrite (applyStep_readme w repo generatedData readme t1 t2 Hr Ht H1 H2).
  cbn [trace fst]. split; [reflexivity |].
  split; [intros e Hput | intros u Hput]; now rewrite Hput.
Qed.

Lemma readme_failure_exits_zero_witness :
  exitStatus (run Examples.putFails Examples.bareRepo) = 0
  /\ run Examples.putFails Examples.bareRepo =
       (trace (prepare Examples.putFails Examples.bareRepo)
          ++ trace (applyMetadata Examples.putFails Examples.bareRepo
                      Examples.generated)
          ++ trace (applyTopics Examples.putFails Examples.bareRepo
                      Examples.generated)
          ++ [GetReadme "octo" "demo";
              CreateOrUpdateFileContents
                (readmeRequest Examples.putFails Examples.bareRepo "# demo");
              ConsoleError (MsgReadmeError "Service Unavailable");
              ConsoleLog MsgAllApplied],
        Returned tt).
Proof.
  assert (Hp : prepare Examples.putFails Examples.bareRepo =
               (trace (prepare Examples.putFails Examples.bareRepo),
                Returned Examples.generated))
    by (vm_compute; reflexivity).
  pose proof (readme_failure_exits_zero Examples.putFails Examples.bareRepo
                _ _ _ Examples.generated "# demo"
                Hp (surjective_run _) (surjective_run _) eq_refl eq_refl)
    as (Hexit & Hfail & _).
  split; [exact Hexit |].
  exact (Hfail Examples.unavailable eq_refl).
Defined.

(* ================================================================= *)
(** ** Which completions a run requests *)

Section Completions.

Lemma completions_app (t1 t2 : list Event) :
  completions (t1 ++ t2) = completions t1 ++ completions t2.
Proof.
  induction t1 as [| e t1 IH]; [reflexivity |].
  destruct e; cbn; now rewrite IH.
Qed.

Lemma trace_bind {A B} (m : M A) (k : A -> M B) :
  trace (bind m k) =
    trace m ++ match result m with
               | Returned a => trace (k a)
               | _ => []
               end.
Proof.
  destruct m as [t [a | e | c]]; cbn; try now rewrite app_nil_r.
  now destruct (k a).
Qed.

Lemma trace_try_catch {A} (m : M A) (h : JsError -> M A) :
  trace (try_catch m h) =
    trace m ++ match result m with
               | Thrown e => trace (h e)
               | _ => []
               end.
Proof.
  destruct m as [t [a | e | c]]; cbn; try now rewrite app_nil_r.
  now destruct (h e).
Qed.

Lemma silent_bind {A B} (m : M A) (k : A -> M B) :
  silent m -> (forall a, silent (k a)) -> silent (bind m k).
Proof.
  unfold silent. intros Hm Hk. rewrite trace_bind, completions_app, Hm.
  destruct (result m); [apply Hk | reflexivity | reflexivity].
Qed.

Lemma silent_try_catch {A} (m : M A) (h : JsError -> M A) :
  silent m -> (forall e, silent (h e)) -> silent (try_catch m h).
Proof.
  unfold silent. intros Hm Hh. rewrite trace_try_catch, completions_app, Hm.
  destruct (result m); [reflexivity | apply Hh | reflexivity].
Qed.

Lemma silent_await {A} (e : Event) (r : response A) :
  completions [e] = [] -> silent (await e r).
Proof. intros H. exact H. Qed.

Lemma completions_bind_returned {A B} (m : M A) (k : A -> M B) t a :
  m = (t, Returned a) ->
  completions (trace (bind m k)) = completions t ++ completions (trace (k a)).
Proof. intros ->. now rewrite trace_bind, completions_app. Qed.

Lemma completions_bind_silent {A B} (m : M A) (k : A -> M B) :
  (forall a, silent (k a)) ->
  completions (trace (bind m k)) = completions (trace m).
Proof.
  intros Hk. rewrite trace_bind, completions_app.
  destruct (result m); [rewrite Hk | |]; apply app_nil_r.
Qed.

Lemma completions_try_catch_silent {A} (m : M A) (h : JsError -> M A) :
  (forall e, silent (h e)) ->
  completions (trace (try_catch m h)) = completions (trace m).
Proof.
  intros Hh. rewrite trace_try_catch, completions_app.
  destruct (result m); [| rewrite Hh |]; apply app_nil_r.
Qed.

End Completions.

(** Splits the goal [silent m] along the structure of [m]. *)
Ltac silence :=
  repeat match goal with
    | |- silent (bind _ _) => apply silent_bind; [| intros ?]
    | |- silent (try_catch _ _) => apply silent_try_catch; [| intros ?]
    | |- silent (await _ _) => apply silent_await; reflexivity
    | |- silent (if ?b then _ else _) => destruct b
    | |- silent (match ?x with _ => _ end) => destruct x
    | |- silent _ => reflexivity
    end.

Section Stages.

Variable w : World.
Variable repo : Repo.t.

Lemma checkMissing_silent : silent (checkMissing w repo).
Proof. unfold silent. now rewrite checkMissing_eq. Qed.

Lemma chooseFields_silent (missing : list string) :
  silent (chooseFields w missing).
Proof. unfold chooseFields. silence. Qed.

Lemma getRepositoryContext_silent : silent (getRepositoryContext w repo).
Proof.
  unfold silent. destruct (getTree w) as [tree | e] eqn:Htree.
  - rewrite (getRepositoryContext_resolved w repo tree Htree).
    cbn [trace fst completions].
    induction (probed w configFiles) as [| p ps IH]; [reflexivity | exact IH].
  - now rewrite (getRepositoryContext_rejected w repo e Htree).
Qed.

Lemma printSummary_silent (generatedData : Generated.t) :
  silent (printSummary generatedData).
Proof. unfold printSummary, whenPresent. silence. Qed.

Lemma applyStep_silent (generatedData : Generated.t) :
  silent (applyStep w repo generatedData).
Proof.
  unfold applyStep, applyBody, applyMetadata, applyTopics, whenPresent,
    applyReadme.
  silence.
Qed.

(** The checkbox and what follows, once the gate is passed. *)
Lemma chooseFields_selected (missing : list string) (fields : list Field) :
  (missing = [] -> confirm w AskRegenerate = Resolved true) ->
  checkbox w (fieldChoices missing) = Resolved fields ->
  chooseFields w missing =
    match fields with
    | [] =>
        (gateEvents missing
           ++ [Checkbox (fieldChoices missing); ConsoleLog MsgNoFieldsSelected],
         Exited 0)
    | _ :: _ =>
        (gateEvents missing ++ [Checkbox (fieldChoices missing)],
         Returned fields)
    end.
Proof.
  intros Hgate Hbox. unfold chooseFields, gateEvents.
  rewrite Hbox. destruct missing as [| m ms].
  - rewrite (Hgate eq_refl). now destruct fields.
  - now destruct fields.
Qed.

Lemma chooseFields_declined :
  confirm w AskRegenerate = Resolved false ->
  chooseFields w [] =
    ([ConsoleLog MsgAllPopulated; Confirm AskRegenerate], Exited 0).
Proof. intros H. unfold chooseFields. now rewrite H. Qed.

(** When the service answers every request, each selected generator runs
    once, in the fixed order, and no other. *)
Lemma generateFields_completions (fields : list Field) (context : Context.t) :
  (forall r, exists content, completion w r = Resolved content) ->
  exists t generatedData,
    generateFields w fields context = (t, Returned generatedData)
    /\ completions t = filter (fun f => selected f fields) allFields.
Proof.
  intros Hall.
  unfold generateFields, generateDescription, generateWebsite, generateTopics,
    generateReadme, chat, allFields.
  cbn [filter].
  destruct (selected FDescription fields), (selected FWebsite fields),
    (selected FTopics fields), (selected FReadme fields);
    repeat match goal with
      | |- context [completion w ?r] =>
          let c := fresh "content" in
          let H := fresh "H" in
          destruct (Hall r) as [c H]; rewrite H; clear H
      end;
    eexists _, _; split; reflexivity.
Qed.

End Stages.

(* ================================================================= *)
(** ** The selection of fields *)

Section Selection.

Variable w : World.
Variable repo : Repo.t.

Lemma includes_iff (x : string) (xs : list string) :
  includes x xs = true <-> In x xs.
Proof.
  unfold includes. rewrite existsb_exists. split.
  - intros (y & Hy & Heq). apply String.eqb_eq in Heq. now subst.
  - intros H. exists x. split; [assumption | apply String.eqb_refl].
Qed.

Lemma checkMissing_result (missing : list string) (hasReadme : bool) :
  result (checkMissing w repo) = Returned (missing, hasReadme) ->
  checkMissing w repo =
    ([GetReadme (Repo.owner_login repo) (Repo.name repo)],
     Returned (missing, hasReadme)).
Proof.
  intros H. rewrite (surjective_run (checkMissing w repo)), H.
  now rewrite checkMissing_eq.
Qed.

Lemma chooseFields_trace (missing : list string) :
  (missing = [] -> confirm w AskRegenerate = Resolved true) ->
  exists rest,
    trace (chooseFields w missing) =
      gateEvents missing ++ Checkbox (fieldChoices missing) :: rest.
Proof.
  intros Hgate. unfold chooseFields, gateEvents.
  destruct missing as [| m ms].
  - rewrite (Hgate eq_refl).
    destruct (checkbox w (fieldChoices [])) as [[| f fs] | e];
      eexists; reflexivity.
  - destruct (checkbox w (fieldChoices (m :: ms))) as [[| f fs] | e];
      eexists; reflexivity.
Qed.

(** A run starts with the gap detector and goes on with the choice of
    fields. *)
Lemma run_trace (t0 : list Event) (missing : list string) (hasReadme : bool) :
  checkMissing w repo = (t0, Returned (missing, hasReadme)) ->
  exists rest,
    trace (run w repo) = t0 ++ trace (chooseFields w missing) ++ rest.
Proof.
  intros Hc. unfold run, main, prepare.
  rewrite trace_try_catch, trace_bind, (trace_bind (checkMissing w repo)), Hc.
  cbn [trace result fst snd]. rewrite trace_bind.
  rewrite <- !app_assoc. eexists. reflexivity.
Qed.

Lemma run_declined (t0 : list Event) (hasReadme : bool) :
  checkMissing w repo = (t0, Returned ([], hasReadme)) ->
  confirm w AskRegenerate = Resolved false ->
  run w repo =
    (t0 ++ [ConsoleLog MsgAllPopulated; Confirm AskRegenerate], Exited 0).
Proof.
  intros Hc Hno. unfold run, main, prepare.
  rewrite (bind_returned _ _ _ _ Hc). cbn [fst].
  now rewrite (chooseFields_declined w Hno).
Qed.

Lemma run_completions (t0 : list Event) (missing : list string)
  (hasReadme : bool) (fields : list Field) :
  checkMissing w repo = (t0, Returned (missing, hasReadme)) ->
  (missing = [] -> confirm w AskRegenerate = Resolved true) ->
  checkbox w (fieldChoices missing) = Resolved fields ->
  (forall r, exists content, completion w r = Resolved content) ->
  completions (trace (run w repo)) =
    filter (fun f => selected f fields) allFields.
Proof.
  intros Hc Hgate Hbox Hall.
  pose proof (checkMissing_silent w repo) as Hs0.
  unfold silent in Hs0. rewrite Hc in Hs0. cbn [trace fst] in Hs0.
  unfold run. rewrite completions_try_catch_silent by (intros; silence).
  unfold main. rewrite completions_bind_silent
    by (intros; apply applyStep_silent).
  unfold prepare. rewrite (completions_bind_returned _ _ _ _ Hc), Hs0.
  cbn [fst app].
  rewrite trace_bind, completions_app.
  pose proof (chooseFields_silent w missing) as Hs1. unfold silent in Hs1.
  rewrite Hs1, (chooseFields_selected w missing fields Hgate Hbox).
  destruct fields as [| f fs]; [reflexivity |].
  cbn [result snd app].
  rewrite (completions_bind_returned (log MsgAnalyzing) _ _ tt eq_refl).
  cbn [completions app].
  destruct (getRepositoryContext_returns w repo) as (t1 & context & Hctx).
  pose proof (getRepositoryContext_silent w repo) as Hs2.
  unfold silent in Hs2. rewrite Hctx in Hs2. cbn [trace fst] in Hs2.
  rewrite (completions_bind_returned _ _ _ _ Hctx), Hs2. cbn [app].
  destruct (generateFields_completions w (f :: fs) context Hall)
    as (t2 & generatedData & Hgen & Hcompl).
  rewrite (completions_bind_returned _ _ _ _ Hgen), Hcompl.
  assert (Hk : silent (printSummary generatedData ;;
                       applyChanges <- await (Confirm AskApply)
                                             (confirm w AskApply) ;;
                       if negb applyChanges
                       then log MsgCancelled ;; process_exit 0
                       else log MsgApplying ;; ret generatedData)).
  { apply silent_bind; [apply printSummary_silent | intros _; silence]. }
  unfold silent in Hk. rewrite Hk. apply app_nil_r.
Qed.

End Selection.

(** C8.  The list [missing] decides which boxes of the checkbox are
    pre-checked and nothing else: the choices are always the four fields,
    each pre-checked exactly when its name is in [missing], and the
    generators that run are those of the fields the user selects,
    whatever [missing] is.  When [missing] is empty, the user is asked to
    confirm first: on a refusal the process exits with status 0 and no
    checkbox is shown; on an agreement the checkbox comes next, with
    nothing pre-checked.  When [missing] is not empty, the checkbox comes
    right after the list of missing fields. *)
Theorem missing_only_preselects (w : World) (repo : Repo.t)
  (missing : list string) (hasReadme : bool) :
  result (checkMissing w repo) = Returned (missing, hasReadme) ->
  (map value (fieldChoices missing) = [FDescription; FWebsite; FTopics; FReadme]
   /\ forall c, In c (fieldChoices missing) ->
                (checked c = true <-> In (missingName (value c)) missing))
  /\ (missing = [] ->
      confirm w AskRegenerate = Resolved false ->
      run w repo =
        ([GetReadme (Repo.owner_login repo) (Repo.name repo);
          ConsoleLog MsgAllPopulated;
          Confirm AskRegenerate],
         Exited 0))
  /\ (missing = [] ->
      confirm w AskRegenerate = Resolved true ->
      exists rest,
        trace (run w repo) =
          [GetReadme (Repo.owner_login repo) (Repo.name repo);
           ConsoleLog MsgAllPopulated;
           Confirm AskRegenerate;
           Checkbox [ {| value := FDescription; checked := false |};
                      {| value := FWebsite; checked := false |};
                      {| value := FTopics; checked := false |};
                      {| value := FReadme; checked := false |} ]]
          ++ rest)
  /\ (missing <> [] ->
      exists rest,
        trace (run w repo) =
          [GetReadme (Repo.owner_login repo) (Repo.name repo);
           ConsoleLog (MsgMissingFields (join ", " missing));
           Checkbox (fieldChoices missing)]
          ++ rest)
  /\ (forall fields : list Field,
        (missing = [] -> confirm w AskRegenerate = Resolved true) ->
        checkbox w (fieldChoices missing) = Resolved fields ->
        (forall r, exists content, completion w r = Resolved content) ->
        completions (trace (run w repo)) =
          filter (fun f => selected f fields)
            [FDescription; FWebsite; FTopics; FReadme]).
Proof.
  intros Hres. apply checkMissing_result in Hres as Hc.
  split; [| split; [| split; [| split]]].
  - split; [reflexivity |].
    intros c [<- | [<- | [<- | [<- | []]]]]; cbn [checked value missingName];
      apply includes_iff.
  - intros -> Hno. now rewrite (run_declined w repo _ _ Hc Hno).
  - intros -> Hyes.
    destruct (run_trace w repo _ _ _ Hc) as [rest Hrun].
    destruct (chooseFields_trace w [] (fun _ => Hyes)) as [rest' Hchoose].
    rewrite Hrun, Hchoose. cbn. eexists. reflexivity.
  - intros Hne.
    destruct (run_trace w repo _ _ _ Hc) as [rest Hrun].
    destruct (chooseFields_trace w missing) as [rest' Hchoose];
      [intros ->; congruence |].
    rewrite Hrun, Hchoose. unfold gateEvents.
    destruct missing as [| m ms]; [congruence |].
    cbn [List.length Nat.eqb app]. eexists. reflexivity.
  - intros fields. exact (run_completions w repo _ _ _ fields Hc).
Qed.

Lemma missing_only_preselects_witness :
  result (checkMissing Examples.topicsOnly Examples.fullRepo)
  = Returned ([], true)
  /\ completions (trace (run Examples.topicsOnly Examples.fullRepo))
     = [FTopics].
Proof.
  split; [reflexivity |].
  apply (proj2 (proj2 (proj2 (proj2
           (missing_only_preselects Examples.topicsOnly Examples.fullRepo
              [] true eq_refl))))
           [FTopics]).
  - intros _. reflexivity.
  - reflexivity.
  - intros r. cbn. unfold Examples.demoCompletion.
    destruct (purpose r); eexists; reflexivity.
Defined.

(** C9.  When the checkbox is reached and the user selects no field, the
    run is the README lookup of the gap detector, the messages and the
    question before the checkbox, the checkbox and the notice that
    nothing was selected; the process exits with status 0.  No tree or
    file is fetched, no completion is requested and nothing is written
    to the hosting platform. *)
Theorem no_selection_exits (w : World) (repo : Repo.t)
  (missing : list string) (hasReadme : bool) :
  result (checkMissing w repo) = Returned (missing, hasReadme) ->
  (missing = [] -> confirm w AskRegenerate = Resolved true) ->
  checkbox w (fieldChoices missing) = Resolved [] ->
  run w repo =
    (GetReadme (Repo.owner_login repo) (Repo.name repo)
       :: match missing with
          | [] => [ConsoleLog MsgAllPopulated; Confirm AskRegenerate]
          | _ :: _ => [ConsoleLog (MsgMissingFields (join ", " missing))]
          end
       ++ [Checkbox (fieldChoices missing); ConsoleLog MsgNoFieldsSelected],
     Exited 0)
  /\ exitStatus (run w repo) = 0
  /\ forallb (fun e => negb (isWork e)) (trace (run w repo)) = true.
Proof.
  intros Hres Hgate Hbox. apply checkMissing_result in Hres as Hc.
  assert (Hrun : run w repo =
                 (GetReadme (Repo.owner_login repo) (Repo.name repo)
                    :: match missing with
                       | [] => [ConsoleLog MsgAllPopulated; Confirm AskRegenerate]
                       | _ :: _ =>
                           [ConsoleLog (MsgMissingFields (join ", " missing))]
                       end
                    ++ [Checkbox (fieldChoices missing);
                        ConsoleLog MsgNoFieldsSelected],
                  Exited 0)).
  { unfold run, main, prepare.
    rewrite (bind_returned _ _ _ _ Hc). cbn [fst].
    rewrite (chooseFields_selected w missing [] Hgate Hbox).
    unfold gateEvents. now destruct missing. }
  rewrite Hrun. repeat split. now destruct missing.
Qed.

Lemma no_selection_exits_witness :
  exitStatus (run Examples.nothingSelected Examples.bareRepo) = 0
  /\ forallb (fun e => negb (isWork e))
       (trace (run Examples.nothingSelected Examples.bareRepo)) = true.
Proof.
  exact (proj2 (no_selection_exits Examples.nothingSelected Examples.bareRepo
                  ["description"; "website"; "topics"; "README.md"] false
                  eq_refl (fun H => False_ind _ (nil_cons (eq_sym H)))
                  eq_refl)).
Defined.

(* ================================================================= *)
(** ** What a whole run does and never does *)

Section RunLaws.

Lemma result_bind {A B} (m : M A) (k : A -> M B) :
  result (bind m k) =
    match result m with
    | Returned a => result (k a)
    | Thrown e => Thrown e
    | Exited c => Exited c
    end.
Proof. destruct m as [t [a | e | c]]; cbn; try reflexivity. now destruct (k a). Qed.

Lemma result_try_catch {A} (m : M A) (h : JsError -> M A) :
  result (try_catch m h) =
    match result m with
    | Thrown e => result (h e)
    | o => o
    end.
Proof. destruct m as [t [a | e | c]]; cbn; try reflexivity. now destruct (h e). Qed.

Lemma quiet_bind {A B} (p : Event -> bool) (m : M A) (k : A -> M B) :
  quiet p m -> (forall a, quiet p (k a)) -> quiet p (bind m k).
Proof.
  unfold quiet. intros Hm Hk. rewrite trace_bind, existsb_app, Hm.
  destruct (result m); [apply Hk | reflexivity | reflexivity].
Qed.

Lemma quiet_try_catch {A} (p : Event -> bool) (m : M A) (h : JsError -> M A) :
  quiet p m -> (forall e, quiet p (h e)) -> quiet p (try_catch m h).
Proof.
  unfold quiet. intros Hm Hh. rewrite trace_try_catch, existsb_app, Hm.
  destruct (result m); [reflexivity | apply Hh | reflexivity].
Qed.

Lemma quiet_await {A} (p : Event -> bool) (e : Event) (r : response A) :
  p e = false -> quiet p (await e r).
Proof. unfold quiet. cbn. now intros ->. Qed.

Lemma exitsCleanly_bind {A B} (m : M A) (k : A -> M B) :
  exitsCleanly m -> (forall a, exitsCleanly (k a)) -> exitsCleanly (bind m k).
Proof.
  unfold exitsCleanly. intros Hm Hk. rewrite result_bind.
  destruct (result m); [apply Hk | exact I | exact Hm].
Qed.

Lemma exitsCleanly_try_catch {A} (m : M A) (h : JsError -> M A) :
  exitsCleanly m -> (forall e, exitsCleanly (h e)) ->
  exitsCleanly (try_catch m h).
Proof.
  unfold exitsCleanly. intros Hm Hh. rewrite result_try_catch.
  destruct (result m); [exact I | apply Hh | exact Hm].
Qed.

Lemma exitsCleanly_await {A} (e : Event) (r : response A) :
  exitsCleanly (await e r).
Proof. unfold exitsCleanly. now destruct r. Qed.

End RunLaws.

(** Splits the goal [quiet p m] along the structure of [m]. *)
Ltac hush :=
  repeat match goal with
    | |- quiet _ (bind _ _) => apply quiet_bind; [| intros ?]
    | |- quiet _ (try_catch _ _) => apply quiet_try_catch; [| intros ?]
    | |- quiet _ (await _ _) => apply quiet_await; reflexivity
    | |- quiet _ (if ?b then _ else _) => destruct b
    | |- quiet _ (match ?x with _ => _ end) => destruct x
    | |- quiet _ _ => reflexivity
    end.

(** Splits the goal [exitsCleanly m] along the structure of [m]. *)
Ltac settle :=
  repeat match goal with
    | |- exitsCleanly (bind _ _) => apply exitsCleanly_bind; [| intros ?]
    | |- exitsCleanly (try_catch _ _) =>
        apply exitsCleanly_try_catch; [| intros ?]
    | |- exitsCleanly (await _ _) => apply exitsCleanly_await
    | |- exitsCleanly (if ?b then _ else _) => destruct b
    | |- exitsCleanly (match ?x with _ => _ end) => destruct x
    | |- exitsCleanly _ => unfold exitsCleanly; cbn; lia
    end.

Section RunSafety.

Variable w : World.
Variable repo : Repo.t.

Lemma getRepositoryContext_quiet_writes :
  quiet isWrite (getRepositoryContext w repo).
Proof.
  unfold quiet. destruct (getTree w) as [tree | e] eqn:Htree.
  - rewrite (getRepositoryContext_resolved w repo tree Htree).
    cbn [trace fst existsb isWrite orb].
    induction (probed w configFiles) as [| p ps IH]; [reflexivity | exact IH].
  - now rewrite (getRepositoryContext_rejected w repo e Htree).
Qed.

Lemma getRepositoryContext_exitsCleanly :
  exitsCleanly (getRepositoryContext w repo).
Proof.
  unfold exitsCleanly.
  destruct (getRepositoryContext_returns w repo) as (t & context & ->).
  exact I.
Qed.

Lemma generateFields_quiet_writes (fields : list Field) (context : Context.t) :
  quiet isWrite (generateFields w fields context).
Proof.
  unfold generateFields, generateDescription, generateWebsite, generateTopics,
    generateReadme, chat.
  hush.
Qed.

Lemma prepare_quiet_writes : quiet isWrite (prepare w repo).
Proof.
  unfold prepare. apply quiet_bind.
  { unfold quiet. now rewrite checkMissing_eq. }
  intros checked. apply quiet_bind; [unfold chooseFields; hush |].
  intros fields. apply quiet_bind; [reflexivity |].
  intros _. apply quiet_bind; [apply getRepositoryContext_quiet_writes |].
  intros context. apply quiet_bind; [apply generateFields_quiet_writes |].
  intros generatedData. unfold printSummary, whenPresent. hush.
Qed.

(** [prepare] hands the generated data over only after a "yes" to the
    apply question. *)
Lemma prepare_returned (t : list Event) (generatedData : Generated.t) :
  prepare w repo = (t, Returned generatedData) ->
  confirm w AskApply = Resolved true.
Proof.
  intros H. apply (f_equal snd) in H. cbn [snd] in H. revert H.
  unfold prepare. change (@snd (list Event) (outcome Generated.t)) with
    (@result Generated.t).
  do 6 (rewrite result_bind;
          match goal with
          | |- match ?o with _ => _ end = _ -> _ =>
              destruct o; [| discriminate | discriminate]
          end).
  rewrite result_bind. unfold await, result at 1. cbn [snd].
  destruct (confirm w AskApply) as [[] | e]; [reflexivity | |]; discriminate.
Qed.

End RunSafety.

Section RunOutcome.

Variable w : World.
Variable repo : Repo.t.

Lemma main_exitsCleanly : exitsCleanly (main w repo).
Proof.
  unfold main, prepare. apply exitsCleanly_bind.
  - apply exitsCleanly_bind.
    { unfold exitsCleanly. now rewrite checkMissing_eq. }
    intros checked. apply exitsCleanly_bind; [unfold chooseFields; settle |].
    intros fields. apply exitsCleanly_bind; [settle |].
    intros _. apply exitsCleanly_bind;
      [apply getRepositoryContext_exitsCleanly |].
    intros context. apply exitsCleanly_bind.
    { unfold generateFields, generateDescription, generateWebsite,
        generateTopics, generateReadme, chat. settle. }
    intros generatedData. unfold printSummary, whenPresent. settle.
  - intros generatedData.
    unfold applyStep, applyBody, applyMetadata, applyTopics, whenPresent,
      applyReadme.
    settle.
Qed.

End RunOutcome.

(** X1.  Nothing is written to the hosting platform unless the user has
    answered yes to "Apply these changes to the repository?": a run with
    a repository update, a topics replacement or a file write in it is a
    run in which that question was answered yes. *)
Theorem no_write_without_consent (w : World) (repo : Repo.t) :
  existsb isWrite (trace (run w repo)) = true ->
  confirm w AskApply = Resolved true.
Proof.
  unfold run. rewrite trace_try_catch, existsb_app.
  assert (Hh : existsb isWrite
                 match result (main w repo) with
                 | Thrown e =>
                     trace (logError (MsgFatal (message e)) ;;
                            @process_exit unit 1)
                 | _ => []
                 end = false) by now destruct (result (main w repo)).
  rewrite Hh, orb_false_r. unfold main.
  rewrite trace_bind, existsb_app.
  pose proof (prepare_quiet_writes w repo) as Hq. unfold quiet in Hq.
  rewrite Hq. cbn [orb].
  destruct (result (prepare w repo)) as [generatedData | e | c] eqn:Hres;
    [| discriminate | discriminate].
  intros _. apply (prepare_returned w repo (trace (prepare w repo)) generatedData).
  now rewrite <- Hres, <- surjective_run.
Qed.

Lemma no_write_without_consent_witness :
  existsb isWrite (trace (run Examples.fresh Examples.bareRepo)) = true
  /\ confirm Examples.fresh AskApply = Resolved true.
Proof.
  assert (H : existsb isWrite (trace (run Examples.fresh Examples.bareRepo))
              = true) by (vm_compute; reflexivity).
  split; [exact H |].
  exact (no_write_without_consent Examples.fresh Examples.bareRepo H).
Defined.

(** X2.  A run never ends on an uncaught error: it either runs to the end
    of [main] or ends the process with status 0 or 1. *)
Theorem run_exit_status (w : World) (repo : Repo.t) :
  match result (run w repo) with
  | Returned _ => True
  | Exited code => code = 0 \/ code = 1
  | Thrown _ => False
  end
  /\ exitStatus (run w repo) <= 1.
Proof.
  pose proof (main_exitsCleanly w repo) as Hm.
  unfold exitStatus, run, exitsCleanly in *. rewrite result_try_catch.
  destruct (result (main w repo)) as [u | e | c]; cbn.
  - split; [exact I | lia].
  - split; [now right | lia].
  - split; lia.
Qed.

Section RunStages.

Variable w : World.
Variable repo : Repo.t.

Lemma filter_none {A} (p : A -> bool) (l : list A) :
  existsb p l = false -> filter p l = [].
Proof.
  induction l as [| x l IH]; [reflexivity |]. cbn.
  destruct (p x); [discriminate | exact IH].
Qed.

Lemma printSummary_returns (generatedData : Generated.t) :
  result (printSummary generatedData) = Returned tt.
Proof.
  unfold printSummary, whenPresent.
  destruct generatedData as [[[| c d] |] [[| c' u] |] [ts |] [[| c'' r] |]];
    reflexivity.
Qed.

(** [prepare], up to the generators. *)
Lemma prepare_unfold (missing : list string) (hasReadme : bool)
  (fields : list Field) :
  result (checkMissing w repo) = Returned (missing, hasReadme) ->
  (missing = [] -> confirm w AskRegenerate = Resolved true) ->
  checkbox w (fieldChoices missing) = Resolved fields ->
  fields <> [] ->
  exists (tc : list Event) (context : Context.t),
    getRepositoryContext w repo = (tc, Returned context)
    /\ prepare w repo =
         ((GetReadme (Repo.owner_login repo) (Repo.name repo)
             :: gateEvents missing
             ++ [Checkbox (fieldChoices missing); ConsoleLog MsgAnalyzing]
             ++ tc)
            ++ trace (afterContext w fields context),
          result (afterContext w fields context)).
Proof.
  intros Hres Hgate Hbox Hne. apply checkMissing_result in Hres as Hc.
  destruct (getRepositoryContext_returns w repo) as (tc & context & Hctx).
  exists tc, context. split; [exact Hctx |].
  unfold prepare. rewrite (bind_returned _ _ _ _ Hc). cbn [fst].
  pose proof (chooseFields_selected w missing fields Hgate Hbox) as Hchoose.
  destruct fields as [| f fs]; [congruence |].
  rewrite (bind_returned _ _ _ _ Hchoose).
  rewrite (bind_returned (log MsgAnalyzing) _ _ tt eq_refl).
  rewrite (bind_returned _ _ _ _ Hctx).
  fold (afterContext w (f :: fs) context).
  cbn [trace result fst snd app]. f_equal.
  now rewrite <- !app_assoc.
Qed.

(** The head of the prefix built by [prepare_unfold] requests no
    completion and writes nothing. *)
Lemma prefix_silent (missing : list string) (tc : list Event)
  (context : Context.t) :
  getRepositoryContext w repo = (tc, Returned context) ->
  completions
    (GetReadme (Repo.owner_login repo) (Repo.name repo)
       :: gateEvents missing
       ++ [Checkbox (fieldChoices missing); ConsoleLog MsgAnalyzing] ++ tc)
  = [].
Proof.
  intros Hctx. pose proof (getRepositoryContext_silent w repo) as Hs.
  unfold silent in Hs. rewrite Hctx in Hs. cbn [trace fst] in Hs.
  cbn [completions]. rewrite !completions_app, Hs.
  unfold gateEvents. now destruct (List.length missing =? 0)%nat.
Qed.

Lemma selected_head (f : Field) (fs : list Field) :
  selected f (f :: fs) = true.
Proof. unfold selected. cbn. now destruct f. Qed.

Lemma first_selected (fields : list Field) :
  fields <> [] ->
  exists f, find (fun f => selected f fields) allFields = Some f.
Proof.
  destruct fields as [| f fs]; [congruence |]. intros _.
  pose proof (selected_head f fs) as H. unfold allFields. cbn [find].
  destruct f; rewrite ?H;
    repeat match goal with
      | |- context [selected ?g ?l] => destruct (selected g l)
      end;
    eauto.
Qed.

(** With the service down, the first selected generator is the only one
    called. *)
Lemma generateFields_rejected (fields : list Field) (context : Context.t)
  (f : Field) (e : JsError) :
  (forall r, completion w r = Rejected e) ->
  find (fun f => selected f fields) allFields = Some f ->
  generateFields w fields context =
    ([ConsoleLog (MsgGenerating f);
      ChatCompletion {| model := "gpt-4o-mini"; max_tokens := tokenBudget f;
                        purpose := f; prompt_context := context |}],
     Thrown e).
Proof.
  intros Hdown. unfold allFields. cbn [find].
  unfold generateFields, generateDescription, generateWebsite, generateTopics,
    generateReadme, chat.
  destruct (selected FDescription fields);
    [intros [= <-]; now rewrite Hdown |].
  destruct (selected FWebsite fields);
    [intros [= <-]; now rewrite Hdown |].
  destruct (selected FTopics fields);
    [intros [= <-]; now rewrite Hdown |].
  destruct (selected FReadme fields);
    [intros [= <-]; now rewrite Hdown | discriminate].
Qed.

End RunStages.

(** X3.  When the text-generation service rejects its requests, the run
    stops at the first selected generator: that request is the only one
    made, the error is printed as fatal, the process exits with status 1
    and nothing is written to the hosting platform. *)
Theorem generation_failure_aborts (w : World) (repo : Repo.t)
  (missing : list string) (hasReadme : bool) (fields : list Field)
  (e : JsError) :
  result (checkMissing w repo) = Returned (missing, hasReadme) ->
  (missing = [] -> confirm w AskRegenerate = Resolved true) ->
  checkbox w (fieldChoices missing) = Resolved fields ->
  fields <> [] ->
  (forall r, completion w r = Rejected e) ->
  exists (before : list Event) (f : Field) (context : Context.t),
    find (fun f => selected f fields)
      [FDescription; FWebsite; FTopics; FReadme] = Some f
    /\ run w repo =
         (before
            ++ [ConsoleLog (MsgGenerating f);
                ChatCompletion
                  {| model := "gpt-4o-mini"; max_tokens := tokenBudget f;
                     purpose := f; prompt_context := context |};
                ConsoleError (MsgFatal (message e))],
          Exited 1)
    /\ completions (trace (run w repo)) = [f]
    /\ existsb isWrite (trace (run w repo)) = false.
Proof.
  intros Hres Hgate Hbox Hne Hdown.
  destruct (prepare_unfold w repo missing hasReadme fields Hres Hgate Hbox Hne)
    as (tc & context & Hctx & Hprep).
  destruct (first_selected fields Hne) as [f Hf].
  pose proof (generateFields_rejected w fields context f e Hdown Hf) as Hgen.
  assert (Hafter : afterContext w fields context =
                   ([ConsoleLog (MsgGenerating f);
                     ChatCompletion
                       {| model := "gpt-4o-mini"; max_tokens := tokenBudget f;
                          purpose := f; prompt_context := context |}],
                    Thrown e)).
  { unfold afterContext. now rewrite (bind_thrown _ _ _ _ Hgen). }
  rewrite Hafter in Hprep. cbn [trace result fst snd] in Hprep.
  assert (Hrun : run w repo =
                 (((GetReadme (Repo.owner_login repo) (Repo.name repo)
                      :: gateEvents missing
                      ++ [Checkbox (fieldChoices missing);
                          ConsoleLog MsgAnalyzing] ++ tc)
                     ++ [ConsoleLog (MsgGenerating f);
                         ChatCompletion
                           {| model := "gpt-4o-mini";
                              max_tokens := tokenBudget f;
                              purpose := f; prompt_context := context |}])
                    ++ [ConsoleError (MsgFatal (message e))],
                  Exited 1)).
  { unfold run, main. now rewrite Hprep. }
  exists (GetReadme (Repo.owner_login repo) (Repo.name repo)
            :: gateEvents missing
            ++ [Checkbox (fieldChoices missing); ConsoleLog MsgAnalyzing] ++ tc),
    f, context.
  split; [exact Hf |]. split; [| split].
  - rewrite Hrun. now rewrite <- app_assoc.
  - rewrite Hrun. cbn [trace fst].
    rewrite !completions_app, (prefix_silent w repo missing tc context Hctx).
    reflexivity.
  - rewrite Hrun. cbn [trace fst]. rewrite existsb_app.
    pose proof (prepare_quiet_writes w repo) as Hq. unfold quiet in Hq.
    rewrite Hprep in Hq. cbn [trace fst] in Hq. now rewrite Hq.
Qed.

Lemma generation_failure_aborts_witness :
  exists (before : list Event) (context : Context.t),
    run Scenarios.serviceDown Examples.bareRepo =
      (before
         ++ [ConsoleLog (MsgGenerating FDescription);
             ChatCompletion
               {| model := "gpt-4o-mini"; max_tokens := 100;
                  purpose := FDescription; prompt_context := context |};
             ConsoleError (MsgFatal "Service Unavailable")],
       Exited 1)
    /\ existsb isWrite (trace (run Scenarios.serviceDown Examples.bareRepo))
       = false.
Proof.
  destruct (generation_failure_aborts Scenarios.serviceDown Examples.bareRepo
              ["description"; "website"; "topics"; "README.md"] false
              [FDescription; FWebsite; FTopics; FReadme] Examples.unavailable
              eq_refl (fun H => False_ind _ (nil_cons (eq_sym H))) eq_refl
              (fun H => nil_cons (eq_sym H)) (fun _ => eq_refl))
    as (before & f & context & Hf & Hrun & _ & Hw).
  injection Hf as <-.
  exists before, context. split; [exact Hrun | exact Hw].
Defined.

Section BlankAnswers.

Variable w : World.
Variable repo : Repo.t.

Lemma trimStart_blank (s : string) : all is_space s = true -> trimStart s = "".
Proof.
  induction s as [| c r IH]; [reflexivity |].
  cbn [all trimStart]. intros H. apply andb_true_iff in H as [Hc Hr].
  rewrite Hc. now apply IH.
Qed.

Lemma trim_blank (s : string) : all is_space s = true -> trim s = "".
Proof. intros H. unfold trim. now rewrite (trimStart_blank s H). Qed.

Hypothesis blank_service :
  forall r, exists content,
    completion w r = Resolved content /\ all is_space content = true.

Lemma chat_blank (f : Field) (tokens : nat) (context : Context.t) :
  exists content,
    chat w f tokens context =
      ([ChatCompletion {| model := "gpt-4o-mini"; max_tokens := tokens;
                          purpose := f; prompt_context := context |}],
       Returned content)
    /\ trim content = "".
Proof.
  unfold chat.
  destruct (blank_service {| model := "gpt-4o-mini"; max_tokens := tokens;
                             purpose := f; prompt_context := context |})
    as (content & Hc & Hb).
  exists content. rewrite Hc. split; [reflexivity | now apply trim_blank].
Qed.

Lemma generateDescription_blank (context : Context.t) :
  result (generateDescription w context) = Returned "".
Proof.
  unfold generateDescription.
  destruct (chat_blank FDescription 100 context) as (c & -> & H).
  cbn [bind ret result snd]. unfold descriptionOfText. now rewrite H.
Qed.

Lemma generateWebsite_blank (context : Context.t) :
  result (generateWebsite w context) = Returned "".
Proof.
  unfold generateWebsite.
  destruct (chat_blank FWebsite 100 context) as (c & -> & H).
  cbn [bind ret result snd]. unfold websiteOfText. now rewrite H.
Qed.

Lemma generateTopics_blank (context : Context.t) :
  result (generateTopics w context) = Returned [].
Proof.
  unfold generateTopics.
  destruct (chat_blank FTopics 150 context) as (c & -> & H).
  cbn [bind ret result snd]. unfold topicsOfText. now rewrite H.
Qed.

Lemma generateReadme_blank (context : Context.t) :
  result (generateReadme w context) = Returned "".
Proof.
  unfold generateReadme.
  destruct (chat_blank FReadme 2000 context) as (c & -> & H).
  cbn [bind ret result snd]. unfold readmeOfText. now rewrite H.
Qed.

Lemma generateFields_blank (fields : list Field) (context : Context.t) :
  exists t,
    generateFields w fields context = (t, Returned (blankData fields)).
Proof.
  unfold generateFields, blankData.
  rewrite (surjective_run (generateDescription w context)),
    (surjective_run (generateWebsite w context)),
    (surjective_run (generateTopics w context)),
    (surjective_run (generateReadme w context)).
  rewrite generateDescription_blank, generateWebsite_blank,
    generateTopics_blank, generateReadme_blank.
  destruct (selected FDescription fields), (selected FWebsite fields),
    (selected FTopics fields), (selected FReadme fields);
    eexists; reflexivity.
Qed.

Lemma applyStep_blank (fields : list Field) :
  applyStep w repo (blankData fields) =
    if selected FTopics fields
    then match replaceAllTopics w [] with
         | Resolved _ =>
             ([ReplaceAllTopics (Repo.owner_login repo) (Repo.name repo) [];
               ConsoleLog MsgUpdatedTopics; ConsoleLog MsgAllApplied],
              Returned tt)
         | Rejected e =>
             ([ReplaceAllTopics (Repo.owner_login repo) (Repo.name repo) [];
               ConsoleError (MsgApplyError (message e))],
              Exited 1)
         end
    else ([ConsoleLog MsgAllApplied], Returned tt).
Proof.
  unfold applyStep, applyBody, applyMetadata, applyTopics, blankData.
  destruct (selected FDescription fields), (selected FWebsite fields),
    (selected FTopics fields), (selected FReadme fields);
    cbn; try reflexivity;
    now destruct (replaceAllTopics w []).
Qed.

Lemma run_blank (missing : list string) (hasReadme : bool)
  (fields : list Field) :
  result (checkMissing w repo) = Returned (missing, hasReadme) ->
  (missing = [] -> confirm w AskRegenerate = Resolved true) ->
  checkbox w (fieldChoices missing) = Resolved fields ->
  fields <> [] ->
  confirm w AskApply = Resolved true ->
  exists before,
    existsb isWrite before = false
    /\ run w repo =
         ((before ++ [Confirm AskApply; ConsoleLog MsgApplying])
            ++ trace (applyStep w repo (blankData fields)),
          result (applyStep w repo (blankData fields))).
Proof.
  intros Hres Hgate Hbox Hne Hyes.
  destruct (prepare_unfold w repo missing hasReadme fields Hres Hgate Hbox Hne)
    as (tc & context & Hctx & Hprep).
  destruct (generateFields_blank fields context) as [tg Hgen].
  assert (Hafter : afterContext w fields context =
                   ((tg ++ trace (printSummary (blankData fields)))
                      ++ [Confirm AskApply; ConsoleLog MsgApplying],
                    Returned (blankData fields))).
  { unfold afterContext. rewrite (bind_returned _ _ _ _ Hgen).
    rewrite (bind_returned (printSummary (blankData fields)) _
               (trace (printSummary (blankData fields))) tt)
      by (rewrite <- (printSummary_returns (blankData fields));
          apply surjective_run).
    rewrite Hyes. cbn [trace result fst snd await bind negb log ret app].
    now rewrite <- app_assoc. }
  rewrite Hafter in Hprep. cbn [trace result fst snd] in Hprep.
  rewrite app_assoc in Hprep.
  pose proof (prepare_quiet_writes w repo) as Hq. unfold quiet in Hq.
  rewrite Hprep in Hq. cbn [trace fst] in Hq.
  rewrite existsb_app in Hq. apply orb_false_iff in Hq as [Hq _].
  eexists. split; [exact Hq |].
  unfold run, main. rewrite (bind_returned _ _ _ _ Hprep).
  rewrite applyStep_blank.
  destruct (selected FTopics fields); [| reflexivity].
  now destruct (replaceAllTopics w []).
Qed.

End BlankAnswers.

(** X4.  When the user answers no to the apply question, the run prints
    "Changes cancelled", exits with status 0 and writes nothing. *)
Theorem refusal_cancels (w : World) (repo : Repo.t)
  (missing : list string) (hasReadme : bool) (fields : list Field) :
  result (checkMissing w repo) = Returned (missing, hasReadme) ->
  (missing = [] -> confirm w AskRegenerate = Resolved true) ->
  checkbox w (fieldChoices missing) = Resolved fields ->
  fields <> [] ->
  (forall r, exists content, completion w r = Resolved content) ->
  confirm w AskApply = Resolved false ->
  (exists before,
     run w repo =
       (before ++ [Confirm AskApply; ConsoleLog MsgCancelled], Exited 0))
  /\ existsb isWrite (trace (run w repo)) = false.
Proof.
  intros Hres Hgate Hbox Hne Hall Hno.
  destruct (prepare_unfold w repo missing hasReadme fields Hres Hgate Hbox Hne)
    as (tc & context & Hctx & Hprep).
  destruct (generateFields_completions w fields context Hall)
    as (tg & generatedData & Hgen & _).
  assert (Hafter : afterContext w fields context =
                   ((tg ++ trace (printSummary generatedData))
                      ++ [Confirm AskApply; ConsoleLog MsgCancelled],
                    Exited 0)).
  { unfold afterContext. rewrite (bind_returned _ _ _ _ Hgen).
    rewrite (bind_returned (printSummary generatedData) _
               (trace (printSummary generatedData)) tt)
      by (rewrite <- (printSummary_returns generatedData);
          apply surjective_run).
    rewrite Hno. cbn [trace result fst snd await bind negb log ret app].
    now rewrite <- app_assoc. }
  rewrite Hafter in Hprep. cbn [trace result fst snd] in Hprep.
  rewrite app_assoc in Hprep.
  assert (Hrun : trace (run w repo) = trace (prepare w repo)
                 /\ result (run w repo) = Exited 0).
  { unfold run, main. now rewrite Hprep. }
  destruct Hrun as [Ht Hr]. split.
  - eexists. rewrite (surjective_run (run w repo)), Ht, Hr, Hprep.
    reflexivity.
  - rewrite Ht. apply prepare_quiet_writes.
Qed.

Lemma refusal_cancels_witness :
  (exists before,
     run Scenarios.cancelled Examples.bareRepo =
       (before ++ [Confirm AskApply; ConsoleLog MsgCancelled], Exited 0))
  /\ existsb isWrite (trace (run Scenarios.cancelled Examples.bareRepo))
     = false.
Proof.
  apply (refusal_cancels Scenarios.cancelled Examples.bareRepo
           ["description"; "website"; "topics"; "README.md"] false
           [FDescription; FWebsite; FTopics; FReadme]).
  - reflexivity.
  - intros H. discriminate H.
  - reflexivity.
  - intros H. discriminate H.
  - intros r. cbn. unfold Examples.demoCompletion.
    destruct (purpose r); eexists; reflexivity.
  - reflexivity.
Defined.

(** X5.  The apply step writes in a fixed order, each call at most once:
    the repository update when a description or a website was generated,
    then the topics replacement when topics were generated, then the
    README write when a README was generated; a call is made only when
    the calls before it went through. *)
Theorem apply_step_write_order (w : World) (repo : Repo.t)
  (generatedData : Generated.t) :
  writes (trace (applyStep w repo generatedData)) =
    let update :=
      if present (Generated.description generatedData)
         || present (Generated.website generatedData)
      then [ReposUpdate (updateData repo generatedData)] else [] in
    let topics :=
      match Generated.topics generatedData with
      | Some names =>
          [ReplaceAllTopics (Repo.owner_login repo) (Repo.name repo) names]
      | None => []
      end in
    let readme :=
      match Generated.readme generatedData with
      | Some text =>
          if truthy text
          then [CreateOrUpdateFileContents (readmeRequest w repo text)]
          else []
      | None => []
      end in
    match result (applyMetadata w repo generatedData) with
    | Returned _ =>
        match result (applyTopics w repo generatedData) with
        | Returned _ => update ++ topics ++ readme
        | _ => update ++ topics
        end
    | _ => update
    end.
Proof.
  unfold applyStep, applyBody, applyMetadata, applyTopics, whenPresent.
  destruct generatedData as [d u ts r]. cbn [Generated.description
    Generated.website Generated.topics Generated.readme].
  destruct (present d || present u);
    [destruct (repos_update w _) |];
    (destruct ts as [names |];
     [destruct (replaceAllTopics w names) |]);
    (destruct r as [text |];
     [destruct (truthy text);
      [rewrite applyReadme_eq;
       destruct (createOrUpdateFileContents w (readmeRequest w repo text)) |] |]);
    reflexivity.
Qed.



(** X7.  Topics that come back empty are still applied: when topics were
    selected and the service answers with white space only, the one
    write of the run replaces the topics of the repository by the empty
    list. *)
Theorem empty_topics_are_applied (w : World) (repo : Repo.t)
  (missing : list string) (hasReadme : bool) (fields : list Field) :
  result (checkMissing w repo) = Returned (missing, hasReadme) ->
  (missing = [] -> confirm w AskRegenerate = Resolved true) ->
  checkbox w (fieldChoices missing) = Resolved fields ->
  selected FTopics fields = true ->
  (forall r, exists content,
     completion w r = Resolved content /\ all is_space content = true) ->
  confirm w AskApply = Resolved true ->
  writes (trace (run w repo)) =
    [ReplaceAllTopics (Repo.owner_login repo) (Repo.name repo) []].
Proof.
  intros Hres Hgate Hbox Hsel Hblank Hyes.
  assert (Hne : fields <> []) by (intros ->; discriminate Hsel).
  destruct (run_blank w repo Hblank missing hasReadme fields
              Hres Hgate Hbox Hne Hyes) as (before & Hq & Hrun).
  rewrite applyStep_blank, Hsel in Hrun.
  rewrite Hrun. unfold writes. cbn [trace fst].
  rewrite !filter_app, (filter_none isWrite before Hq).
  now destruct (replaceAllTopics w []).
Qed.

Lemma empty_topics_are_applied_witness :
  writes (trace (run (Scenarios.blankService [FTopics]) Examples.bareRepo)) =
    [ReplaceAllTopics "octo" "demo" []].
Proof.
  apply (empty_topics_are_applied (Scenarios.blankService [FTopics])
           Examples.bareRepo
           ["description"; "website"; "topics"; "README.md"] false [FTopics]).
  - reflexivity.
  - intros H. discriminate H.
  - reflexivity.
  - reflexivity.
  - intros r. exists "  ". split; reflexivity.
  - reflexivity.
Defined.

(* ================================================================= *)
(** ** More on the context builder *)

(** X8.  The context builder prints its warning exactly when the tree
    fetch is rejected: a manifest or config file that cannot be fetched,
    and a manifest that does not parse, pass without a word. *)
Theorem context_warning_iff (w : World) (repo : Repo.t) :
  In (ConsoleLog MsgContextWarning) (trace (getRepositoryContext w repo))
  <-> exists e, getTree w = Rejected e.
Proof.
  destruct (getTree w) as [tree | e] eqn:Htree.
  - rewrite (getRepositoryContext_resolved w repo tree Htree).
    cbn [trace fst]. split.
    + intros [H | [H | H]]; try discriminate.
      apply in_map_iff in H as (p & H & _). discriminate.
    + intros (e & H). discriminate.
  - rewrite (getRepositoryContext_rejected w repo e Htree). split.
    + intros _. now exists e.
    + intros _. cbn. auto.
Qed.

(** X9.  The file list of the context never has more than 100 paths;
    each of them is the path of a blob of the fetched tree; and when the
    tree has at most 100 blobs, the list is all of their paths, in tree
    order. *)
Theorem context_files_bounded (w : World) (repo : Repo.t) :
  exists t context,
    getRepositoryContext w repo = (t, Returned context)
    /\ List.length (Context.files context) <= 100
    /\ (forall p, In p (Context.files context) ->
          exists tree item,
            getTree w = Resolved tree /\ In item tree
            /\ TreeItem.type item = "blob" /\ TreeItem.path item = p)
    /\ (forall tree,
          getTree w = Resolved tree ->
          List.length (filter isBlob tree) <= 100 ->
          Context.files context = map TreeItem.path (filter isBlob tree)).
Proof.
  destruct (getTree w) as [tree | e] eqn:Htree.
  - rewrite (getRepositoryContext_resolved w repo tree Htree).
    eexists _, _. split; [reflexivity |].
    cbn [Context.files gathered]. split; [apply firstn_le_length |]. split.
    + intros p Hp. apply In_firstn, in_map_iff in Hp as (item & <- & Hitem).
      apply filter_In in Hitem as [Hin Hblob].
      exists tree, item. repeat split; try assumption.
      now apply String.eqb_eq.
    + intros tree' [= <-] Hlen. apply firstn_all2. now rewrite length_map.
  - rewrite (getRepositoryContext_rejected w repo e Htree).
    eexists _, _. split; [reflexivity |].
    cbn [Context.files seedContext]. split; [cbn; lia |]. split.
    + intros p [].
    + intros tree' H. discriminate H.
Qed.

Lemma context_files_bounded_witness :
  exists t context,
    getRepositoryContext Examples.fresh Examples.bareRepo
      = (t, Returned context)
    /\ Context.files context = ["Cargo.toml"; "go.mod"; "pom.xml"].
Proof.
  destruct (context_files_bounded Examples.fresh Examples.bareRepo)
    as (t & context & Heq & _ & _ & Hall).
  exists t, context. split; [exact Heq |].
  apply (Hall Examples.demoTree); [reflexivity | cbn; lia].
Defined.

(* ================================================================= *)
(** ** More on the generated text *)

Section MoreStrings.

Lemma all_append (p : ascii -> bool) (a b : string) :
  all p (a ++ b)%string = all p a && all p b.
Proof.
  induction a as [| c a IH]; [reflexivity |].
  cbn [append all]. now rewrite IH, andb_assoc.
Qed.

Lemma trimStart_split (s : string) :
  exists lead, s = (lead ++ trimStart s)%string /\ all is_space lead = true.
Proof.
  induction s as [| c r (lead & Hr & Hl)]; [now exists "" |].
  cbn [trimStart]. destruct (is_space c) eqn:Hc.
  - exists (String c lead). cbn [append all]. rewrite Hc, Hl, <- Hr. now split.
  - now exists "".
Qed.

Lemma trimStart_first (s : string) :
  match firstChar (trimStart s) with
  | Some c => is_space c = false
  | None => True
  end.
Proof.
  induction s as [| c r IH]; [exact I |].
  cbn [trimStart]. destruct (is_space c) eqn:Hc; [exact IH | exact Hc].
Qed.

Lemma trimEnd_split (s : string) :
  exists tail, s = (trimEnd s ++ tail)%string /\ all is_space tail = true.
Proof.
  induction s as [| c r (tail & Hr & Ht)]; [now exists "" |].
  destruct (trimEnd_cases c r) as [[Hc Hblank] | Hcons].
  - exists (String c r). rewrite (trimEnd_cons_blank c r Hc Hblank).
    split; [reflexivity |]. cbn [all]. rewrite Hc.
    rewrite Hblank in Hr. cbn [append] in Hr. now rewrite Hr.
  - exists tail. rewrite Hcons. cbn [append]. now rewrite <- Hr.
Qed.

Lemma trimEnd_last (s : string) :
  match lastChar (trimEnd s) with
  | Some c => is_space c = false
  | None => True
  end.
Proof.
  induction s as [| c r IH]; [exact I |].
  cbn [trimEnd]. destruct (trimEnd r) as [| c' t] eqn:Hr.
  - destruct (is_space c) eqn:Hc; [exact I | exact Hc].
  - exact IH.
Qed.

Lemma trimEnd_first (s : string) :
  trimEnd s = "" \/ firstChar (trimEnd s) = firstChar s.
Proof.
  destruct s as [| c r]; [now left |].
  destruct (trimEnd_cases c r) as [[Hc Hblank] | Hcons].
  - left. now apply trimEnd_cons_blank.
  - right. now rewrite Hcons.
Qed.

Lemma all_trimStart (p : ascii -> bool) (s : string) :
  all p s = true -> all p (trimStart s) = true.
Proof.
  intros H. destruct (trimStart_split s) as (lead & Hs & _).
  rewrite Hs, all_append in H. now apply andb_true_iff in H as [_ H].
Qed.

Lemma all_trimEnd (p : ascii -> bool) (s : string) :
  all p s = true -> all p (trimEnd s) = true.
Proof.
  intros H. destruct (trimEnd_split s) as (tail & Hs & _).
  rewrite Hs, all_append in H. now apply andb_true_iff in H as [H _].
Qed.

Lemma toLowerChar_comma (c : ascii) :
  Ascii.eqb (toLowerChar c) "," = Ascii.eqb c ",".
Proof. destruct c as [[] [] [] [] [] [] [] []]; reflexivity. Qed.

Lemma lacks_toLowerCase (s : string) :
  lacks "," s = true -> lacks "," (toLowerCase s) = true.
Proof.
  unfold lacks. induction s as [| c r IH]; [reflexivity |].
  cbn [all toLowerCase]. intros H. apply andb_true_iff in H as [Hc Hr].
  now rewrite toLowerChar_comma, Hc, IH.
Qed.

Lemma lacks_replaceSpaceRuns (b : bool) (s : string) :
  lacks "," s = true -> lacks "," (replaceSpaceRuns b s) = true.
Proof.
  unfold lacks. revert b. induction s as [| c r IH]; intros b H;
    [reflexivity |].
  cbn [all] in H. apply andb_true_iff in H as [Hc Hr].
  cbn [replaceSpaceRuns]. destruct (is_space c).
  - destruct b; [now apply IH |]. cbn [all]. now rewrite IH.
  - cbn [all]. now rewrite Hc, IH.
Qed.

Lemma split_lacks (sep : ascii) (s : string) :
  Forall (fun p => lacks sep p = true) (split sep s).
Proof.
  unfold lacks. induction s as [| c r IH]; [now repeat constructor |].
  rewrite split_cons. destruct (Ascii.eqb c sep) eqn:Hc.
  - now constructor.
  - destruct (split sep r) as [| p ps]; [now repeat constructor; cbn; rewrite Hc |].
    inversion IH as [| ? ? Hp Hps]; subst.
    constructor; [| assumption]. cbn [all]. now rewrite Hc, Hp.
Qed.

Lemma split_without (sep : ascii) (t : string) :
  lacks sep t = true -> split sep t = [t].
Proof.
  unfold lacks. induction t as [| c r IH]; [reflexivity |].
  cbn [all]. intros H. apply andb_true_iff in H as [Hc Hr].
  apply negb_true_iff in Hc. rewrite split_cons, Hc, (IH Hr). reflexivity.
Qed.

Lemma split_append (sep : ascii) (t r : string) :
  lacks sep t = true ->
  split sep (t ++ String sep r)%string = t :: split sep r.
Proof.
  unfold lacks. induction t as [| c t IH].
  - intros _. cbn [append]. now rewrite split_cons, Ascii.eqb_refl.
  - cbn [all append]. intros H. apply andb_true_iff in H as [Hc Ht].
    apply negb_true_iff in Hc. now rewrite split_cons, Hc, (IH Ht).
Qed.

Lemma split_total (sep : ascii) (s : string) :
  totalLength (split sep s) <= String.length s.
Proof.
  induction s as [| c r IH]; [cbn; lia |].
  rewrite split_cons. destruct (Ascii.eqb c sep).
  - cbn [totalLength String.length]. lia.
  - destruct (split sep r) as [| p ps];
      cbn [totalLength String.length] in *; lia.
Qed.

Lemma totalLength_firstn (n : nat) (xs : list string) :
  totalLength (firstn n xs) <= totalLength xs.
Proof.
  revert xs.
  induction n as [| n IH]; intros [| x xs]; cbn [firstn totalLength]; try lia.
  specialize (IH xs). lia.
Qed.

End MoreStrings.

Section TopicsAgain.

Lemma topicsOfText_from_piece (content t : string) :
  In t (topicsOfText content) ->
  keepTopic t = true
  /\ exists piece, In piece (split "," (trim content)) /\ t = normalizeTopic piece.
Proof.
  unfold topicsOfText. intros H.
  apply In_firstn, filter_In in H as [H K]. split; [assumption |].
  apply in_map_iff in H as (piece & <- & Hin). now exists piece.
Qed.

Lemma normalizeTopic_lacks_comma (piece : string) :
  lacks "," piece = true -> lacks "," (normalizeTopic piece) = true.
Proof.
  intros H. unfold normalizeTopic, trim.
  apply lacks_replaceSpaceRuns, lacks_toLowerCase.
  unfold lacks in *. now apply all_trimEnd, all_trimStart.
Qed.

Lemma topicsOfText_lacks_comma (content : string) :
  Forall (fun t => lacks "," t = true) (topicsOfText content).
Proof.
  apply Forall_forall. intros t H.
  apply topicsOfText_from_piece in H as [_ (piece & Hin & ->)].
  apply normalizeTopic_lacks_comma.
  pose proof (split_lacks "," (trim content)) as Hall.
  rewrite Forall_forall in Hall. now apply Hall.
Qed.

Lemma join_cons (sep x y : string) (rest : list string) :
  join sep (x :: y :: rest) = (x ++ sep ++ join sep (y :: rest))%string.
Proof. reflexivity. Qed.

(** Splitting a ", "-joined list of comma-free strings gives the strings
    back, up to the space that follows each comma. *)
Lemma split_join (ts : list string) :
  ts <> [] ->
  Forall (fun t => lacks "," t = true) ts ->
  map trimStart (split "," (join ", " ts)) = map trimStart ts.
Proof.
  induction ts as [| t rest IH]; [congruence |].
  intros _ Hall. inversion Hall as [| ? ? Ht Hrest]; subst.
  destruct rest as [| t' rest].
  - cbn [join String.concat]. now rewrite (split_without "," t Ht).
  - rewrite join_cons. cbn [append].
    rewrite (split_append "," t _ Ht), split_cons. cbn [Ascii.eqb Bool.eqb].
    specialize (IH ltac:(discriminate) Hrest).
    destruct (split "," (join ", " (t' :: rest))) as [| p ps] eqn:E;
      [now apply split_not_nil in E |].
    cbn [map] in *. injection IH as Hp Hps.
    f_equal. f_equal; [| assumption].
    cbn [trimStart]. now rewrite Hp.
Qed.

Lemma filter_all {A} (p : A -> bool) (l : list A) :
  Forall (fun x => p x = true) l -> filter p l = l.
Proof.
  induction 1 as [| x l Hx _ IH]; [reflexivity |]. cbn. now rewrite Hx, IH.
Qed.

Lemma map_fixed {A} (f : A -> A) (l : list A) :
  Forall (fun x => f x = x) l -> map f l = l.
Proof.
  induction 1 as [| x l Hx _ IH]; [reflexivity |]. cbn. now rewrite Hx, IH.
Qed.

Lemma topics_parse_back (ts : list string) :
  List.length ts <= 10 ->
  Forall (fun t => keepTopic t = true) ts ->
  Forall (fun t => normalizeTopic t = t) ts ->
  Forall (fun t => lacks "," t = true) ts ->
  topicsOfText (join ", " ts) = ts.
Proof.
  intros Hlen Hkeep Hfix Hcomma.
  destruct ts as [| t rest]; [reflexivity |].
  rewrite topicsOfText_refines. unfold topicsOfText_spec.
  assert (Hmap : forall l,
             map normalizeTopic l =
             map (fun u => replaceSpaceRuns false (toLowerCase (trimEnd u)))
               (map trimStart l)).
  { intros l. now rewrite map_map. }
  rewrite Hmap, split_join, <- Hmap by (assumption || discriminate).
  rewrite (map_fixed _ _ Hfix), (filter_all _ _ Hkeep).
  now apply firstn_all2.
Qed.

End TopicsAgain.

(** X10.  The topics line that is printed parses back to the topics: the
    list returned by [generateTopics], joined with ", " as in the
    messages, is turned by the same post-processing into that list
    again. *)
Theorem topics_round_trip (content : string) :
  topicsOfText (join ", " (topicsOfText content)) = topicsOfText content.
Proof.
  apply topics_parse_back.
  - unfold topicsOfText. apply firstn_le_length.
  - apply Forall_forall. intros t H.
    now apply topicsOfText_from_piece in H as [K _].
  - apply Forall_forall. intros t H.
    apply topicsOfText_from_piece in H as [_ (piece & _ & ->)].
    apply normalizeTopic_fixes;
      [apply normalizeTopic_no_space | apply normalizeTopic_lowercase].
  - apply topicsOfText_lacks_comma.
Qed.

(** X11.  No topic returned by [generateTopics] contains a comma. *)
Theorem topics_have_no_comma (content : string) :
  Forall (fun t => lacks "," t = true) (topicsOfText content).
Proof. apply topicsOfText_lacks_comma. Qed.

Section Trimming.

(** What [trim] does, said without [trim]: the text is white space, the
    trimmed text, white space, and the trimmed text neither starts nor
    ends with white space. *)
Lemma trim_characterized (content : string) :
  (exists lead tail,
     content = (lead ++ trim content ++ tail)%string
     /\ all is_space lead = true
     /\ all is_space tail = true)
  /\ match firstChar (trim content) with
     | Some c => is_space c = false
     | None => True
     end
  /\ match lastChar (trim content) with
     | Some c => is_space c = false
     | None => True
     end.
Proof.
  unfold trim. split; [| split].
  - destruct (trimStart_split content) as (lead & Hs & Hl).
    destruct (trimEnd_split (trimStart content)) as (tail & He & Ht).
    exists lead, tail. repeat split; try assumption.
    now rewrite <- He.
  - destruct (trimEnd_first (trimStart content)) as [-> | ->];
      [exact I | apply trimStart_first].
  - apply trimEnd_last.
Qed.

(** A text trims to nothing exactly when it is white space only. *)
Lemma trim_blank_iff (s : string) : trim s = "" <-> all is_space s = true.
Proof.
  split; [| apply trim_blank].
  intros H. destruct (trim_characterized s) as [(lead & tail & Hs & Hl & Ht) _].
  rewrite H in Hs. cbn [append] in Hs. rewrite Hs, all_append, Hl, Ht.
  reflexivity.
Qed.

(** The test [!x || x.trim() === ""] on a text that is there. *)
Lemma blank_some_iff (d : string) :
  blank (Some d) = true <-> all is_space d = true.
Proof. rewrite blank_iff. apply trim_blank_iff. Qed.

End Trimming.

(** C2.  Whatever text the service returns, [generateDescription]
    returns that text trimmed and cut to its first 350 characters.  The
    trimmed text is the text without the white space that surrounds it:
    the text is white space, the trimmed text, white space, and the
    trimmed text neither starts nor ends with white space.  The result
    is the prefix of the trimmed text of length the smaller of 350 and
    the trimmed length, hence never longer than 350. *)
Theorem generateDescription_truncates :
  (forall (w : World) (context : Context.t),
     let request := {| model := "gpt-4o-mini"; max_tokens := 100;
                       purpose := FDescription; prompt_context := context |} in
     generateDescription w context =
       ([ChatCompletion request],
        match completion w request with
        | Resolved content => Returned (substring 0 350 (trim content))
        | Rejected e => Thrown e
        end))
  /\ (forall content : string,
        String.length (descriptionOfText content) <= 350
        /\ String.length (descriptionOfText content)
           = Nat.min 350 (String.length (trim content))
        /\ String.prefix (descriptionOfText content) (trim content) = true)
  /\ (forall content : string,
        (exists lead tail,
           content = (lead ++ trim content ++ tail)%string
           /\ all is_space lead = true
           /\ all is_space tail = true)
        /\ match firstChar (trim content) with
           | Some c => is_space c = false
           | None => True
           end
        /\ match lastChar (trim content) with
           | Some c => is_space c = false
           | None => True
           end
        /\ match firstChar (descriptionOfText content) with
           | Some c => is_space c = false
           | None => True
           end)
  /\ descriptionOfText "  A demo repository.  " = "A demo repository."
  /\ descriptionOfText (String "009" (String "010" " x y  ")) = "x y".
Proof.
  split; [| split; [| split; [| split]]].
  - intros w context request. unfold generateDescription, chat. fold request.
    unfold await, bind, ret. now destruct (completion w request).
  - intros content. unfold descriptionOfText, substringTo.
    rewrite substring_0_length. repeat split.
    + apply Nat.le_min_l.
    + apply substring_0_prefix.
  - intros content.
    destruct (trim_characterized content) as (Hsplit & Hfirst & Hlast).
    repeat split; try assumption.
    unfold descriptionOfText, substringTo.
    destruct (trim content) as [| c t]; [exact I | exact Hfirst].
  - reflexivity.
  - reflexivity.
Qed.

(** C5.  The gap detector makes one README lookup and always returns.
    In the list it returns, [description] is present exactly when the
    repository description is missing or blank after trimming; [website]
    exactly when the homepage is; [topics] exactly when the topics are
    missing or empty; and [README.md] exactly when the lookup fails with
    status 404; nothing else is in the list.  With no description, no
    homepage, no topics and a 404, the list is all four.  Blank after
    trimming means made of white space only: a description that is there
    is listed exactly when each of its characters is white space, and so
    is a homepage. *)
Theorem gap_detector (w : World) (repo : Repo.t) :
  exists (missing : list string) (hasReadme : bool),
    checkMissing w repo =
      ([GetReadme (Repo.owner_login repo) (Repo.name repo)],
       Returned (missing, hasReadme))
    /\ (In "description" missing
        <-> match Repo.description repo with
            | None => True
            | Some d => trim d = ""
            end)
    /\ (In "website" missing
        <-> match Repo.homepage repo with
            | None => True
            | Some h => trim h = ""
            end)
    /\ (In "topics" missing
        <-> Repo.topics repo = None \/ Repo.topics repo = Some [])
    /\ (In "README.md" missing
        <-> exists e, getReadme_inspect w = Rejected e /\ status e = Some 404)
    /\ (forall x, In x missing ->
                  In x ["description"; "website"; "topics"; "README.md"])
    /\ (Repo.description repo = None ->
        Repo.homepage repo = None ->
        Repo.topics repo = None ->
        (exists e, getReadme_inspect w = Rejected e /\ status e = Some 404) ->
        missing = ["description"; "website"; "topics"; "README.md"])
    /\ (forall d, Repo.description repo = Some d ->
                  (In "description" missing <-> all is_space d = true))
    /\ (forall h, Repo.homepage repo = Some h ->
                  (In "website" missing <-> all is_space h = true)).
Proof.
  rewrite checkMissing_eq, missingMetadata_eq.
  eexists _, _. split; [reflexivity |].
  rewrite <- (blank_iff (Repo.description repo)).
  rewrite <- (blank_iff (Repo.homepage repo)).
  rewrite <- (noTopics_iff repo), <- (readmeNotFound_iff w).
  split; [| split; [| split; [| split; [| split; [| split; [| split]]]]]].
  1-4: rewrite !in_app_iff, !In_flag; intuition congruence.
  - intros x. rewrite !in_app_iff, !In_flag. simpl. intuition.
  - intros Hd Hh Ht Hr.
    assert (Hd' : blank (Repo.description repo) = true)
      by (apply blank_iff; now rewrite Hd).
    assert (Hh' : blank (Repo.homepage repo) = true)
      by (apply blank_iff; now rewrite Hh).
    assert (Ht' : noTopics repo = true) by (apply noTopics_iff; now left).
    now rewrite Hd', Hh', Ht', Hr.
  - intros d Hd. rewrite Hd, <- blank_some_iff.
    rewrite !in_app_iff, !In_flag. intuition congruence.
  - intros h Hh. rewrite Hh, <- blank_some_iff.
    rewrite !in_app_iff, !In_flag. intuition congruence.
Qed.

Lemma gap_detector_witness :
  (exists (missing : list string) (hasReadme : bool),
     checkMissing Examples.fresh Examples.bareRepo =
       ([GetReadme "octo" "demo"], Returned (missing, hasReadme))
     /\ missing = ["description"; "website"; "topics"; "README.md"])
  /\ (exists (missing : list string) (hasReadme : bool),
        checkMissing Examples.withReadme Scenarios.blankRepo =
          ([GetReadme "octo" "demo"], Returned (missing, hasReadme))
        /\ In "description" missing
        /\ In "website" missing
        /\ ~ In "README.md" missing)
  /\ (exists (missing : list string) (hasReadme : bool),
        checkMissing Examples.withReadme Examples.fullRepo =
          ([GetReadme "octo" "demo"], Returned (missing, hasReadme))
        /\ ~ In "description" missing
        /\ ~ In "website" missing).
Proof.
  split; [| split].
  - destruct (gap_detector Examples.fresh Examples.bareRepo)
      as (missing & hasReadme & Heq & _ & _ & _ & _ & _ & Hall & _).
    exists missing, hasReadme. split; [exact Heq |].
    apply Hall; try reflexivity.
    exists Examples.notFound. split; reflexivity.
  - destruct (gap_detector Examples.withReadme Scenarios.blankRepo)
      as (missing & hasReadme & Heq & _ & _ & _ & Hr & _ & _ & Hd & Hh).
    exists missing, hasReadme. split; [exact Heq |]. split; [| split].
    + apply (Hd "   "); reflexivity.
    + apply (Hh (String "009" " ")); reflexivity.
    + intros H. apply Hr in H as (e & He & _). discriminate He.
  - destruct (gap_detector Examples.withReadme Examples.fullRepo)
      as (missing & hasReadme & Heq & Hd & Hh & _).
    exists missing, hasReadme. split; [exact Heq |]. split.
    + intros H. apply Hd in H. discriminate H.
    + intros H. apply Hh in H. discriminate H.
Defined.

(** X13.  [generateWebsite] and [generateReadme] return the text of the
    service without its leading and trailing white space and otherwise
    as it is, with no other check: the text is some white space, the
    result, and some white space again, and the result neither starts nor
    ends with white space. *)
Theorem website_is_trimmed :
  (forall (w : World) (context : Context.t),
     let request := {| model := "gpt-4o-mini"; max_tokens := 100;
                       purpose := FWebsite; prompt_context := context |} in
     generateWebsite w context =
       ([ChatCompletion request],
        match completion w request with
        | Resolved content => Returned (websiteOfText content)
        | Rejected e => Thrown e
        end))
  /\ (forall (w : World) (context : Context.t),
        let request := {| model := "gpt-4o-mini"; max_tokens := 2000;
                          purpose := FReadme; prompt_context := context |} in
        generateReadme w context =
          ([ChatCompletion request],
           match completion w request with
           | Resolved content => Returned (readmeOfText content)
           | Rejected e => Thrown e
           end))
  /\ (forall content : string,
        readmeOfText content = websiteOfText content
        /\ (exists lead tail,
              content = (lead ++ websiteOfText content ++ tail)%string
              /\ all is_space lead = true
              /\ all is_space tail = true)
        /\ match firstChar (websiteOfText content) with
           | Some c => is_space c = false
           | None => True
           end
        /\ match lastChar (websiteOfText content) with
           | Some c => is_space c = false
           | None => True
           end)
  /\ websiteOfText (String "009" " https://x.dev/a b  ") = "https://x.dev/a b".
Proof.
  split; [| split; [| split]].
  - intros w context request. unfold generateWebsite, chat. fold request.
    unfold await, bind, ret. now destruct (completion w request).
  - intros w context request. unfold generateReadme, chat. fold request.
    unfold await, bind, ret. now destruct (completion w request).
  - intros content. unfold readmeOfText, websiteOfText.
    split; [reflexivity |]. apply trim_characterized.
  - reflexivity.
Qed.

Section Summary.

Lemma trace_bind_returned {A B} (m : M A) (k : A -> M B) (a : A) :
  result m = Returned a -> trace (bind m k) = trace m ++ trace (k a).
Proof. intros H. now rewrite trace_bind, H. Qed.

Lemma whenPresent_log (x : option string) (f : string -> Message) :
  result (whenPresent x (fun s => log (f s))) = Returned tt.
Proof. destruct x as [[| c s] |]; reflexivity. Qed.

End Summary.

(** X12.  The README preview of the summary has at most 8 lines and at
    most 400 characters in all, and none of its lines contains a line
    feed; it is printed after the other summary lines, with the length
    of the whole README. *)
Theorem summary_preview_bounded (generatedData : Generated.t)
  (readme : string) :
  Generated.readme generatedData = Some readme ->
  truthy readme = true ->
  exists before lines,
    trace (printSummary generatedData) =
      before ++ [ConsoleLog (MsgSummaryReadme (String.length readme) lines)]
    /\ List.length lines <= 8
    /\ totalLength lines <= 400
    /\ Forall (fun line => lacks "010" line = true) lines.
Proof.
  intros Hr Ht. unfold printSummary.
  rewrite (trace_bind_returned (log MsgSummaryHeader) _ tt eq_refl).
  rewrite (trace_bind_returned _ _ tt (whenPresent_log _ _)).
  rewrite (trace_bind_returned _ _ tt (whenPresent_log _ _)).
  rewrite (trace_bind_returned
             (match Generated.topics generatedData with
              | Some ts =>
                  log (MsgSummaryTopics
                         (join "  " (map (fun t => ("#" ++ t)%string) ts)))
              | None => ret tt
              end) _ tt)
    by now destruct (Generated.topics generatedData).
  rewrite Hr. cbn [whenPresent]. rewrite Ht. cbn [log trace fst].
  rewrite !app_assoc. eexists _, _. split; [reflexivity |].
  split; [apply firstn_le_length |]. split.
  - etransitivity; [apply totalLength_firstn |].
    etransitivity; [apply split_total |].
    unfold substringTo. rewrite substring_0_length. apply Nat.le_min_l.
  - apply Forall_forall. intros line H. apply In_firstn in H.
    pose proof (split_lacks "010" (substringTo 400 readme)) as Hall.
    rewrite Forall_forall in Hall. now apply Hall.
Qed.

Lemma summary_preview_bounded_witness :
  exists before lines,
    trace (printSummary Examples.generated) =
      before ++ [ConsoleLog (MsgSummaryReadme 6 lines)]
    /\ List.length lines <= 8.
Proof.
  destruct (summary_preview_bounded Examples.generated "# demo"
              eq_refl eq_refl)
    as (before & lines & Heq & Hlen & _).
  exists before, lines. split; [exact Heq | exact Hlen].
Defined.

(* ================================================================= *)
(** ** Numbers and dates *)

Section Numbers.

Import Number.
Local Open Scope Z_scope.

Lemma digitChar_code (d : Z) :
  0 <= d < 10 -> Z.of_nat (nat_of_ascii (digitChar d)) - 48 = d.
Proof.
  intros H. unfold digitChar. rewrite nat_ascii_embedding by lia. lia.
Qed.

Lemma valueFrom_snoc (acc : Z) (s : string) (c : ascii) :
  valueFrom acc (s ++ String c EmptyString)%string
  = 10 * valueFrom acc s + (Z.of_nat (nat_of_ascii c) - 48).
Proof.
  revert acc. induction s as [| c' r IH]; intros acc; [reflexivity |].
  cbn [append valueFrom]. apply IH.
Qed.

Lemma log2_tenth (n : Z) : 10 <= n -> Z.log2 (n / 10) < Z.log2 n.
Proof.
  intros H.
  assert (Hpos : 0 < n / 10) by (Z.div_mod_to_equations; lia).
  assert (H2 : Z.log2 (2 * (n / 10)) <= Z.log2 n).
  { apply Z.log2_le_mono. Z.div_mod_to_equations. lia. }
  rewrite Z.log2_double in H2 by assumption. lia.
Qed.

(** With enough fuel the digits printed are those of the number: reading
    them back gives it. *)
Lemma digits_value (fuel : nat) (n : Z) :
  0 <= n -> (Z.to_nat (Z.log2 n) < fuel)%nat ->
  valueFrom 0 (digits fuel n) = n.
Proof.
  revert n. induction fuel as [| fuel IH]; intros n Hn Hfuel; [lia |].
  cbn [digits]. destruct (Z.ltb_spec n 10) as [Hlt | Hge].
  - cbn [valueFrom]. rewrite digitChar_code by lia. lia.
  - rewrite valueFrom_snoc, IH, digitChar_code.
    + Z.div_mod_to_equations. lia.
    + Z.div_mod_to_equations. lia.
    + Z.div_mod_to_equations. lia.
    + pose proof (log2_tenth n Hge). pose proof (Z.log2_nonneg (n / 10)). lia.
Qed.

Lemma toString_value (n : Z) : 0 <= n -> valueFrom 0 (toString n) = n.
Proof.
  intros Hn. unfold toString. destruct (Z.ltb_spec n 0); [lia |].
  apply digits_value; [assumption | unfold enough; lia].
Qed.

Lemma length_snoc (s : string) (c : ascii) :
  String.length (s ++ String c EmptyString)%string = S (String.length s).
Proof. induction s as [| c' r IH]; [reflexivity |]. cbn. now rewrite IH. Qed.

Lemma length_append (a b : string) :
  String.length (a ++ b)%string = (String.length a + String.length b)%nat.
Proof. induction a as [| c r IH]; [reflexivity |]. cbn. now rewrite IH. Qed.

(** A number below [10^k] is printed with at most [k] digits. *)
Lemma digits_length (fuel : nat) (n : Z) (k : nat) :
  0 <= n < 10 ^ Z.of_nat k -> (1 <= k)%nat ->
  (String.length (digits fuel n) <= k)%nat.
Proof.
  revert n k. induction fuel as [| fuel IH]; intros n k Hn Hk; [cbn; lia |].
  cbn [digits]. destruct (Z.ltb_spec n 10) as [Hlt | Hge]; [cbn; lia |].
  rewrite length_snoc.
  destruct k as [| k]; [lia |]. apply le_n_S.
  rewrite Nat2Z.inj_succ, Z.pow_succ_r in Hn by lia.
  destruct k as [| k]; [cbn in Hn; lia |].
  apply IH; [| lia]. split.
  - Z.div_mod_to_equations. lia.
  - Z.div_mod_to_equations. nia.
Qed.

Lemma toString_length (n : Z) (k : nat) :
  0 <= n < 10 ^ Z.of_nat k -> (1 <= k)%nat ->
  (String.length (toString n) <= k)%nat.
Proof.
  intros Hn Hk. unfold toString. destruct (Z.ltb_spec n 0); [lia |].
  now apply digits_length.
Qed.

End Numbers.

Lemma formatRelativeTime_cases (now date : Z) :
  let days := ((now - date) / 86400000)%Z in
  ((date <= now)%Z ->
   (days = 0%Z /\ formatRelativeTime now date = "today")
   \/ (days = 1%Z /\ formatRelativeTime now date = "yesterday")
   \/ ((2 <= days <= 6)%Z
       /\ formatRelativeTime now date
          = (Number.toString days ++ "d ago")%string)
   \/ (exists k, (1 <= k <= 4)%Z
         /\ formatRelativeTime now date = (Number.toString k ++ "w ago")%string)
   \/ (exists k, (1 <= k <= 12)%Z
         /\ formatRelativeTime now date
            = (Number.toString k ++ "mo ago")%string)
   \/ (exists k, (1 <= k)%Z
         /\ formatRelativeTime now date
            = (Number.toString k ++ "y ago")%string))
  /\ ((now < date)%Z ->
      (days < 0)%Z
      /\ exists digits,
           formatRelativeTime now date
           = String "-" (digits ++ "d ago")%string).
Proof.
  intros days. unfold formatRelativeTime.
  change (1000 * 60 * 60 * 24)%Z with 86400000%Z. fold days.
  split.
  - intros Hle. assert (Hd : (0 <= days)%Z).
    { unfold days. apply Z.div_pos; lia. }
    destruct (Z.eqb_spec days 0) as [H0 | H0]; [now left |].
    destruct (Z.eqb_spec days 1) as [H1 | H1]; [now right; left |].
    destruct (Z.ltb_spec days 7) as [H7 | H7].
    { right; right; left. split; [lia | reflexivity]. }
    destruct (Z.ltb_spec days 30) as [H30 | H30].
    { right; right; right; left. exists (days / 7)%Z.
      split; [| reflexivity]. Z.div_mod_to_equations. lia. }
    destruct (Z.ltb_spec days 365) as [H365 | H365].
    { right; right; right; right; left. exists (days / 30)%Z.
      split; [| reflexivity]. Z.div_mod_to_equations. lia. }
    right; right; right; right; right. exists (days / 365)%Z.
    split; [| reflexivity]. Z.div_mod_to_equations. lia.
  - intros Hlt. assert (Hd : (days < 0)%Z).
    { unfold days. Z.div_mod_to_equations. lia. }
    split; [exact Hd |].
    destruct (Z.eqb_spec days 0) as [H0 | H0]; [lia |].
    destruct (Z.eqb_spec days 1) as [H1 | H1]; [lia |].
    destruct (Z.ltb_spec days 7) as [H7 | H7]; [| lia].
    unfold Number.toString. destruct (Z.ltb_spec days 0); [| lia].
    eexists. reflexivity.
Qed.


(** X14.  For a push date that is not in the future, the relative time
    is "today", "yesterday", or a count with a unit, and the count is
    never zero: 2 to 6 days, 1 to 4 weeks, 1 to 12 months, or at least 1
    year.  For a push date in the future the text is a negative number
    of days followed by "d ago". *)
Theorem formatRelativeTime_ranges (now date : Z) :
  let days := ((now - date) / 86400000)%Z in
  ((date <= now)%Z ->
   (days = 0%Z /\ formatRelativeTime now date = "today")
   \/ (days = 1%Z /\ formatRelativeTime now date = "yesterday")
   \/ ((2 <= days <= 6)%Z
       /\ formatRelativeTime now date
          = (Number.toString days ++ "d ago")%string)
   \/ (exists k, (1 <= k <= 4)%Z
         /\ formatRelativeTime now date = (Number.toString k ++ "w ago")%string)
   \/ (exists k, (1 <= k <= 12)%Z
         /\ formatRelativeTime now date
            = (Number.toString k ++ "mo ago")%string)
   \/ (exists k, (1 <= k)%Z
         /\ formatRelativeTime now date
            = (Number.toString k ++ "y ago")%string))
  /\ ((now < date)%Z ->
      (days < 0)%Z
      /\ exists digits,
           formatRelativeTime now date
           = String "-" (digits ++ "d ago")%string).
Proof. exact (formatRelativeTime_cases now date). Qed.

Lemma formatRelativeTime_ranges_witness :
  ((0 <= 29 * 86400000 + 5)%Z
   /\ let now := (29 * 86400000 + 5)%Z in
      let days := ((now - 0) / 86400000)%Z in
      (days = 0%Z /\ formatRelativeTime now 0 = "today")
      \/ (days = 1%Z /\ formatRelativeTime now 0 = "yesterday")
      \/ ((2 <= days <= 6)%Z
          /\ formatRelativeTime now 0 = (Number.toString days ++ "d ago")%string)
      \/ (exists k, (1 <= k <= 4)%Z
            /\ formatRelativeTime now 0 = (Number.toString k ++ "w ago")%string)
      \/ (exists k, (1 <= k <= 12)%Z
            /\ formatRelativeTime now 0
               = (Number.toString k ++ "mo ago")%string)
      \/ (exists k, (1 <= k)%Z
            /\ formatRelativeTime now 0
               = (Number.toString k ++ "y ago")%string))
  /\ ((0 < 1)%Z
      /\ exists digits,
           formatRelativeTime 0 1 = String "-" (digits ++ "d ago")%string).
Proof.
  split.
  - split; [lia |].
    apply (proj1 (formatRelativeTime_ranges (29 * 86400000 + 5) 0)). lia.
  - split; [lia |].
    apply (proj2 (formatRelativeTime_ranges 0 1)). lia.
Defined.

(* ================================================================= *)
(** ** The search *)

Section Search.

Lemma startsWith_shorter (a b h : string) :
  startsWith (a ++ b) h = true -> startsWith a h = true.
Proof.
  revert h. induction a as [| c a IH]; intros h H; [now destruct h |].
  destruct h as [| d h]; [discriminate |].
  cbn [append startsWith] in *. apply andb_true_iff in H as [Hc Hr].
  now rewrite Hc, (IH h Hr).
Qed.

Lemma includesText_shorter (a b h : string) :
  includesText (a ++ b) h = true -> includesText a h = true.
Proof.
  induction h as [| d h IH]; cbn [includesText]; intros H.
  - now apply startsWith_shorter with (b := b).
  - apply orb_true_iff in H as [H | H]; apply orb_true_iff.
    + left. now apply startsWith_shorter with (b := b).
    + right. now apply IH.
Qed.

Lemma startsWith_refl (s : string) : startsWith s s = true.
Proof.
  induction s as [| c s IH]; [reflexivity |].
  cbn. now rewrite Ascii.eqb_refl, IH.
Qed.

Lemma includesText_refl (s : string) : includesText s s = true.
Proof.
  destruct s as [| c s]; [reflexivity |].
  cbn [includesText]. now rewrite startsWith_refl.
Qed.

Lemma filter_true {A} (l : list A) : filter (fun _ => true) l = l.
Proof. induction l as [| x l IH]; [reflexivity |]. cbn. now rewrite IH. Qed.

End Search.

(** X15.  Before anything is typed, and for an empty query, the search
    offers every repository, in the order of the listing.  A query whose
    lower-casing extends the lower-casing of another never brings a
    repository back: what is offered for it was already offered for the
    shorter one. *)
Theorem search_narrows (allRepos : list Repo.t) (typed longer more : string) :
  toLowerCase longer = (toLowerCase typed ++ more)%string ->
  searchSource allRepos None = allRepos
  /\ searchSource allRepos (Some "") = allRepos
  /\ incl (searchSource allRepos (Some longer))
          (searchSource allRepos (Some typed)).
Proof.
  intros Hext.
  split; [apply filter_true |]. split; [apply filter_true |].
  intros repo. unfold searchSource.
  rewrite !filter_In. intros [Hin Hmatch]. split; [assumption |].
  assert (Hterm : forall q, toLowerCase (orElse (Some q) "") = toLowerCase q).
  { intros [| c q]; reflexivity. }
  rewrite Hterm in *. rewrite Hext in Hmatch.
  destruct (toLowerCase typed) as [| c t] eqn:Htyped; [reflexivity |].
  cbn [append truthy negb] in *.
  apply orb_true_iff in Hmatch as [Hmatch | Hmatch];
    [apply orb_true_iff in Hmatch as [Hmatch | Hmatch] |].
  - apply (includesText_shorter (String c t)) in Hmatch. now rewrite Hmatch.
  - apply (includesText_shorter (String c t)) in Hmatch.
    rewrite Hmatch. now rewrite orb_true_r.
  - apply (includesText_shorter (String c t)) in Hmatch.
    rewrite Hmatch. now rewrite orb_true_r.
Qed.

Lemma search_narrows_witness :
  toLowerCase "DEMo" = (toLowerCase "De" ++ "mo")%string
  /\ incl (searchSource [Examples.fullRepo; Examples.bareRepo] (Some "DEMo"))
          (searchSource [Examples.fullRepo; Examples.bareRepo] (Some "De")).
Proof.
  split; [reflexivity |].
  exact (proj2 (proj2 (search_narrows [Examples.fullRepo; Examples.bareRepo]
                         "De" "DEMo" "mo" eq_refl))).
Defined.

(** X16.  The search ignores the letter case: a query that is the name of
    a listed repository, in whatever case, offers that repository. *)
Theorem search_ignores_case (allRepos : list Repo.t) (repo : Repo.t)
  (query : string) :
  In repo allRepos ->
  toLowerCase query = toLowerCase (Repo.name repo) ->
  In repo (searchSource allRepos (Some query)).
Proof.
  intros Hin Hq. unfold searchSource. apply filter_In. split; [assumption |].
  assert (Hterm : toLowerCase (orElse (Some query) "") = toLowerCase query).
  { destruct query; reflexivity. }
  rewrite Hterm, Hq.
  destruct (negb (truthy (toLowerCase (Repo.name repo)))); [reflexivity |].
  now rewrite includesText_refl.
Qed.

Lemma search_ignores_case_witness :
  In Examples.bareRepo
    (searchSource [Examples.fullRepo; Examples.bareRepo] (Some "DeMo")).
Proof.
  apply (search_ignores_case [Examples.fullRepo; Examples.bareRepo]
           Examples.bareRepo "DeMo").
  - right. left. reflexivity.
  - reflexivity.
Defined.

(* ================================================================= *)
(** ** The start of a run *)

Section StartOfRun.

Import Startup.

Variable s : Session.
Variable token : string.

Lemma fetchPages_collects (pages : list (list Listing.t)) :
  forall (fuel page : nat) (acc : list Listing.t),
    (forall i, i < List.length pages ->
               listForAuthenticatedUser s token (page + i)
               = Resolved (nth i pages [])
               /\ nth i pages [] <> []) ->
    listForAuthenticatedUser s token (page + List.length pages) = Resolved [] ->
    List.length pages < fuel ->
    fetchPages s token fuel page acc =
      Some (map (ListForAuthenticatedUser token 100)
              (seq page (S (List.length pages))),
            Returned (acc ++ concat pages)).
Proof.
  induction pages as [| p ps IH]; intros fuel page acc Hpages Hlast Hfuel.
  - destruct fuel as [| fuel]; [lia |].
    cbn [List.length] in Hlast. rewrite Nat.add_0_r in Hlast.
    cbn [fetchPages]. rewrite Hlast. cbn. now rewrite app_nil_r.
  - destruct fuel as [| fuel]; [cbn in Hfuel; lia |].
    destruct (Hpages 0 ltac:(cbn; lia)) as [Hp Hne].
    rewrite Nat.add_0_r in Hp. cbn [nth] in Hp, Hne.
    cbn [fetchPages]. rewrite Hp.
    destruct p as [| r p]; [congruence |]. cbn [List.length Nat.eqb].
    rewrite (IH fuel (S page) (acc ++ r :: p)).
    + cbn [List.length seq map concat]. now rewrite <- app_assoc.
    + intros i Hi. specialize (Hpages (S i) ltac:(cbn; lia)).
      cbn [nth] in Hpages. now rewrite Nat.add_succ_r in Hpages.
    + cbn [List.length] in Hlast. now rewrite Nat.add_succ_r in Hlast.
    + cbn [List.length] in Hfuel. lia.
Qed.

Lemma fetchPages_endless :
  (forall page, exists repos,
     listForAuthenticatedUser s token page = Resolved repos /\ repos <> []) ->
  forall (fuel page : nat) (acc : list Listing.t),
    fetchPages s token fuel page acc = None.
Proof.
  intros Hall. induction fuel as [| fuel IH]; intros page acc; [reflexivity |].
  cbn [fetchPages]. destruct (Hall page) as (repos & -> & Hne).
  destruct repos as [| r repos]; [congruence |]. cbn [List.length Nat.eqb].
  now rewrite IH.
Qed.

End StartOfRun.

(** X17.  The listing loop asks for pages 1, 2, ... of 100 repositories
    until a page comes back empty, and returns the pages put end to end:
    when pages 1 to n are not empty and page n+1 is, every run of more
    than n turns makes exactly n+1 requests and returns the n pages in
    order. *)
Theorem pagination_collects (s : Startup.Session) (token : string)
  (pages : list (list Listing.t)) (fuel : nat) :
  (forall i, i < List.length pages ->
             Startup.listForAuthenticatedUser s token (1 + i)
             = Resolved (nth i pages [])
             /\ nth i pages [] <> []) ->
  Startup.listForAuthenticatedUser s token (1 + List.length pages)
  = Resolved [] ->
  List.length pages < fuel ->
  Startup.fetchPages s token fuel 1 [] =
    Some (map (Startup.ListForAuthenticatedUser token 100)
            (seq 1 (S (List.length pages))),
          Returned (concat pages)).
Proof.
  intros Hpages Hlast Hfuel.
  now rewrite (fetchPages_collects s token pages fuel 1 [] Hpages Hlast Hfuel).
Qed.

Lemma pagination_collects_witness :
  Startup.fetchPages
    (Startup.session None (Resolved tt) Startup.twoPages) "typed" 3 1 [] =
    Some ([Startup.ListForAuthenticatedUser "typed" 100 1;
           Startup.ListForAuthenticatedUser "typed" 100 2;
           Startup.ListForAuthenticatedUser "typed" 100 3],
          Returned [Startup.someListing "a"; Startup.someListing "b";
                    Startup.someListing "c"]).
Proof.
  apply (pagination_collects
           (Startup.session None (Resolved tt) Startup.twoPages) "typed"
           [[Startup.someListing "a"; Startup.someListing "b"];
            [Startup.someListing "c"]] 3).
  - intros [| [| i]] Hi; cbn in Hi; try lia; (split; [reflexivity | discriminate]).
  - reflexivity.
  - cbn. lia.
Defined.

(** X18.  The listing loop has no bound of its own: as long as the
    platform answers every page with at least one repository, the loop
    does not end, however many turns it is given. *)
Theorem pagination_is_unbounded (s : Startup.Session) (token : string) :
  (forall page, exists repos,
     Startup.listForAuthenticatedUser s token page = Resolved repos
     /\ repos <> []) ->
  forall fuel : nat, Startup.fetchPages s token fuel 1 [] = None.
Proof. intros Hall fuel. now apply fetchPages_endless. Qed.

Lemma pagination_is_unbounded_witness :
  Startup.fetchPages
    (Startup.session None (Resolved tt)
       (fun _ => Resolved [Startup.someListing "a"])) "typed" 50 1 [] = None.
Proof.
  apply (pagination_is_unbounded
           (Startup.session None (Resolved tt)
              (fun _ => Resolved [Startup.someListing "a"])) "typed").
  intros page. eexists. split; [reflexivity | discriminate].
Defined.

Section StartFacts.

Import Startup.

Variable s : Session.

Lemma asked_app (t1 t2 : list Event) : asked (t1 ++ t2) = asked t1 ++ asked t2.
Proof.
  induction t1 as [| e t1 IH]; [reflexivity |].
  destruct e; cbn; now rewrite IH.
Qed.

Lemma pagesRequested_app (t1 t2 : list Event) :
  pagesRequested (t1 ++ t2) = pagesRequested t1 ++ pagesRequested t2.
Proof.
  induction t1 as [| e t1 IH]; [reflexivity |].
  destruct e; cbn; now rewrite IH.
Qed.

Lemma fetchPages_asks_nothing (token : string) (fuel page : nat)
  (acc : list Listing.t) (t : list Event) (o : outcome (list Listing.t)) :
  fetchPages s token fuel page acc = Some (t, o) -> asked t = [].
Proof.
  revert page acc t o. induction fuel as [| fuel IH]; intros page acc t o;
    [discriminate |].
  cbn [fetchPages].
  destruct (listForAuthenticatedUser s token page) as [repos | e];
    [| now intros [= <- <-]].
  destruct (List.length repos =? 0)%nat; [now intros [= <- <-] |].
  destruct (fetchPages s token fuel (S page) (acc ++ repos)) as [[t' o'] |] eqn:E;
    [| discriminate].
  intros [= <- <-]. cbn. now apply (IH _ _ _ _ E).
Qed.

(** The loop returns only on an empty page, with what it was given plus
    the pages before. *)
Lemma fetchPages_returned (token : string) (fuel page : nat)
  (acc : list Listing.t) (t : list Event) (allRepos : list Listing.t) :
  fetchPages s token fuel page acc = Some (t, Returned allRepos) ->
  exists more, allRepos = acc ++ more.
Proof.
  revert page acc t. induction fuel as [| fuel IH]; intros page acc t;
    [discriminate |].
  cbn [fetchPages].
  destruct (listForAuthenticatedUser s token page) as [repos | e];
    [| discriminate].
  destruct (List.length repos =? 0)%nat.
  - intros [= <- <-]. exists []. now rewrite app_nil_r.
  - destruct (fetchPages s token fuel (S page) (acc ++ repos))
      as [[t' o'] |] eqn:E; [| discriminate].
    intros [= <- ->]. destruct (IH _ _ _ E) as [more ->].
    exists (repos ++ more). now rewrite app_assoc.
Qed.

(** The loop ends within [n + 1] turns once the answer for the page [n]
    pages ahead ends it. *)
Lemma fetchPages_ends (token : string) (n : nat) :
  forall (fuel page : nat) (acc : list Listing.t),
    ends (listForAuthenticatedUser s token (page + n)) = true ->
    n < fuel ->
    fetchPages s token fuel page acc <> None.
Proof.
  induction n as [| n IH]; intros fuel page acc Hends Hfuel;
    (destruct fuel as [| fuel]; [lia |]); cbn [fetchPages].
  - rewrite Nat.add_0_r in Hends.
    destruct (listForAuthenticatedUser s token page) as [[| r repos] | e];
      [discriminate | discriminate Hends | discriminate].
  - destruct (listForAuthenticatedUser s token page) as [[| r repos] | e];
      [discriminate | | discriminate].
    cbn [List.length Nat.eqb].
    rewrite Nat.add_succ_r in Hends.
    specialize (IH fuel (S page) (acc ++ r :: repos) Hends ltac:(lia)).
    destruct (fetchPages s token fuel (S page) (acc ++ r :: repos))
      as [[t o] |]; [discriminate | congruence].
Qed.

End StartFacts.

(** X19.  When the start of a run hands a listing over, the listing is
    not empty, the identity check went through for the token in use, and
    the last thing printed is the number of repositories found. *)
Theorem start_returns_listing (s : Startup.Session) (fuel : nat)
  (t : list Startup.Event) (openaiApiKey : string)
  (allRepos : list Listing.t) :
  Startup.start s fuel = Some (t, Returned (openaiApiKey, allRepos)) ->
  allRepos <> []
  /\ (exists before,
        t = before ++ [Startup.Print (Startup.Found (List.length allRepos))])
  /\ (exists githubToken u,
        In (Startup.GetAuthenticated githubToken) t
        /\ Startup.getAuthenticated s githubToken = Resolved u).
Proof.
  unfold Startup.start.
  destruct (Startup.secret s Startup.GitHubToken (Startup.GITHUB_TOKEN s))
    as [t1 [githubToken | e | c]]; try discriminate.
  destruct (Startup.secret s Startup.OpenAIKey (Startup.OPENAI_API_KEY s))
    as [t2 [key | e | c]]; try discriminate.
  destruct (Startup.getAuthenticated s githubToken) as [u | e] eqn:Hauth;
    [| discriminate].
  destruct (Startup.fetchPages s githubToken fuel 1 [])
    as [[t3 [repos | e | c]] |]; try discriminate.
  destruct repos as [| r repos]; [discriminate |].
  cbn [List.length Nat.eqb]. intros [= <- <- <-].
  split; [discriminate |]. split.
  - exists (Startup.Print Startup.Banner
              :: (t1 ++ t2 ++ [Startup.Print Startup.Fetching;
                               Startup.GetAuthenticated githubToken]) ++ t3).
    cbn [app]. f_equal. now rewrite <- !app_assoc.
  - exists githubToken, u. split; [| exact Hauth].
    right. apply in_or_app. left.
    apply in_or_app. right. apply in_or_app. right. cbn. auto.
Qed.

Lemma start_returns_listing_witness :
  exists t,
    Startup.start (Startup.session (Some "ghp") (Resolved tt) Startup.twoPages) 5
    = Some (t, Returned ("sk-demo",
                         [Startup.someListing "a"; Startup.someListing "b";
                          Startup.someListing "c"]))
    /\ exists before, t = before ++ [Startup.Print (Startup.Found 3)].
Proof.
  assert (E : Startup.start
                (Startup.session (Some "ghp") (Resolved tt) Startup.twoPages) 5
              = Some (fst (match Startup.start
                                   (Startup.session (Some "ghp") (Resolved tt)
                                      Startup.twoPages) 5
                           with
                           | Some r => r
                           | None => ([], Exited 0)
                           end),
                      Returned ("sk-demo",
                                [Startup.someListing "a";
                                 Startup.someListing "b";
                                 Startup.someListing "c"])))
    by (vm_compute; reflexivity).
  eexists. split; [exact E |].
  exact (proj1 (proj2
           (start_returns_listing
              (Startup.session (Some "ghp") (Resolved tt) Startup.twoPages) 5
              _ "sk-demo" _ E))).
Defined.

(** X20.  When the identity check is rejected, the run prints that the
    token is invalid and exits with status 1 without asking for any page
    of repositories, whatever the listing would have answered. *)
Theorem invalid_token_exits (s : Startup.Session) (fuel : nat)
  (t1 t2 : list Startup.Event) (githubToken openaiApiKey : string)
  (e : JsError) :
  Startup.secret s Startup.GitHubToken (Startup.GITHUB_TOKEN s)
  = (t1, Returned githubToken) ->
  Startup.secret s Startup.OpenAIKey (Startup.OPENAI_API_KEY s)
  = (t2, Returned openaiApiKey) ->
  Startup.getAuthenticated s githubToken = Rejected e ->
  Startup.start s fuel =
    Some (Startup.Print Startup.Banner :: t1 ++ t2
            ++ [Startup.Print Startup.Fetching;
                Startup.GetAuthenticated githubToken;
                Startup.PrintError Startup.InvalidToken],
          Exited 1)
  /\ forall t o, Startup.start s fuel = Some (t, o) ->
                 Startup.pagesRequested t = [].
Proof.
  intros H1 H2 Hauth.
  assert (Hstart : Startup.start s fuel =
                   Some (Startup.Print Startup.Banner :: t1 ++ t2
                           ++ [Startup.Print Startup.Fetching;
                               Startup.GetAuthenticated githubToken;
                               Startup.PrintError Startup.InvalidToken],
                         Exited 1)).
  { unfold Startup.start. rewrite H1, H2, Hauth.
    cbn [app]. now rewrite <- !app_assoc. }
  split; [exact Hstart |].
  intros t o. rewrite Hstart. intros [= <- <-].
  cbn [Startup.pagesRequested]. rewrite !pagesRequested_app.
  revert H1 H2. unfold Startup.secret.
  destruct (present (Startup.GITHUB_TOKEN s)),
    (present (Startup.OPENAI_API_KEY s));
    intros [= <- _] [= <- _]; reflexivity.
Qed.

Lemma invalid_token_exits_witness :
  Startup.start
    (Startup.session (Some "ghp") (Rejected Examples.unavailable)
       Startup.twoPages) 0
  = Some ([Startup.Print Startup.Banner;
           Startup.Print (Startup.SecretLoaded Startup.GitHubToken);
           Startup.Print (Startup.SecretLoaded Startup.OpenAIKey);
           Startup.Print Startup.Fetching;
           Startup.GetAuthenticated "ghp";
           Startup.PrintError Startup.InvalidToken],
          Exited 1).
Proof.
  exact (proj1 (invalid_token_exits
                  (Startup.session (Some "ghp") (Rejected Examples.unavailable)
                     Startup.twoPages) 0 _ _ "ghp" "sk-demo"
                  Examples.unavailable eq_refl eq_refl eq_refl)).
Defined.

(** X21.  A secret is asked of the user exactly when the environment
    does not give it, or gives it empty: when the password prompt
    answers, the secrets asked are the GitHub token, then the OpenAI key,
    each only if its variable is unset or empty, and both secrets are
    obtained, the GitHub token being the variable when it is set and not
    empty and the answer of the prompt otherwise.  This comes before
    anything else: the start of a run is the banner, these steps and then
    steps that ask for no secret.  The start fails to end only when the
    identity check went through and the listing loop has not ended; it
    ends within [n + 1] turns of the loop once the answer for page
    [n + 1] is a rejection or an empty page. *)
Theorem secrets_come_from_the_environment (s : Startup.Session) :
  (forall which, exists v, Startup.password s which = Resolved v) ->
  Startup.asked (fst (Startup.secrets s)) =
    (if present (Startup.GITHUB_TOKEN s) then [] else [Startup.GitHubToken])
    ++ (if present (Startup.OPENAI_API_KEY s) then [] else [Startup.OpenAIKey])
  /\ (exists githubToken openaiApiKey,
        snd (Startup.secrets s) = Returned (githubToken, openaiApiKey)
        /\ (present (Startup.GITHUB_TOKEN s) = true ->
            Startup.GITHUB_TOKEN s = Some githubToken)
        /\ (present (Startup.GITHUB_TOKEN s) = false ->
            Startup.password s Startup.GitHubToken = Resolved githubToken)
        /\ (forall fuel : nat,
              match Startup.start s fuel with
              | Some (t, o) =>
                  exists rest,
                    t = Startup.Print Startup.Banner
                        :: fst (Startup.secrets s) ++ rest
                    /\ Startup.asked rest = []
              | None =>
                  exists u,
                    Startup.getAuthenticated s githubToken = Resolved u
                    /\ Startup.fetchPages s githubToken fuel 1 [] = None
              end)
        /\ (forall n fuel : nat,
              Startup.ends
                (Startup.listForAuthenticatedUser s githubToken (1 + n)) = true ->
              n < fuel ->
              Startup.start s fuel <> None)).
Proof.
  intros Hpw.
  destruct (Hpw Startup.GitHubToken) as [v1 Hv1].
  destruct (Hpw Startup.OpenAIKey) as [v2 Hv2].
  unfold Startup.start, Startup.secrets, Startup.secret. rewrite Hv1, Hv2.
  destruct (Startup.GITHUB_TOKEN s) as [[| c1 g] |],
    (Startup.OPENAI_API_KEY s) as [[| c2 k] |];
    cbn [present truthy orElse Startup.andThen fst snd app Startup.asked];
    (split; [reflexivity |]);
    eexists _, _; (split; [reflexivity |]);
    (split; [intros H; first [reflexivity | discriminate H] |]);
    (split; [intros H; first [reflexivity | discriminate H] |]);
    (match goal with
     | |- ?A /\ _ => assert (P : A)
     end;
    [ intros fuel;
      match goal with
      | |- context [Startup.getAuthenticated s ?tok] =>
          destruct (Startup.getAuthenticated s tok) as [u | e];
          [ destruct (Startup.fetchPages s tok fuel 1 [])
              as [[t3 [repos | e | c]] |] eqn:E;
            [ destruct (List.length repos =? 0)%nat | | | ] | ]
      end;
      try (exists u; split; reflexivity);
      (eexists; split; [reflexivity |]);
      cbn [Startup.asked app];
      rewrite ?asked_app, ?(fetchPages_asks_nothing s _ _ _ _ _ _ E);
      reflexivity
    | split; [exact P |];
      intros n fuel Hends Hfuel Hnone; specialize (P fuel);
      rewrite Hnone in P; destruct P as (u & _ & Hloop);
      exact (fetchPages_ends s _ n fuel 1 [] Hends Hfuel Hloop) ]).
Qed.

Lemma secrets_come_from_the_environment_witness :
  Startup.asked
    (fst (Startup.secrets
            (Startup.session (Some "") (Resolved tt) Startup.twoPages)))
  = [Startup.GitHubToken]
  /\ Startup.start (Startup.session (Some "") (Resolved tt) Startup.twoPages) 3
     <> None.
Proof.
  destruct (secrets_come_from_the_environment
              (Startup.session (Some "") (Resolved tt) Startup.twoPages)
              (fun which => ex_intro _ "typed" eq_refl))
    as (Hasked & githubToken & openaiApiKey & _ & _ & _ & _ & Hends).
  split; [exact Hasked |].
  apply (Hends 2 3); [reflexivity | lia].
Defined.

(* ================================================================= *)
(** ** The table of repositories *)

Section TableFacts.

Import Table.

Lemma spaces_length (n : nat) : String.length (spaces n) = n.
Proof. induction n as [| n IH]; [reflexivity |]. cbn. now rewrite IH. Qed.

Lemma padEnd_length (n : nat) (s : string) :
  String.length (padEnd n s) = Nat.max n (String.length s).
Proof. unfold padEnd. rewrite length_append, spaces_length. lia. Qed.

Lemma padEnd_exact (n : nat) (s : string) :
  String.length s <= n -> String.length (padEnd n s) = n.
Proof. intros H. rewrite padEnd_length. lia. Qed.

Lemma substring_0_all (n : nat) (s : string) :
  String.length s <= n -> substring 0 n s = s.
Proof.
  revert n. induction s as [| c r IH]; intros [| n] H; try reflexivity.
  - cbn in H. lia.
  - cbn in *. rewrite IH by lia. reflexivity.
Qed.

Lemma name_within_max (allRepos : list Listing.t) (r : Listing.t) :
  In r allRepos ->
  String.length (Repo.name (Listing.repo r))
  <= list_max (map (fun r => String.length (Repo.name (Listing.repo r)))
                allRepos).
Proof.
  intros Hin.
  pose proof (proj1 (list_max_le
                       (map (fun r => String.length (Repo.name (Listing.repo r)))
                          allRepos) _) (Nat.le_refl _)) as Hall.
  rewrite Forall_forall in Hall. apply Hall.
  apply in_map_iff. now exists r.
Qed.

Lemma toString_small (n : Z) (k : nat) :
  (0 <= n < 10 ^ Z.of_nat k)%Z -> 1 <= k ->
  String.length (Number.toString n) <= k.
Proof. apply toString_length. Qed.

(** The relative time of a past date less than ten million years old
    fits the "Updated" column. *)
Lemma formatRelativeTime_length (now date : Z) :
  (date <= now)%Z ->
  ((now - date) / 86400000 < 365 * 10 ^ 7)%Z ->
  String.length (formatRelativeTime now date) <= 12.
Proof.
  intros Hle Hold. unfold formatRelativeTime.
  change (1000 * 60 * 60 * 24)%Z with 86400000%Z.
  set (days := ((now - date) / 86400000)%Z) in *.
  assert (Hd : (0 <= days)%Z) by (unfold days; apply Z.div_pos; lia).
  destruct (Z.eqb_spec days 0); [cbn; lia |].
  destruct (Z.eqb_spec days 1); [cbn; lia |].
  destruct (Z.ltb_spec days 7).
  { rewrite length_append.
    pose proof (toString_small days 1 ltac:(cbn; lia) (Nat.le_refl _)).
    cbn [String.length]. lia. }
  destruct (Z.ltb_spec days 30).
  { rewrite length_append.
    pose proof (toString_small (days / 7) 1
                  ltac:(cbn; Z.div_mod_to_equations; lia) (Nat.le_refl _)).
    cbn [String.length]. lia. }
  destruct (Z.ltb_spec days 365).
  { rewrite length_append.
    pose proof (toString_small (days / 30) 2
                  ltac:(cbn; Z.div_mod_to_equations; lia) ltac:(lia)).
    cbn [String.length]. lia. }
  rewrite length_append.
  pose proof (toString_small (days / 365) 7
                ltac:(cbn; Z.div_mod_to_equations; lia) ltac:(lia)).
  cbn [String.length]. lia.
Qed.

Lemma prefix_append (s t : string) : String.prefix s (s ++ t) = true.
Proof.
  induction s as [| c s IH]; [now destruct t |].
  cbn. destruct (ascii_dec c c); [exact IH | congruence].
Qed.

Lemma descText_length (c : Columns) (r : Listing.t) :
  desc c = 30 -> String.length (descText c r) <= 30.
Proof.
  intros Hc. unfold descText. rewrite Hc.
  destruct (Repo.description (Listing.repo r)) as [d |]; [| cbn; lia].
  destruct (truthy d); [| cbn; lia].
  rewrite length_append. unfold substringTo. rewrite substring_0_length.
  destruct (30 - 3 <? String.length d)%nat; cbn [String.length]; lia.
Qed.

End TableFacts.

(** X22.  A row of the table is as wide as the borders whenever its
    language fits the language column, its star and fork counts are
    below ten million and its push date is in the past, less than ten
    million years ago: each of the seven cells then has exactly the width
    of its column. *)
Theorem table_row_aligned (now : Z) (allRepos : list Listing.t)
  (r : Listing.t) :
  In r allRepos ->
  String.length (orElse (Repo.language (Listing.repo r)) "--")
  <= Table.lang (Table.cols allRepos) ->
  (0 <= Listing.stargazers_count r < 10 ^ 7)%Z ->
  (0 <= Listing.forks_count r < 10 ^ 7)%Z ->
  (Listing.pushed_at r <= now)%Z ->
  ((now - Listing.pushed_at r) / 86400000 < 365 * 10 ^ 7)%Z ->
  map String.length (Table.rowCells now (Table.cols allRepos) r)
  = Table.widths (Table.cols allRepos)
  /\ Table.rowWidth (Table.rowCells now (Table.cols allRepos) r)
     = Table.totalWidth (Table.cols allRepos)
  /\ Table.borderWidth (Table.cols allRepos)
     = Table.totalWidth (Table.cols allRepos).
Proof.
  intros Hin Hlang Hstars Hforks Hpast Hold.
  assert (Hcells : map String.length
                     (Table.rowCells now (Table.cols allRepos) r)
                   = Table.widths (Table.cols allRepos)).
  { unfold Table.rowCells, Table.widths. cbn [map].
    repeat f_equal.
    - unfold Table.nameCell. apply padEnd_exact.
      unfold substringTo. rewrite substring_0_length. lia.
    - unfold Table.languageCell.
      destruct (Repo.language (Listing.repo r)) as [[| c l] |];
        cbn [present truthy orElse] in *; now apply padEnd_exact.
    - unfold Table.starsCell. apply padEnd_exact.
      now apply (toString_small _ 7); [| cbn; lia].
    - unfold Table.forksCell. apply padEnd_exact.
      now apply (toString_small _ 7); [| cbn; lia].
    - unfold Table.updatedCell. apply padEnd_exact.
      now apply formatRelativeTime_length.
    - unfold Table.visibilityCell.
      destruct (Repo.private (Listing.repo r)); apply padEnd_exact; cbn; lia.
    - unfold Table.descCell. apply padEnd_exact. now apply descText_length. }
  split; [exact Hcells |]. split.
  - unfold Table.rowWidth, Table.totalWidth.
    assert (Htotal : forall cells,
               totalLength cells = list_sum (map String.length cells)).
    { induction cells as [| x cells IH]; [reflexivity |]. cbn. now rewrite IH. }
    rewrite Htotal, Hcells. reflexivity.
  - unfold Table.borderWidth, Table.totalWidth. cbn [Table.widths List.length].
    lia.
Qed.

Lemma table_row_aligned_witness :
  map String.length
    (Table.rowCells 86400000
       (Table.cols [Startup.someListing "a"; Startup.someListing "demo"])
       (Startup.someListing "demo"))
  = [6; 4; 7; 7; 12; 10; 30].
Proof.
  apply (proj1 (table_row_aligned 86400000
                  [Startup.someListing "a"; Startup.someListing "demo"]
                  (Startup.someListing "demo")
                  ltac:(right; left; reflexivity)
                  ltac:(vm_compute; lia)
                  ltac:(vm_compute; split; [discriminate | reflexivity])
                  ltac:(vm_compute; split; [discriminate | reflexivity])
                  ltac:(vm_compute; discriminate)
                  ltac:(vm_compute; reflexivity))).
Defined.

(** X23.  The name cell always has the width of the name column.  A name
    of up to 31 characters is shown whole; a longer one is cut to its
    first 31 characters, followed by one space. *)
Theorem name_cell_shows_31 (allRepos : list Listing.t) (r : Listing.t) :
  In r allRepos ->
  let name := Repo.name (Listing.repo r) in
  let cell := Table.nameCell (Table.cols allRepos) r in
  String.length cell = Table.name (Table.cols allRepos)
  /\ Table.name (Table.cols allRepos) <= 32
  /\ (String.length name <= 31 ->
      cell = Table.padEnd (Table.name (Table.cols allRepos)) name)
  /\ (31 < String.length name ->
      cell = (substring 0 31 name ++ " ")%string).
Proof.
  intros Hin name cell. pose proof (name_within_max allRepos r Hin) as Hmax.
  fold name in Hmax. subst cell. unfold Table.nameCell, substringTo.
  cbn [Table.cols Table.name]. unfold Table.maxNameLen.
  set (m := list_max _) in *. fold name.
  split; [apply padEnd_exact; rewrite substring_0_length; lia |].
  split; [lia |]. split.
  - intros Hshort. rewrite substring_0_all by lia. reflexivity.
  - intros Hlong. replace (Nat.min 30 m) with 30 by lia.
    unfold Table.padEnd. rewrite substring_0_length.
    replace (30 + 2 - Nat.min (30 + 2 - 1) (String.length name)) with 1 by lia.
    reflexivity.
Qed.

Lemma name_cell_shows_31_witness :
  Table.nameCell
    (Table.cols [Startup.someListing "a"; Startup.someListing "demo"])
    (Startup.someListing "demo")
  = "demo  ".
Proof.
  exact (proj1 (proj2 (proj2
           (name_cell_shows_31
              [Startup.someListing "a"; Startup.someListing "demo"]
              (Startup.someListing "demo")
              ltac:(right; left; reflexivity))))
           ltac:(vm_compute; lia)).
Defined.

(** X24.  The language is never cut: its cell starts with the whole
    language name, or with "--" when there is none, and is as wide as
    the longer of the column and the name, so that a language longer
    than its column makes the row wider than the borders. *)
Theorem language_is_never_cut (allRepos : list Listing.t) (r : Listing.t) :
  let language := orElse (Repo.language (Listing.repo r)) "--" in
  let cell := Table.languageCell (Table.cols allRepos) r in
  String.prefix language cell = true
  /\ String.length cell
     = Nat.max (Table.lang (Table.cols allRepos)) (String.length language)
  /\ Table.lang (Table.cols allRepos) <= 17.
Proof.
  intros language cell.
  assert (Hcell : cell = Table.padEnd (Table.lang (Table.cols allRepos))
                           language).
  { subst cell language. unfold Table.languageCell.
    now destruct (Repo.language (Listing.repo r)) as [[| c l] |]. }
  rewrite Hcell. split; [| split].
  - apply prefix_append.
  - apply padEnd_length.
  - cbn [Table.cols Table.lang]. unfold Table.maxLangLen. lia.
Qed.
